(** * DN3 instance transforms: a shallow embedding

    The development follows [dn3/transforms/instance.py] and
    [dn3/utils.py].  Tensors are kept the way torch keeps them: a shape and
    a flat, row-major list of values.  Values are an idealised IEEE model:
    exact rationals plus the two infinities and NaN, so that the special
    cases the code can reach (0/0, x/0) are those of the float unit while
    rounding and overflow are left out.  Statements that depend on the
    value of a sum, a mean, a difference or a product carry the condition
    under which the floating-point result is the exact one (or is stated
    for whatever the computed value is).  Random draws are read from an
    explicit source. *)

From Stdlib Require Import String.
From Stdlib Require Import ZArith QArith Qround Qabs Qminmax List Bool Lia Lqa PeanoNat.
From Stdlib Require Import Permutation.
Import ListNotations.
Close Scope Q_scope.
Open Scope nat_scope.

(** ** Outcomes *)

Inductive exn : Type :=
| TypeError
| ValueError
| IndexError
| RuntimeError
| AssertionError
| AttributeError
| Unmodelled. (* a path of torch that this development does not cover *)

Inductive result (A : Type) : Type :=
| Ok (a : A)
| Raise (e : exn).

Arguments Ok {A} a.
Arguments Raise {A} e.

Definition bind {A B : Type} (r : result A) (k : A -> result B) : result B :=
  match r with
  | Ok a => k a
  | Raise e => Raise e
  end.

Notation "x <- c ;; k" := (bind c (fun x => k))
  (at level 61, c at next level, right associativity).

(** ** Values *)

Inductive fval : Type :=
| Fin (q : Q)
| PInf
| NInf
| NaN.

Definition Qsign_nonneg (q : Q) : bool := Qle_bool 0 q.
Definition Qis_zero (q : Q) : bool := Qeq_bool q 0.

Definition fneg (v : fval) : fval :=
  match v with
  | Fin q => Fin (Qred (- q))
  | PInf => NInf
  | NInf => PInf
  | NaN => NaN
  end.

Definition fadd (a b : fval) : fval :=
  match a, b with
  | NaN, _ | _, NaN => NaN
  | PInf, NInf | NInf, PInf => NaN
  | PInf, _ | _, PInf => PInf
  | NInf, _ | _, NInf => NInf
  | Fin x, Fin y => Fin (Qred (x + y))
  end.

Definition fsub (a b : fval) : fval := fadd a (fneg b).

(* the infinity whose sign is the product of the two signs *)
Definition inf_of (pos1 pos2 : bool) : fval :=
  if Bool.eqb pos1 pos2 then PInf else NInf.

Definition fmul (a b : fval) : fval :=
  match a, b with
  | NaN, _ | _, NaN => NaN
  | Fin x, Fin y => Fin (Qred (x * y))
  | Fin x, PInf | PInf, Fin x =>
      if Qis_zero x then NaN else inf_of (Qsign_nonneg x) true
  | Fin x, NInf | NInf, Fin x =>
      if Qis_zero x then NaN else inf_of (Qsign_nonneg x) false
  | PInf, PInf | NInf, NInf => PInf
  | PInf, NInf | NInf, PInf => NInf
  end.

Definition fdiv (a b : fval) : fval :=
  match a, b with
  | NaN, _ | _, NaN => NaN
  | Fin x, Fin y =>
      if Qis_zero y
      then (if Qis_zero x then NaN else inf_of (Qsign_nonneg x) true)
      else Fin (Qred (x / y))
  | Fin _, PInf | Fin _, NInf => Fin 0
  | PInf, Fin y => inf_of true (Qsign_nonneg y)
  | NInf, Fin y => inf_of false (Qsign_nonneg y)
  | _, _ => NaN
  end.

Definition fle (a b : fval) : bool :=
  match a, b with
  | NaN, _ | _, NaN => false
  | NInf, _ => true
  | _, PInf => true
  | Fin x, Fin y => Qle_bool x y
  | _, _ => false
  end.

(* torch.min / torch.max over a tensor propagate NaN *)
Definition fmin2 (a b : fval) : fval :=
  match a, b with
  | NaN, _ | _, NaN => NaN
  | _, _ => if fle a b then a else b
  end.

Definition fmax2 (a b : fval) : fval :=
  match a, b with
  | NaN, _ | _, NaN => NaN
  | _, _ => if fle a b then b else a
  end.


Definition is_fin (v : fval) : bool :=
  match v with Fin _ => true | _ => false end.

(** ** Tensors: shape and row-major data *)

Record tensor : Type := mkTensor { shape : list nat; data : list fval }.

Definition numel_of (sh : list nat) : nat := fold_right Nat.mul 1 sh.

Definition rank (x : tensor) : nat := length (shape x).

(* x.shape[-1] *)
Definition last_dim (x : tensor) : result nat :=
  match rev (shape x) with
  | [] => Raise IndexError
  | d :: _ => Ok d
  end.

(* [k] consecutive pieces of [n] elements *)
Fixpoint chunks {A : Type} (k n : nat) (l : list A) : list (list A) :=
  match k with
  | O => []
  | S k' => firstn n l :: chunks k' n (skipn n l)
  end.

Definition reduce_min (l : list fval) : result fval :=
  match l with
  | [] => Raise RuntimeError
  | v :: vs => Ok (fold_left fmin2 vs v)
  end.

Definition reduce_max (l : list fval) : result fval :=
  match l with
  | [] => Raise RuntimeError
  | v :: vs => Ok (fold_left fmax2 vs v)
  end.

(* x.min(), x.max(): a reduction over every element *)
Definition t_min (x : tensor) : result fval := reduce_min (data x).
Definition t_max (x : tensor) : result fval := reduce_max (data x).

Definition t_map (f : fval -> fval) (x : tensor) : tensor :=
  mkTensor (shape x) (map f (data x)).

Definition fsum (l : list fval) : fval := fold_left fadd l (Fin 0).

Definition fnat (n : nat) : fval := Fin (inject_Z (Z.of_nat n)).

(* x.mean() *)
Definition t_mean (x : tensor) : fval :=
  fdiv (fsum (data x)) (fnat (length (data x))).

(** ** dn3/utils.py *)

(* one row of the rank-3 branch: reduced over dim=-1 with keepdim, twice
   (the second reduction runs over a dimension of size one) *)
Definition normalize_row (r : list fval) : list fval :=
  match r with
  | [] => []
  | v :: vs =>
      let lo := fold_left fmin2 vs v in
      let hi := fold_left fmax2 vs v in
      map (fun e => fdiv (fsub e lo) (fsub hi lo)) r
  end.

(* [Ok None] is Python's None: the function ends without a return *)
Definition min_max_normalize (x : tensor) : result (option tensor) :=
  if rank x =? 2 then
    lo <- t_min x ;;
    hi <- t_max x ;;
    Ok (Some (t_map (fun e => fdiv (fsub e lo) (fsub hi lo)) x))
  else if rank x =? 3 then
    match rev (shape x) with
    | O :: _ => Raise IndexError
    | s :: _ =>
        Ok (Some (mkTensor (shape x)
               (concat (map normalize_row
                          (chunks (length (data x) / s) s (data x))))))
    | [] => Raise IndexError
    end
  else Ok None.

(* a positional argument of a call *)
Inductive pyarg : Type :=
| ATensor (t : tensor)
| ANum (q : Q).

(* a function written [def f(p1, ..., pn)]: no defaults, no [*args] *)
Record pydef (R : Type) : Type := mkDef {
  n_params : nat;
  body : list pyarg -> result R
}.

Arguments mkDef {R} n_params body.
Arguments n_params {R} p.
Arguments body {R} p.

(* f(a1, ..., ak): the arguments are bound to the parameters one by one,
   and a different count is a TypeError *)
Definition py_call {R : Type} (f : pydef R) (args : list pyarg) : result R :=
  if length args =? n_params f then body f args else Raise TypeError.

(* [def min_max_normalize(x: torch.Tensor)] *)
Definition min_max_normalize_def : pydef (option tensor) :=
  mkDef 1 (fun args =>
             match args with
             | ATensor x :: _ => min_max_normalize x
             | _ => Raise AttributeError (* a number has no shape *)
             end).

(** ** dn3/transforms/instance.py *)

Module InstanceTransform.
(* the defaults every transform inherits *)
Definition new_channels {C : Type} (old_channels : C) : C := old_channels.
Definition new_sfreq (old_sfreq : Q) : Q := old_sfreq.
Definition new_sequence_length (old_sequence_length : Z) : Z := old_sequence_length.
End InstanceTransform.

(** *** ZScore *)

Section ZScoreDef.
(* the square root of the float unit, on the finite non-negative values *)
Variable sqrtQ : Q -> Q.

Definition fsqrt (v : fval) : fval :=
  match v with
  | Fin q => if Qle_bool 0 q then Fin (sqrtQ (Qred q)) else NaN
  | PInf => PInf
  | NInf => NaN
  | NaN => NaN
  end.

(* x.std(): Bessel's correction, as torch does by default *)
Definition t_std (x : tensor) : fval :=
  let m := t_mean x in
  let sq := map (fun e => fmul (fsub e m) (fsub e m)) (data x) in
  fsqrt (fdiv (fsum sq) (fsub (fnat (length (data x))) (Fin 1))).

Definition ZScore_call (x : tensor) : tensor :=
  let m := t_mean x in
  let s := t_std x in
  t_map (fun e => fdiv (fsub e m) s) x.
End ZScoreDef.

(** *** FixedScale *)

Module FixedScale.
Record t : Type := init { low_bound : Q; high_bound : Q }.

Definition call (self : t) (x : tensor) : result (option tensor) :=
  py_call min_max_normalize_def
    [ATensor x; ANum (low_bound self); ANum (high_bound self)].
End FixedScale.

(** *** torch.nn.functional.pad, constant mode *)

(* pad (or, for a negative amount, crop) one dimension of a list of items *)
Definition pad_list {A : Type} (l r : Z) (fill : A) (xs : list A) : list A :=
  let xs1 := if (l <? 0)%Z then skipn (Z.to_nat (- l)) xs
             else repeat fill (Z.to_nat l) ++ xs in
  if (r <? 0)%Z then firstn (length xs1 - Z.to_nat (- r)) xs1
  else xs1 ++ repeat fill (Z.to_nat r).

(* [pad] lists (left, right) for the last dimension first; this gives one
   pair per dimension, the first dimension first *)
Fixpoint pad_pairs (pad : list Z) : list (Z * Z) :=
  match pad with
  | l :: r :: rest => pad_pairs rest ++ [(l, r)]
  | _ => []
  end.

Definition per_dim_pads (rk : nat) (pad : list Z) : list (Z * Z) :=
  let ps := pad_pairs pad in
  repeat (0%Z, 0%Z) (rk - length ps) ++ ps.

Fixpoint pad_shape (sh : list nat) (pads : list (Z * Z)) : list Z :=
  match sh, pads with
  | d :: rest, (l, r) :: pads' => (Z.of_nat d + l + r)%Z :: pad_shape rest pads'
  | _, _ => map Z.of_nat sh
  end.

Fixpoint pad_data (sh : list nat) (pads : list (Z * Z)) (v : fval)
  (dat : list fval) : list fval :=
  match sh, pads with
  | d :: rest, (l, r) :: pads' =>
      let inner := numel_of rest in
      let inner' := numel_of (map Z.to_nat (pad_shape rest pads')) in
      let blocks := map (pad_data rest pads' v) (chunks d inner dat) in
      concat (pad_list l r (repeat v inner') blocks)
  | _, _ => dat
  end.

Definition torch_pad (x : tensor) (pad : list Z) (mode : String.string)
  (value : fval) : result tensor :=
  if negb (length pad mod 2 =? 0) then Raise AssertionError
  else if negb (length pad / 2 <=? rank x) then Raise AssertionError
  else if String.eqb mode "constant"%string then
    let pads := per_dim_pads (rank x) pad in
    let sh' := pad_shape (shape x) pads in
    if forallb (fun d => (0 <=? d)%Z) sh'
    then Ok (mkTensor (map Z.to_nat sh') (pad_data (shape x) pads value (data x)))
    else Raise RuntimeError
  else Raise Unmodelled.

(** *** TemporalPadding *)

Module TemporalPadding.
Record t : Type := init {
  start_padding : Z;
  end_padding : Z;
  mode : String.string;
  constant_value : fval
}.

(* [0 for _ in range(2, n)] *)
Definition zeros_from_2 (n : nat) : list Z := repeat 0%Z (n - 2).

Definition call (self : t) (x : tensor) : result tensor :=
  n <- last_dim x ;;
  let pad := [start_padding self; end_padding self] ++ zeros_from_2 n in
  torch_pad x pad (mode self) (constant_value self).

Definition new_sequence_length (self : t) (old_sequence_length : Z) : Z :=
  (old_sequence_length + start_padding self + end_padding self)%Z.
End TemporalPadding.

(** *** torch.nn.functional.interpolate on [batch, channels, samples] *)

(* nearest mode: output sample i reads input sample
   min(floor(i * len / size), len - 1).  torch evaluates the factor
   len / size in single precision; the index below is the exact one, and
   the two agree when the sizes are equal or one is a power-of-two
   multiple of the other below 2^24 samples. *)
Definition nearest_row (row : list fval) (len size : nat) : list fval :=
  map (fun i => nth (Nat.min (i * len / size) (len - 1)) row NaN) (seq 0 size).

Definition interpolate (x : tensor) (size : Z) (mode : String.string)
  : result tensor :=
  match shape x with
  | [b; c; len] =>
      if String.eqb mode "nearest"%string then
        if (size <=? 0)%Z || (c =? 0) || (len =? 0) then Raise RuntimeError
        else
          let n := Z.to_nat size in
          Ok (mkTensor [b; c; n]
                (concat (map (fun r => nearest_row r len n)
                           (chunks (b * c) len (data x)))))
      else Raise Unmodelled
  | _ => Raise Unmodelled
  end.

Definition unsqueeze0 (x : tensor) : tensor := mkTensor (1 :: shape x) (data x).

Definition squeeze0 (x : tensor) : tensor :=
  match shape x with
  | 1 :: rest => mkTensor rest (data x)
  | _ => x
  end.

(** *** TemporalInterpolation *)

Module TemporalInterpolation.
Record t : Type := init {
  _new_sequence_length : Z;
  mode : String.string;
  _new_sfreq : option Q
}.

Definition call (self : t) (x : tensor) : result tensor :=
  if rank x =? 2 then
    y <- interpolate (unsqueeze0 x) (_new_sequence_length self) (mode self) ;;
    Ok (squeeze0 y)
  else if rank x =? 3 then
    interpolate x (_new_sequence_length self) (mode self)
  else Raise ValueError.

Definition new_sequence_length (self : t) (old_sequence_length : Z) : Z :=
  _new_sequence_length self.

Definition new_sfreq (self : t) (old_sfreq : Q) : Q :=
  match _new_sfreq self with
  | Some f => f
  | None => old_sfreq
  end.
End TemporalInterpolation.

(** *** Slicing and numpy's random source *)

(* the length of [v[:k]] for a dimension of size [d] *)
Definition slice_stop (d : nat) (k : Z) : nat :=
  if (k <? 0)%Z then Z.to_nat (Z.max 0 (Z.of_nat d + k))
  else Z.to_nat (Z.min k (Z.of_nat d)).

(* x[:, :k] *)
Definition slice_dim1 (x : tensor) (k : Z) : result tensor :=
  match shape x with
  | d0 :: d1 :: rest =>
      let inner := numel_of rest in
      let k' := slice_stop d1 k in
      Ok (mkTensor (d0 :: k' :: rest)
            (concat (map (firstn (k' * inner)) (chunks d0 (d1 * inner) (data x)))))
  | _ => Raise IndexError
  end.

(* np.random.randint(low, high): [u] is the generator's raw output *)
Definition np_random_randint (low high u : Z) : result Z :=
  if (low <? high)%Z then Ok (low + u mod (high - low))%Z
  else Raise ValueError.

(* np.random.normal(mean, std): [z] is a standard normal variate *)
Definition np_random_normal (mean std z : Q) : result Q :=
  if Qle_bool 0 std then Ok (Qred (mean + std * z))%Q
  else Raise ValueError.

(* int(): truncation towards zero *)
Definition py_int (q : Q) : Z := Z.quot (Qnum q) (Zpos (Qden q)).

(** *** CropAndUpSample *)

Module CropAndUpSample.
Record t : Type := mk {
  super : TemporalInterpolation.t;
  crop_sequence_min : Z
}.

Definition init (original_sequence_length crop_sequence_min : Z) : t :=
  mk (TemporalInterpolation.init original_sequence_length "nearest"%string None)
     crop_sequence_min.

(* np.random.randint(low=self.crop_sequence_min, high=x.shape[-1]) *)
Definition crop_len (self : t) (u : Z) (x : tensor) : result Z :=
  n <- last_dim x ;;
  np_random_randint (crop_sequence_min self) (Z.of_nat n) u.

Definition call (self : t) (u : Z) (x : tensor) : result tensor :=
  len <- crop_len self u x ;;
  xc <- slice_dim1 x len ;;
  TemporalInterpolation.call (super self) xc.

Definition new_sequence_length (self : t) (old_sequence_length : Z) : Z :=
  old_sequence_length.

Definition new_sfreq (self : t) (old_sfreq : Q) : Q :=
  TemporalInterpolation.new_sfreq (super self) old_sfreq.
End CropAndUpSample.

(** *** CropAndResample *)

Module CropAndResample.
Record t : Type := mk {
  super : TemporalInterpolation.t;
  stdev : Q;
  truncate : option Q (* None is float("inf") *)
}.

Definition init (desired_sequence_length : Z) (stdev : Q) (truncate : option Q)
  (mode : String.string) (new_sfreq : option Q) : t :=
  mk (TemporalInterpolation.init desired_sequence_length mode new_sfreq)
     stdev truncate.

(* the while loop; [zs] is the source of variates, read from position [i];
   [None] when [fuel] iterations did not leave the loop *)
Fixpoint trunc_norm (fuel : nat) (mean std max_diff : Q) (zs : nat -> Q)
  (i : nat) : option (result Z) :=
  match fuel with
  | O => None
  | S fuel' =>
      match np_random_normal mean std (zs i) with
      | Raise e => Some (Raise e)
      | Ok d =>
          let val := py_int d in
          if negb (Qle_bool (Qabs (inject_Z val - mean)) max_diff)
          then trunc_norm fuel' mean std max_diff zs (S i)
          else Some (Ok val)
      end
  end.

(* the value one pass of the loop computes from the variate [z], and
   whether the loop's test lets it through *)
Definition draw (mean std z : Q) : Z := py_int (Qred (mean + std * z)).

Definition accepted (mean std max_diff z : Q) : bool :=
  Qle_bool (Qabs (inject_Z (draw mean std z) - mean)) max_diff.

Definition new_sequence_length (self : t) (old_sequence_length : Z) : Z :=
  old_sequence_length.

Definition new_sfreq (self : t) (old_sfreq : Q) : Q :=
  TemporalInterpolation.new_sfreq (super self) old_sfreq.

(* min(x.shape[-1] - self._new_sequence_length, self.truncate) *)
Definition max_diff (self : t) (n : nat) : Q :=
  let d := inject_Z (Z.of_nat n - TemporalInterpolation._new_sequence_length (super self)) in
  match truncate self with
  | None => d
  | Some tr => Qmin d tr
  end.

Definition call (self : t) (fuel : nat) (zs : nat -> Q) (x : tensor)
  : option (result tensor) :=
  match last_dim x with
  | Raise e => Some (Raise e)
  | Ok n =>
      let md := max_diff self n in
      if Qle_bool md 0 then Some (Raise AssertionError)
      else
        match trunc_norm fuel
                (inject_Z (TemporalInterpolation._new_sequence_length (super self)))
                (stdev self) md zs 0 with
        | None => None
        | Some (Raise e) => Some (Raise e)
        | Some (Ok offset) =>
            Some (xc <- slice_dim1 x offset ;;
                  TemporalInterpolation.call (super self) xc)
        end
  end.
End CropAndResample.

(** *** Indexing the first dimension *)

(* the sub-tensors x[0], x[1], ... as flat pieces *)
Definition blocks_of (x : tensor) : list (list fval) :=
  match shape x with
  | [] => []
  | d0 :: rest => chunks d0 (numel_of rest) (data x)
  end.

Fixpoint set_nth {A : Type} (i : nat) (v : A) (l : list A) : list A :=
  match l, i with
  | [], _ => []
  | _ :: l', O => v :: l'
  | a :: l', S i' => a :: set_nth i' v l'
  end.

(* x[inds, :] with a list of row numbers *)
Definition index_rows (x : tensor) (inds : list nat) : result tensor :=
  match shape x with
  | d0 :: d1 :: rest =>
      if forallb (fun i => i <? d0) inds
      then Ok (mkTensor (length inds :: d1 :: rest)
                 (concat (map (fun i => nth i (blocks_of x) []) inds)))
      else Raise IndexError
  | _ => Raise IndexError
  end.

(* x[inds, :] = v, for a tensor v of the shape of x[inds, :] *)
Definition assign_rows (x : tensor) (inds : list nat) (v : tensor) : result tensor :=
  match shape x with
  | d0 :: d1 :: rest =>
      if negb (forallb (fun i => i <? d0) inds) then Raise IndexError
      else if list_eq_dec Nat.eq_dec (shape v) (length inds :: d1 :: rest)
      then Ok (mkTensor (shape x)
                 (concat (fold_left (fun bs ib => set_nth (fst ib) (snd ib) bs)
                            (combine inds (blocks_of v)) (blocks_of x))))
      else Raise RuntimeError
  | _ => Raise IndexError
  end.

(* every selected row of x is filled with the scalar v *)
Definition fill_rows (x : tensor) (sel : nat -> bool) (v : fval) : tensor :=
  mkTensor (shape x)
    (concat (map (fun ib => if sel (fst ib) then map (fun _ => v) (snd ib) else snd ib)
               (combine (seq 0 (length (blocks_of x))) (blocks_of x)))).

(* x[~mask, :] = v with a boolean mask over the first dimension *)
Definition assign_unmasked (x : tensor) (mask : list bool) (v : fval) : result tensor :=
  match shape x with
  | d0 :: _ :: _ =>
      if length mask =? d0
      then Ok (fill_rows x (fun i => negb (nth i mask true)) v)
      else Raise IndexError
  | _ => Raise IndexError
  end.

(* x[i, :] = v with one row number *)
Definition assign_row_scalar (x : tensor) (i : nat) (v : fval) : result tensor :=
  match shape x with
  | d0 :: _ :: _ =>
      if i <? d0 then Ok (fill_rows x (fun j => j =? i) v)
      else Raise IndexError
  | _ => Raise IndexError
  end.

(** *** transpose(1, 0) and the product with a matrix *)

Definition transpose10 (x : tensor) : result tensor :=
  match shape x with
  | d0 :: d1 :: rest =>
      let inner := numel_of rest in
      let grid := map (chunks d1 inner) (chunks d0 (d1 * inner) (data x)) in
      Ok (mkTensor (d1 :: d0 :: rest)
            (concat (map (fun j => concat (map (fun r => nth j r []) grid))
                       (seq 0 d1))))
  | _ => Raise IndexError
  end.

(* entry (i, j) of an [n; m] matrix *)
Definition entry (mat : tensor) (m i j : nat) : fval := nth (i * m + j) (data mat) NaN.

Definition column (mat : tensor) (n m j : nat) : list fval :=
  map (fun i => entry mat m i j) (seq 0 n).

Definition dot (u v : list fval) : fval :=
  fsum (map (fun p => fmul (fst p) (snd p)) (combine u v)).

(* x @ mat for a rank-2 mat; the leading dimensions of x are batched *)
Definition matmul (x mat : tensor) : result tensor :=
  match shape mat, rev (shape x) with
  | [n; m], k :: lead =>
      if k =? n
      then Ok (mkTensor (rev lead ++ [m])
                 (concat (map (fun r => map (fun j => dot r (column mat n m j)) (seq 0 m))
                            (chunks (numel_of lead) k (data x)))))
      else Raise RuntimeError
  | [_; _], [] => Raise RuntimeError
  | _, _ => Raise Unmodelled
  end.

(* mapping.sum(dim=0).bool() *)
Definition column_used (mat : tensor) : result (list bool) :=
  match shape mat with
  | [n; m] =>
      Ok (map (fun j => match fsum (column mat n m j) with
                        | Fin q => negb (Qis_zero q)
                        | _ => true
                        end) (seq 0 m))
  | _ => Raise Unmodelled
  end.

(* torch.clamp_max *)
Definition clamp_max (v c : fval) : fval := fmin2 v c.

(** *** MappingDeep1010 *)

Record DatasetInfo : Type := mkInfo {
  data_max : option fval;
  data_min : option fval
}.

Inductive mapped : Type :=
| Plain (x : tensor)
| WithMask (x : tensor) (used_channel_mask : list bool).

Definition mapped_tensor (r : mapped) : tensor :=
  match r with
  | Plain x => x
  | WithMask x _ => x
  end.

Module MappingDeep1010.
Record t : Type := mk {
  mapping : tensor;
  max_scale : option fval;
  return_mask : bool
}.

(* [mapping] stands for map_dataset_channels_deep_1010(dataset.channels),
   [info] for dataset.info *)
Definition init (mapping : tensor) (info : option DatasetInfo)
  (add_scale_ind return_mask : bool) : t :=
  let ms :=
    if add_scale_ind then
      match info with
      | None => None
      | Some i =>
          match data_max i, data_min i with
          | Some hi, Some lo => Some (fsub hi lo)
          | _, _ => None
          end
      end
    else None in
  mk mapping ms return_mask.

Definition scale_of (self : t) (x : tensor) : result fval :=
  match max_scale self with
  | Some ms =>
      hi <- t_max x ;;
      lo <- t_min x ;;
      Ok (fmul (Fin 2) (fsub (clamp_max (fdiv (fsub hi lo) ms) (Fin 1)) (Fin (1 # 2))))
  | None => Ok (Fin 0)
  end.

(* x[ch_type_inds, :] = min_max_normalize(x[ch_type_inds, :]) *)
Definition normalize_category (x : tensor) (ch_type_inds : list nat) : result tensor :=
  sub <- index_rows x ch_type_inds ;;
  r <- py_call min_max_normalize_def [ATensor sub] ;;
  match r with
  | None => Raise TypeError
  | Some v => assign_rows x ch_type_inds v
  end.

Fixpoint normalize_categories (x : tensor) (cats : list (list nat)) : result tensor :=
  match cats with
  | [] => Ok x
  | c :: cats' => x' <- normalize_category x c ;; normalize_categories x' cats'
  end.

Section Channels.
(* the constants of dn3/transforms/channels.py *)
Variable SCALE_IND : nat.
Variables EEG_INDS EOG_INDS REF_INDS EXTRA_INDS : list nat.

Definition call (self : t) (x : tensor) : result mapped :=
  scale <- scale_of self x ;;
  xt <- transpose10 x ;;
  xm <- matmul xt (mapping self) ;;
  x1 <- transpose10 xm ;;
  x2 <- normalize_categories x1 [EEG_INDS; EOG_INDS; REF_INDS; EXTRA_INDS] ;;
  used_channel_mask <- column_used (mapping self) ;;
  x3 <- assign_unmasked x2 used_channel_mask (Fin 0) ;;
  x4 <- assign_row_scalar x3 SCALE_IND scale ;;
  if return_mask self then Ok (WithMask x4 used_channel_mask) else Ok (Plain x4).
End Channels.
End MappingDeep1010.

(** *** torch's random source *)

(* [src] lists the uniform draws in [0, 1) in the order they are made;
   the state is the number of draws made so far *)
Definition rand (src : nat -> Q) (pos n : nat) : list Q * nat :=
  (map src (seq pos n), pos + n).

(* 2 * r - 1 *)
Definition noise_of (r : Q) : fval := fsub (fmul (Fin 2) (Fin r)) (Fin 1).

(* r.lt(p) *)
Definition Qltb (r p : Q) : bool := negb (Qle_bool p r).

(** *** NoisyBlankDeep1010 *)

(* one of the per-instance values *)
Inductive pyval : Type :=
| VTensor (x : tensor)
| VMask (m : list bool)
| VOther (label : Z).

(* what __call__ returns: the list x, or whatever x was rebound to *)
Inductive returned : Type :=
| RList (xs : list pyval)
| RItem (v : pyval).

(* xs[i] and xs.pop(i) of a Python list, with negative positions *)
Definition py_pos {A : Type} (xs : list A) (i : Z) : option nat :=
  let n := Z.of_nat (length xs) in
  if (0 <=? i)%Z && (i <? n)%Z then Some (Z.to_nat i)
  else if (i <? 0)%Z && (0 <=? n + i)%Z then Some (Z.to_nat (n + i))
  else None.

Definition py_get {A : Type} (xs : list A) (i : Z) : result A :=
  match py_pos xs i with
  | Some k => match nth_error xs k with
              | Some v => Ok v
              | None => Raise IndexError
              end
  | None => Raise IndexError
  end.

Definition py_pop {A : Type} (xs : list A) (i : Z) : result (A * list A) :=
  match py_pos xs i with
  | Some k => match nth_error xs k with
              | Some v => Ok (v, firstn k xs ++ skipn (S k) xs)
              | None => Raise IndexError
              end
  | None => Raise IndexError
  end.

(* the rows of x at which the mask is False receive fresh noise, row after
   row, in the order of the draws *)
Fixpoint noise_blocks (bs : list (list fval)) (mask : list bool)
  (src : nat -> Q) (pos : nat) : list (list fval) * nat :=
  match bs, mask with
  | b :: bs', keep :: mask' =>
      if keep then
        let r := noise_blocks bs' mask' src pos in
        (b :: fst r, snd r)
      else
        let d := rand src pos (length b) in
        let r := noise_blocks bs' mask' src (snd d) in
        (map noise_of (fst d) :: fst r, snd r)
  | _, _ => (bs, pos)
  end.

Module NoisyBlankDeep1010.
Record t : Type := init { mask_index : Z; purge_mask : bool }.

Definition call (self : t) (src : nat -> Q) (pos : nat) (x : list pyval)
  : result (returned * nat) :=
  if negb (1 <? length x) then Raise AssertionError
  else
    x0 <- py_get x 0 ;;
    m <- py_get x (mask_index self) ;;
    match x0, m with
    | VTensor x0t, VMask mask =>
        match shape x0t with
        | d0 :: _ :: _ =>
            if length mask =? d0 then
              let nb := noise_blocks (blocks_of x0t) mask src pos in
              let x0' := VTensor (mkTensor (shape x0t) (concat (fst nb))) in
              let x' := set_nth 0 x0' x in
              if purge_mask self then
                popped <- py_pop x' (mask_index self) ;;
                Ok (RItem (fst popped), snd nb)
              else Ok (RList x', snd nb)
            else Raise IndexError
        | _ => Raise IndexError
        end
    | VMask _, VMask _ => Raise IndexError
    | _, _ => Raise Unmodelled
    end.
End NoisyBlankDeep1010.

(** *** AdditiveEogDeep1010 *)

(* the positions of the True entries: nonzero() *)
Definition nonzero (bs : list bool) : list nat :=
  map fst (filter snd (combine (seq 0 (length bs)) bs)).

(* ids[mask] *)
Definition select {A : Type} (ids : list A) (mask : list bool) : list A :=
  map fst (filter snd (combine ids mask)).

Definition scale_row (c : fval) (row : list fval) : list fval := map (fmul c) row.

Module AdditiveEogDeep1010.
Record t : Type := init { p : Q; max_intensity : Q; blanking_p : Q }.

(* the body of the loop for one EOG row *)
Definition step (self : t) (affected_inds : list nat) (src : nat -> Q)
  (st : tensor * nat) (which_eog : nat) : result (tensor * nat) :=
  let x := fst st in
  let d1 := rand src (snd st) (length affected_inds) in
  let this_affected_ids := select affected_inds (map (fun r => Qltb r (1 # 4)) (fst d1)) in
  let d2 := rand src (snd d1) (length this_affected_ids) in
  match shape x with
  | [d0; s] =>
      if negb (which_eog <? d0) then Raise IndexError
      else
        let eog := nth which_eog (blocks_of x) [] in
        let rows := map (fun r => scale_row (fmul (Fin (max_intensity self)) (Fin r)) eog)
                      (fst d2) in
        x1 <- assign_rows x this_affected_ids
                (mkTensor [length this_affected_ids; s] (concat rows)) ;;
        if Qis_zero (blanking_p self) then Ok (x1, snd d2)
        else if Qeq_bool (blanking_p self) 1 then
          x2 <- assign_row_scalar x1 which_eog (Fin 0) ;; Ok (x2, snd d2)
        else
          let d3 := rand src (snd d2) 1 in
          if Qltb (hd 0%Q (fst d3)) (blanking_p self)
          then x2 <- assign_row_scalar x1 which_eog (Fin 0) ;; Ok (x2, snd d3)
          else Ok (x1, snd d3)
  | _ => Raise Unmodelled
  end.

Fixpoint loop (self : t) (affected_inds : list nat) (src : nat -> Q)
  (st : tensor * nat) (eogs : list nat) : result (tensor * nat) :=
  match eogs with
  | [] => Ok st
  | w :: eogs' =>
      st' <- step self affected_inds src st w ;;
      loop self affected_inds src st' eogs'
  end.

Section Channels.
Variable EOG_INDS : list nat.

Definition call (self : t) (src : nat -> Q) (pos : nat) (x : tensor)
  : result (tensor * nat) :=
  match EOG_INDS with
  | [] => Raise IndexError
  | O :: _ => Raise RuntimeError
  | S k :: _ =>
      let d0 := rand src pos k in
      let affected_inds := nonzero (map (fun r => Qltb r (p self)) (fst d0)) in
      loop self affected_inds src (x, snd d0) EOG_INDS
  end.
End Channels.
End AdditiveEogDeep1010.

(** ** Predicates and sample inputs of the statements *)

Definition raises {A : Type} (r : result A) : Prop := exists e, r = Raise e.


Definition all_fin (l : list fval) : bool := forallb is_fin l.

Definition is_zero (v : fval) : bool :=
  match v with
  | Fin q => Qis_zero q
  | _ => false
  end.

(* no source channel contributes to canonical slot [j] *)
Definition column_empty (mat : tensor) (n m j : nat) : bool :=
  forallb is_zero (column mat n m j).

(* a rank-2 tensor of [m] rows of [s] entries *)
Definition grid (m s : nat) (x : tensor) : Prop :=
  shape x = [m; s] /\ length (data x) = m * s.

Definition uniform {A : Type} (n : nat) (bs : list (list A)) : Prop :=
  Forall (fun b => length b = n) bs.

(* a square root that is exact where numerator times denominator is a square *)
Definition Qsqrt_approx (q : Q) : Q := Z.sqrt (Qnum q * Zpos (Qden q)) # Qden q.

(* a source whose third variate is the first that passes *)
Definition zs_third (i : nat) : Q := if i =? 2 then 1%Q else 100%Q.

(* three source channels on seven canonical slots: two EEG, one EOG *)
Definition map37 : tensor :=
  mkTensor [3; 7]
    (map (fun z => Fin (inject_Z z))
       [1; 0; 0; 0; 0; 0; 0;
        0; 1; 0; 0; 0; 0; 0;
        0; 0; 0; 1; 0; 0; 0]%Z).

Definition trial34 : tensor :=
  mkTensor [3; 4]
    (map (fun z => Fin (inject_Z z)) [1; 2; 3; 4; 5; 6; 7; 8; 0; 10; 20; 30]%Z).

Definition trial3 : tensor := mkTensor [3] [Fin 1; Fin 2; Fin 3].

(* rows 0 to 2 are EEG rows with any content, row 3 is the EOG row *)
Definition eog_input (a0 a1 b0 b1 c0 c1 : fval) : tensor :=
  mkTensor [4; 2] [a0; a1; b0; b1; c0; c1; Fin 10; Fin 20].

(** *** MaskAuxiliariesDeep1010 *)

Module MaskAuxiliariesDeep1010.
Record t : Type := init { randomize : bool }.

Section Channels.
Variables REF_INDS EOG_INDS EXTRA_INDS : list nat.

Definition MASK_THESE : list nat := REF_INDS ++ EOG_INDS ++ EXTRA_INDS.

Definition call (self : t) (src : nat -> Q) (pos : nat) (x : tensor)
  : result (tensor * nat) :=
  if randomize self then
    sub <- index_rows x MASK_THESE ;;
    let d := rand src pos (length (data sub)) in
    x' <- assign_rows x MASK_THESE (mkTensor (shape sub) (map noise_of (fst d))) ;;
    Ok (x', snd d)
  else
    (* x[self.MASK_THESE] = 0 indexes the first dimension only *)
    match shape x with
    | d0 :: _ =>
        if forallb (fun i => i <? d0) MASK_THESE
        then Ok (fill_rows x (fun i => existsb (Nat.eqb i) MASK_THESE) (Fin 0), pos)
        else Raise IndexError
    | [] => Raise IndexError
    end.
End Channels.
End MaskAuxiliariesDeep1010.

(** *** MappingDeep1010.new_channels *)

(* v != 0, as nonzero() tests it *)
Definition is_nonzero (v : fval) : bool :=
  match v with
  | Fin q => negb (Qis_zero q)
  | _ => true
  end.

(* self.mapping[:, row].nonzero() *)
Definition active_rows (mat : tensor) (n m j : nat) : list nat :=
  filter (fun i => is_nonzero (entry mat m i j)) (seq 0 n).

Fixpoint map_result {A B : Type} (f : A -> result B) (l : list A) : result (list B) :=
  match l with
  | [] => Ok []
  | a :: l' => b <- f a ;; bs <- map_result f l' ;; Ok (b :: bs)
  end.

(* old_channels[i, 0]: the name of source channel i *)
Definition channel_name (old_channels : list (string * string)) (i : nat)
  : result string :=
  match nth_error old_channels i with
  | Some ch => Ok (fst ch)
  | None => Raise IndexError
  end.

Module MappingDeep1010Names.
Section Channels.
(* the type labels of the canonical slots, from dn3/transforms/channels.py *)
Variable DEEP_1010_CH_TYPES : list string.

(* the loop body for one canonical slot: the joined names, or None *)
Definition slot_name (mat : tensor) (n m : nat) (old_channels : list (string * string))
  (row : nat) : result (option string) :=
  match active_rows mat n m row with
  | [] => Ok None
  | active =>
      names <- map_result (channel_name old_channels) active ;;
      Ok (Some (String.concat "-" names))
  end.

Definition new_channels (self : MappingDeep1010.t)
  (old_channels : list (string * string)) : result (list (option string * string)) :=
  match shape (MappingDeep1010.mapping self) with
  | [n; m] =>
      channels <- map_result
                    (slot_name (MappingDeep1010.mapping self) n m old_channels)
                    (seq 0 m) ;;
      Ok (combine channels DEEP_1010_CH_TYPES)
  | _ :: _ :: _ => Raise Unmodelled (* the mapping is a matrix *)
  | _ => Raise IndexError
  end.
End Channels.
End MappingDeep1010Names.

(** ** dn3/utils.py: rand_split and unfurl *)

(* round(): to the nearest integer, a tie to the even one *)
Definition py_round (q : Q) : Z :=
  let f := Qfloor q in
  let r := (q - inject_Z f)%Q in
  match Qcompare r (1 # 2) with
  | Lt => f
  | Gt => (f + 1)%Z
  | Eq => if Z.even f then f else (f + 1)%Z
  end.

(* l[a:b] *)
Definition py_slice {A : Type} (l : list A) (a b : Z) : list A :=
  let n := Z.of_nat (length l) in
  let norm := fun i : Z => if (i <? 0)%Z then Z.max 0 (n + i) else Z.min i n in
  firstn (Z.to_nat (norm b) - Z.to_nat (norm a)) (skipn (Z.to_nat (norm a)) l).

(* torch.utils.data.random_split: the subsets are given by their indices;
   [randperm k] is the permutation drawn for k items *)
Fixpoint split_at (indices : list nat) (offset : Z) (lengths : list Z)
  : list (list nat) :=
  match lengths with
  | [] => []
  | len :: rest =>
      py_slice indices offset (offset + len) :: split_at indices (offset + len)%Z rest
  end.

Definition random_split (randperm : Z -> list nat) (n_items : nat)
  (lengths : list Z) : result (list (list nat)) :=
  let total := fold_right Z.add 0%Z lengths in
  if (total =? Z.of_nat n_items)%Z
  then Ok (split_at (randperm total) 0 lengths)
  else Raise ValueError.

(* what rand_split returns: the dataset itself, or the subsets *)
Inductive split (A : Type) : Type :=
| Whole (dataset : list A)
| Parts (subsets : list (list nat)).

Arguments Whole {A} dataset.
Arguments Parts {A} subsets.

(* the products are the exact ones; the doubles of the code agree with
   them when frac is a binary fraction with few bits, such as 0.5 or 0.75 *)
Definition rand_split {A : Type} (randperm : Z -> list nat) (dataset : list A)
  (frac : Q) : result (split A) :=
  if Qle_bool 1 frac then Ok (Whole dataset)
  else
    let samples := inject_Z (Z.of_nat (length dataset)) in
    parts <- random_split randperm (length dataset)
               [py_round (samples * frac)%Q; py_round (samples * (1 - frac))%Q] ;;
    Ok (Parts parts).

(* an element of the set: iterable or not *)
Inductive member (A : Type) : Type :=
| Single (a : A)
| Iterable (items : list A).

Arguments Single {A} a.
Arguments Iterable {A} items.

(* [_list] is list(_set), in the order the set is iterated *)
Definition unfurl {A : Type} (_list : list (member A)) : list A :=
  let wrapped := map (fun e => match e with
                               | Single a => [a]
                               | Iterable items => items
                               end) _list in
  concat wrapped.

(** ** Further predicates of the statements *)

(* a finite value of [0, 1] *)
Definition in_unit (v : fval) : Prop := exists q, v = Fin q /\ (0 <= q <= 1)%Q.


(* the draws of torch.rand lie in [0, 1) *)
Definition unit_source (src : nat -> Q) : Prop := forall i, (0 <= src i < 1)%Q.

(* the exact sum of rationals *)
Fixpoint Qsum (qs : list Q) : Q :=
  match qs with
  | [] => 0%Q
  | q :: qs' => (q + Qsum qs')%Q
  end.


(* row [j] of a tensor *)
Definition row (x : tensor) (j : nat) : list fval := nth j (blocks_of x) [].


(* every entry of the [n; m] matrix is 0 or 1 *)
Definition binary (mat : tensor) (n m : nat) : Prop :=
  forall i j, i < n -> j < m ->
    exists q, entry mat m i j = Fin q /\ (q == 0 \/ q == 1)%Q.

(** ** Further inputs and predicates of the revised statements *)

(* a finite value of [-1, 1] *)
Definition in_scale_range (v : fval) : Prop := exists q, v = Fin q /\ (-1 <= q <= 1)%Q.

(* a constant trial, as a constant dataset gives it *)
Definition trial34_const : tensor := mkTensor [3; 4] (repeat (Fin 5) 12).

(* a trial with one NaN sample *)
Definition trial34_nan : tensor :=
  mkTensor [3; 4]
    (NaN :: map (fun z => Fin (inject_Z z)) [2; 3; 4; 5; 6; 7; 8; 0; 10; 20; 30]%Z).

(* the largest finite float32: (2^24 - 1) * 2^104 *)
Definition float32_max : Q := inject_Z ((2 ^ 24 - 1) * 2 ^ 104).

(* two rows of ten distinct samples *)
Definition ramp210 : tensor :=
  mkTensor [2; 10] (map (fun i => Fin (inject_Z (Z.of_nat i))) (seq 0 20)).


(** * Theorems *)

(** ** The transforms on small inputs *)

Example min_max_normalize_22 :
  min_max_normalize (mkTensor [2; 2] [Fin 1; Fin 3; Fin 5; Fin 9])
  = Ok (Some (mkTensor [2; 2] [Fin 0; Fin (1 # 4); Fin (1 # 2); Fin 1])).
Proof. reflexivity. Qed.

Example min_max_normalize_122 :
  min_max_normalize (mkTensor [1; 2; 2] [Fin 1; Fin 3; Fin 5; Fin 9])
  = Ok (Some (mkTensor [1; 2; 2] [Fin 0; Fin 1; Fin 0; Fin 1])).
Proof. reflexivity. Qed.

(* four samples: the list given to pad has four entries and is accepted *)
Example TemporalPadding_24 :
  TemporalPadding.call (TemporalPadding.init 3 2 "constant" (Fin 7))
    (mkTensor [1; 4] [Fin 1; Fin 2; Fin 3; Fin 4])
  = Ok (mkTensor [1; 9]
          [Fin 7; Fin 7; Fin 7; Fin 1; Fin 2; Fin 3; Fin 4; Fin 7; Fin 7]).
Proof. reflexivity. Qed.

Example TemporalInterpolation_up :
  TemporalInterpolation.call (TemporalInterpolation.init 6 "nearest" None)
    (mkTensor [1; 3] [Fin 1; Fin 2; Fin 3])
  = Ok (mkTensor [1; 6] [Fin 1; Fin 1; Fin 2; Fin 2; Fin 3; Fin 3]).
Proof. reflexivity. Qed.

Example CropAndResample_run :
  CropAndResample.call (CropAndResample.init 2 1 (Some 1%Q) "nearest" None) 3
    zs_third (mkTensor [1; 4] [Fin 1; Fin 2; Fin 3; Fin 4])
  = Some (Ok (mkTensor [1; 2] [Fin 1; Fin 2])).
Proof. reflexivity. Qed.

Example MappingDeep1010_run :
  MappingDeep1010.call 6 [0; 1; 2] [3] [4] [5]
    (MappingDeep1010.init map37
       (Some (mkInfo (Some (Fin 100)) (Some (Fin (-100))))) true false) trial34
  = Ok (Plain (mkTensor [7; 4]
          [Fin (1 # 8); Fin (1 # 4); Fin (3 # 8); Fin (1 # 2);
           Fin (5 # 8); Fin (3 # 4); Fin (7 # 8); Fin 1;
           Fin 0; Fin 0; Fin 0; Fin 0;
           Fin 0; Fin (1 # 3); Fin (2 # 3); Fin 1;
           Fin 0; Fin 0; Fin 0; Fin 0;
           Fin 0; Fin 0; Fin 0; Fin 0;
           Fin (-7 # 10); Fin (-7 # 10); Fin (-7 # 10); Fin (-7 # 10)])).
Proof. vm_compute. reflexivity. Qed.

Example NoisyBlank_keeps_list :
  NoisyBlankDeep1010.call (NoisyBlankDeep1010.init 1 false) (fun _ => (1 # 4)%Q) 0
    [VTensor (mkTensor [2; 2] [Fin 1; Fin 2; Fin 3; Fin 4]); VMask [true; false]]
  = Ok (RList [VTensor (mkTensor [2; 2] [Fin 1; Fin 2; Fin (-1 # 2); Fin (-1 # 2)]);
               VMask [true; false]], 2).
Proof. reflexivity. Qed.


(** ** Values *)

Lemma Qis_zero_true (q : Q) : Qis_zero q = true <-> (q == 0)%Q.
Proof. unfold Qis_zero. apply Qeq_bool_iff. Qed.

Lemma Qred_zero (q : Q) : (q == 0)%Q -> Qred q = 0%Q.
Proof. intros H. change 0%Q with (Qred 0). apply Qred_complete, H. Qed.



Lemma fdiv_zero_zero : fdiv (Fin 0) (Fin 0) = NaN.
Proof. reflexivity. Qed.






Lemma inject_nat_pos (n : nat) : 0 < n -> (0 < inject_Z (Z.of_nat n))%Q.
Proof.
  intros H. change 0%Q with (inject_Z 0). rewrite <- Zlt_Qlt. lia.
Qed.


(** ** FixedScale *)

Lemma py_call_min_max_normalize (x : tensor) :
  py_call min_max_normalize_def [ATensor x] = min_max_normalize x.
Proof. reflexivity. Qed.

(** C3.  FixedScale passes three positional arguments to
    [min_max_normalize], which is defined with one: every call raises
    TypeError, so no tensor rescaled into [low, high] is ever returned.
    The same function called with the tensor alone, as MappingDeep1010
    does, runs its body. *)
Theorem FixedScale_call_raises_TypeError (self : FixedScale.t) (x : tensor) :
  FixedScale.call self x = Raise TypeError
  /\ py_call min_max_normalize_def [ATensor x] = min_max_normalize x
  /\ n_params min_max_normalize_def = 1.
Proof.
  unfold FixedScale.call, py_call. cbn [length min_max_normalize_def n_params Nat.eqb].
  repeat split.
Qed.

(** ** min_max_normalize and ZScore on a constant tensor *)









Section ZScoreConst.
Variable sqrtQ : Q -> Q.
Hypothesis sqrtQ_0 : sqrtQ 0%Q = 0%Q.


End ZScoreConst.




(** ** TemporalPadding *)

Lemma last_dim_rank2 (c s : nat) (dat : list fval) :
  last_dim (mkTensor [c; s] dat) = Ok s.
Proof. reflexivity. Qed.

Lemma pad_length (self : TemporalPadding.t) (s : nat) :
  2 <= s ->
  length ([TemporalPadding.start_padding self; TemporalPadding.end_padding self]
            ++ TemporalPadding.zeros_from_2 s) = s.
Proof.
  intros Hs. unfold TemporalPadding.zeros_from_2.
  rewrite length_app, repeat_length. cbn [length]. lia.
Qed.

(** C4.  On a [C, s] tensor the list handed to torch's pad has s entries
    (two paddings and s - 2 zeros, counted from the number of samples), so
    for s = 3 and every s >= 5 the call is refused: a [C, 10] input with
    start 3 and end 2 yields no [C, 15] tensor. *)
Theorem TemporalPadding_call_refused (self : TemporalPadding.t) (c s : nat)
  (dat : list fval) :
  s = 3 \/ 5 <= s ->
  TemporalPadding.call self (mkTensor [c; s] dat) = Raise AssertionError.
Proof.
  intros Hs. unfold TemporalPadding.call. rewrite last_dim_rank2. cbn [bind].
  unfold torch_pad. rewrite pad_length by lia.
  unfold rank. cbn [shape length].
  destruct (s mod 2 =? 0) eqn:Hm; [|reflexivity].
  apply Nat.eqb_eq in Hm. cbn [negb].
  destruct (s / 2 <=? 2) eqn:Hd; [|reflexivity].
  apply Nat.leb_le in Hd.
  pose proof (Nat.div_mod_eq s 2). lia.
Qed.

Lemma TemporalPadding_call_refused_witness :
  TemporalPadding.call (TemporalPadding.init 3 2 "constant" (Fin 0))
    (mkTensor [2; 10] (repeat (Fin 1) 20)) = Raise AssertionError.
Proof.
  apply (TemporalPadding_call_refused (TemporalPadding.init 3 2 "constant" (Fin 0)) 2 10).
  right. lia.
Defined.

(** ** CropAndResample: the rejection loop *)

Lemma trunc_norm_step (fuel : nat) (mean std md : Q) (zs : nat -> Q) (i : nat) :
  (0 <= std)%Q ->
  CropAndResample.trunc_norm (S fuel) mean std md zs i
  = if CropAndResample.accepted mean std md (zs i)
    then Some (Ok (CropAndResample.draw mean std (zs i)))
    else CropAndResample.trunc_norm fuel mean std md zs (S i).
Proof.
  intros Hstd. cbn [CropAndResample.trunc_norm]. unfold np_random_normal.
  replace (Qle_bool 0 std) with true by (symmetry; apply Qle_bool_iff; exact Hstd).
  unfold CropAndResample.accepted, CropAndResample.draw.
  destruct (Qle_bool _ md); reflexivity.
Qed.

(* while every variate is refused, the loop is still running *)
Lemma trunc_norm_rejecting (fuel : nat) (mean std md : Q) (zs : nat -> Q) (i : nat) :
  (0 <= std)%Q ->
  (forall j, i <= j < i + fuel -> CropAndResample.accepted mean std md (zs j) = false) ->
  CropAndResample.trunc_norm fuel mean std md zs i = None.
Proof.
  intros Hstd. revert i. induction fuel as [|fuel IH]; intros i Hrej; [reflexivity|].
  rewrite trunc_norm_step by exact Hstd.
  rewrite Hrej by lia. apply IH. intros j Hj. apply Hrej. lia.
Qed.

(* the loop leaves with the first variate that passes the test *)
Lemma trunc_norm_first_accepted (fuel : nat) (mean std md : Q) (zs : nat -> Q)
  (i k : nat) :
  (0 <= std)%Q ->
  (forall j, i <= j < i + k -> CropAndResample.accepted mean std md (zs j) = false) ->
  CropAndResample.accepted mean std md (zs (i + k)) = true ->
  k < fuel ->
  CropAndResample.trunc_norm fuel mean std md zs i
  = Some (Ok (CropAndResample.draw mean std (zs (i + k)))).
Proof.
  intros Hstd. revert i fuel. induction k as [|k IH]; intros i fuel Hrej Hacc Hfuel.
  - destruct fuel as [|fuel]; [lia|]. rewrite trunc_norm_step by exact Hstd.
    rewrite Nat.add_0_r in *. rewrite Hacc. reflexivity.
  - destruct fuel as [|fuel]; [lia|]. rewrite trunc_norm_step by exact Hstd.
    rewrite Hrej by lia.
    replace (i + S k) with (S i + k) in * by lia.
    apply IH; [|exact Hacc|lia]. intros j Hj. apply Hrej. lia.
Qed.

(* some variate among the first [fuel] passes: there is a first one *)
Lemma first_accepted (f : nat -> bool) (n : nat) :
  (exists k, k < n /\ f k = true) ->
  exists k, k < n /\ f k = true /\ forall j, j < k -> f j = false.
Proof.
  induction n as [|n IH]; intros (k & Hk & Hf); [lia|].
  destruct (existsb f (seq 0 n)) eqn:E.
  - apply existsb_exists in E. destruct E as (j & Hin & Hj).
    apply in_seq in Hin. destruct IH as (k' & Hk' & Hf' & Hmin).
    { exists j. split; [lia|exact Hj]. }
    exists k'. split; [lia|]. split; assumption.
  - assert (Hall : forall j, j < n -> f j = false).
    { intros j Hj. destruct (f j) eqn:Ej; [|reflexivity].
      assert (existsb f (seq 0 n) = true); [|congruence].
      apply existsb_exists. exists j. split; [apply in_seq; lia|exact Ej]. }
    assert (k = n).
    { destruct (Nat.eq_dec k n); [assumption|]. rewrite Hall in Hf by lia. discriminate. }
    subst k. exists n. split; [lia|]. split; assumption.
Qed.

Lemma trunc_norm_returns (fuel : nat) (mean std md : Q) (zs : nat -> Q) :
  (0 <= std)%Q ->
  (exists k, k < fuel /\ CropAndResample.accepted mean std md (zs k) = true) ->
  exists k, k < fuel
    /\ CropAndResample.accepted mean std md (zs k) = true
    /\ CropAndResample.trunc_norm fuel mean std md zs 0
       = Some (Ok (CropAndResample.draw mean std (zs k))).
Proof.
  intros Hstd Hex.
  destruct (first_accepted (fun k => CropAndResample.accepted mean std md (zs k)) fuel Hex)
    as (k & Hk & Hacc & Hmin).
  exists k. split; [exact Hk|]. split; [exact Hacc|].
  apply (trunc_norm_first_accepted fuel mean std md zs 0 k);
    [exact Hstd| |exact Hacc|exact Hk].
  intros j Hj. apply Hmin. lia.
Qed.

(** C2 (as the code has it).  The loop of [trunc_norm] carries no bound
    and reports no error: it is still running while every variate is
    refused, and it returns the first value within [max_diff] of the mean
    as soon as one is drawn.  The empty window is caught before the loop:
    [__call__] fails its assertion when [max_diff] is not positive. *)
Theorem trunc_norm_returns_first_accepted (mean std md : Q) (zs : nat -> Q)
  (k fuel : nat) :
  (0 <= std)%Q ->
  (forall j, j < k -> CropAndResample.accepted mean std md (zs j) = false) ->
  CropAndResample.accepted mean std md (zs k) = true ->
  (fuel <= k -> CropAndResample.trunc_norm fuel mean std md zs 0 = None)
  /\ (k < fuel ->
      CropAndResample.trunc_norm fuel mean std md zs 0
      = Some (Ok (CropAndResample.draw mean std (zs k)))
      /\ (Qabs (inject_Z (CropAndResample.draw mean std (zs k)) - mean) <= md)%Q)
  /\ (forall (self : CropAndResample.t) (x : tensor) (n : nat),
        last_dim x = Ok n ->
        (CropAndResample.max_diff self n <= 0)%Q ->
        CropAndResample.call self fuel zs x = Some (Raise AssertionError)).
Proof.
  intros Hstd Hrej Hacc. split; [|split].
  - intros Hf. apply trunc_norm_rejecting; [exact Hstd|].
    intros j Hj. apply Hrej. lia.
  - intros Hf. split.
    + apply (trunc_norm_first_accepted fuel mean std md zs 0 k);
        [exact Hstd| |exact Hacc|exact Hf].
      intros j Hj. apply Hrej. lia.
    + apply Qle_bool_iff. exact Hacc.
  - intros self x n Hn Hmd. unfold CropAndResample.call. rewrite Hn.
    replace (Qle_bool (CropAndResample.max_diff self n) 0) with true
      by (symmetry; apply Qle_bool_iff; exact Hmd).
    reflexivity.
Qed.

Lemma trunc_norm_returns_first_accepted_witness :
  (5 <= 2 -> CropAndResample.trunc_norm 5 40 2 5 zs_third 0 = None)
  /\ (2 < 5 ->
      CropAndResample.trunc_norm 5 40 2 5 zs_third 0
      = Some (Ok (CropAndResample.draw 40 2 (zs_third 2)))
      /\ (Qabs (inject_Z (CropAndResample.draw 40 2 (zs_third 2)) - 40) <= 5)%Q)
  /\ (forall (self : CropAndResample.t) (x : tensor) (n : nat),
        last_dim x = Ok n ->
        (CropAndResample.max_diff self n <= 0)%Q ->
        CropAndResample.call self 5 zs_third x = Some (Raise AssertionError)).
Proof.
  apply (trunc_norm_returns_first_accepted 40 2 5 zs_third 2 5).
  - vm_compute. discriminate.
  - intros j Hj. destruct j as [|[|j]]; [reflexivity|reflexivity|lia].
  - reflexivity.
Defined.

Lemma trunc_norm_has_no_bound :
  ~ (exists bound : nat, forall zs : nat -> Q,
        exists r, CropAndResample.trunc_norm bound 40 2 5 zs 0 = Some r).
Proof.
  intros (bound & Hb). destruct (Hb (fun _ => 100%Q)) as (r & Hr).
  rewrite trunc_norm_rejecting in Hr; [discriminate| |].
  - vm_compute. discriminate.
  - intros j _. reflexivity.
Qed.

(** ** Interpolation and the two cropping transforms *)

Lemma slice_dim1_rank2 (c s : nat) (dat : list fval) (k : Z) :
  slice_dim1 (mkTensor [c; s] dat) k
  = Ok (mkTensor [c; slice_stop s k]
          (concat (map (firstn (slice_stop s k * 1)) (chunks c (s * 1) dat)))).
Proof. reflexivity. Qed.

Lemma slice_stop_inside (s : nat) (k : Z) :
  (0 < k <= Z.of_nat s)%Z -> slice_stop s k = Z.to_nat k /\ 0 < slice_stop s k.
Proof.
  intros Hk. unfold slice_stop.
  destruct (k <? 0)%Z eqn:E; [apply Z.ltb_lt in E; lia|].
  rewrite Z.min_l by lia. split; [reflexivity|lia].
Qed.

(* a rank-2 input comes back with the requested number of samples *)
Lemma TemporalInterpolation_call_rank2 (self : TemporalInterpolation.t)
  (c len : nat) (dat : list fval) :
  TemporalInterpolation.mode self = "nearest"%string ->
  (0 < TemporalInterpolation._new_sequence_length self)%Z ->
  0 < c -> 0 < len ->
  exists y, TemporalInterpolation.call self (mkTensor [c; len] dat) = Ok y
    /\ shape y = [c; Z.to_nat (TemporalInterpolation._new_sequence_length self)].
Proof.
  intros Hm Ht Hc Hl. unfold TemporalInterpolation.call, rank.
  cbn [shape length Nat.eqb]. unfold interpolate, unsqueeze0. cbn [shape data].
  rewrite Hm. cbn [String.eqb Ascii.eqb Bool.eqb].
  destruct (TemporalInterpolation._new_sequence_length self <=? 0)%Z eqn:E;
    [apply Z.leb_le in E; lia|].
  destruct c as [|c]; [lia|]. destruct len as [|len]; [lia|].
  cbn [Nat.eqb orb bind]. eexists. split; reflexivity.
Qed.

(* what the accepted value can be *)
Lemma accepted_range (t : Z) (std md z : Q) :
  CropAndResample.accepted (inject_Z t) std md z = true ->
  (inject_Z t - md <= inject_Z (CropAndResample.draw (inject_Z t) std z)
   <= inject_Z t + md)%Q.
Proof.
  unfold CropAndResample.accepted. intros H. apply Qle_bool_iff in H.
  apply Qabs_Qle_condition in H. lra.
Qed.

Lemma max_diff_le (self : CropAndResample.t) (n : nat) :
  (CropAndResample.max_diff self n
   <= inject_Z (Z.of_nat n
                - TemporalInterpolation._new_sequence_length (CropAndResample.super self)))%Q.
Proof.
  unfold CropAndResample.max_diff. destruct (CropAndResample.truncate self).
  - apply Q.le_min_l.
  - lra.
Qed.

(** C1.  CropAndResample returns the target number of samples while its
    [new_sequence_length] answers with the old one: for a [C, s] input
    with s above the target t the result has t samples and the
    prediction is s. *)
Theorem CropAndResample_prediction_differs (t : Z) (stdev : Q)
  (truncate : option Q) (sf : option Q) (c s fuel : nat) (dat : list fval)
  (zs : nat -> Q) :
  0 < c -> (0 < t < Z.of_nat s)%Z -> (0 <= stdev)%Q ->
  (0 < CropAndResample.max_diff
         (CropAndResample.init t stdev truncate "nearest" sf) s < inject_Z t)%Q ->
  (exists k, k < fuel
     /\ CropAndResample.accepted (inject_Z t) stdev
          (CropAndResample.max_diff
             (CropAndResample.init t stdev truncate "nearest" sf) s) (zs k) = true) ->
  exists y,
    CropAndResample.call (CropAndResample.init t stdev truncate "nearest" sf)
      fuel zs (mkTensor [c; s] dat) = Some (Ok y)
    /\ shape y = [c; Z.to_nat t]
    /\ CropAndResample.new_sequence_length
         (CropAndResample.init t stdev truncate "nearest" sf) (Z.of_nat s) = Z.of_nat s
    /\ Z.of_nat s <> t.
Proof.
  intros Hc Ht Hstd Hmd Hex.
  set (self := CropAndResample.init t stdev truncate "nearest" sf) in *.
  destruct (trunc_norm_returns fuel (inject_Z t) stdev
              (CropAndResample.max_diff self s) zs Hstd Hex)
    as (k & Hk & Hacc & Hrun).
  pose proof (accepted_range _ _ _ _ Hacc) as Hr.
  pose proof (max_diff_le self s) as Hle. cbn in Hle.
  set (v := CropAndResample.draw (inject_Z t) stdev (zs k)) in *.
  assert (Hv : (0 < v <= Z.of_nat s)%Z).
  { split.
    - rewrite Zlt_Qlt. change (inject_Z 0) with 0%Q. lra.
    - rewrite Zle_Qle.
      unfold Zminus in Hle. rewrite inject_Z_plus, inject_Z_opp in Hle. lra. }
  destruct (slice_stop_inside s v Hv) as (Hs1 & Hs2).
  unfold CropAndResample.call. rewrite last_dim_rank2.
  replace (Qle_bool (CropAndResample.max_diff self s) 0) with false.
  2:{ symmetry. apply not_true_iff_false. rewrite Qle_bool_iff. lra. }
  change (TemporalInterpolation._new_sequence_length (CropAndResample.super self)) with t.
  change (CropAndResample.stdev self) with stdev.
  rewrite Hrun, slice_dim1_rank2. cbn [bind].
  destruct (TemporalInterpolation_call_rank2 (CropAndResample.super self) c
              (slice_stop s v)
              (concat (map (firstn (slice_stop s v * 1)) (chunks c (s * 1) dat))))
    as (y & Hy & Hsh); [reflexivity|cbn; lia|exact Hc|exact Hs2|].
  exists y. rewrite Hy. split; [reflexivity|]. split; [exact Hsh|].
  split; [reflexivity|lia].
Qed.

Lemma CropAndResample_prediction_differs_witness :
  exists y,
    CropAndResample.call (CropAndResample.init 40 2 (Some 5%Q) "nearest" None)
      1 (fun _ => 0%Q) (mkTensor [2; 100] (repeat (Fin 1) 200)) = Some (Ok y)
    /\ shape y = [2; Z.to_nat 40]
    /\ CropAndResample.new_sequence_length
         (CropAndResample.init 40 2 (Some 5%Q) "nearest" None) (Z.of_nat 100)
       = Z.of_nat 100
    /\ Z.of_nat 100 <> 40%Z.
Proof.
  apply (CropAndResample_prediction_differs 40 2 (Some 5%Q) None 2 100 1
           (repeat (Fin 1) 200) (fun _ => 0%Q)).
  - lia.
  - lia.
  - vm_compute. discriminate.
  - split; vm_compute; reflexivity.
  - exists 0. split; [lia|reflexivity].
Defined.

(** ** CropAndUpSample *)

Lemma crop_len_rank2 (self : CropAndUpSample.t) (u : Z) (c s : nat) (dat : list fval) :
  CropAndUpSample.crop_len self u (mkTensor [c; s] dat)
  = np_random_randint (CropAndUpSample.crop_sequence_min self) (Z.of_nat s) u.
Proof. reflexivity. Qed.

Lemma randint_range (low high u : Z) :
  (low < high)%Z ->
  exists v, np_random_randint low high u = Ok v /\ (low <= v < high)%Z.
Proof.
  intros H. unfold np_random_randint.
  destruct (low <? high)%Z eqn:E; [|apply Z.ltb_ge in E; lia].
  eexists. split; [reflexivity|].
  pose proof (Z.mod_pos_bound u (high - low)). lia.
Qed.

Lemma randint_onto (low high v : Z) :
  (low <= v < high)%Z -> np_random_randint low high (v - low) = Ok v.
Proof.
  intros H. unfold np_random_randint.
  destruct (low <? high)%Z eqn:E; [|apply Z.ltb_ge in E; lia].
  rewrite Z.mod_small by lia. f_equal. lia.
Qed.

(** ** NoisyBlankDeep1010 *)

Lemma set_nth_length {A : Type} (i : nat) (v : A) (l : list A) :
  length (set_nth i v l) = length l.
Proof.
  revert i. induction l as [|a l IH]; intros [|i]; simpl; try reflexivity.
  now rewrite IH.
Qed.

Lemma nth_error_set_nth_other {A : Type} (i k : nat) (v : A) (l : list A) :
  i <> k -> nth_error (set_nth i v l) k = nth_error l k.
Proof.
  revert i k. induction l as [|a l IH]; intros [|i] [|k] H; simpl;
    try reflexivity; try congruence.
  apply IH. congruence.
Qed.

Lemma py_pos_length {A : Type} (xs ys : list A) (i : Z) :
  length xs = length ys -> py_pos xs i = py_pos ys i.
Proof. intros H. unfold py_pos. rewrite H. reflexivity. Qed.

Lemma py_get_inv {A : Type} (xs : list A) (i : Z) (v : A) :
  py_get xs i = Ok v -> exists k, py_pos xs i = Some k /\ nth_error xs k = Some v.
Proof.
  unfold py_get. destruct (py_pos xs i) as [k|]; [|discriminate].
  destruct (nth_error xs k) as [w|] eqn:E; [|discriminate].
  intros H. inversion H; subst. exists k. split; [reflexivity|exact E].
Qed.

(** C10.  With purge_mask, [x] is rebound to what [x.pop(mask_index)]
    returns: the call hands back the mask itself, and neither the noised
    tensor nor any other value of the list. *)
Theorem NoisyBlank_purge_returns_mask (mask_index : Z) (src : nat -> Q)
  (pos : nat) (xs : list pyval) (x0 : tensor) (mask : list bool)
  (d0 d1 : nat) (rest : list nat) :
  1 < length xs ->
  py_get xs 0 = Ok (VTensor x0) ->
  py_get xs mask_index = Ok (VMask mask) ->
  shape x0 = d0 :: d1 :: rest ->
  length mask = d0 ->
  exists pos',
    NoisyBlankDeep1010.call (NoisyBlankDeep1010.init mask_index true) src pos xs
    = Ok (RItem (VMask mask), pos').
Proof.
  intros Hlen H0 Hm Hsh Hmask.
  unfold NoisyBlankDeep1010.call.
  replace (1 <? length xs) with true by (symmetry; apply Nat.ltb_lt; exact Hlen).
  cbn [negb]. rewrite H0. cbn [bind NoisyBlankDeep1010.mask_index].
  rewrite Hm. cbn [bind]. rewrite Hsh.
  replace (length mask =? d0) with true by (symmetry; apply Nat.eqb_eq; exact Hmask).
  cbn [NoisyBlankDeep1010.purge_mask].
  destruct (py_get_inv _ _ _ H0) as (k0 & Hk0 & Hn0).
  destruct (py_get_inv _ _ _ Hm) as (k & Hk & Hn).
  assert (k0 = 0).
  { unfold py_pos in Hk0. destruct xs; [simpl in Hlen; lia|].
    cbn in Hk0. destruct (Pos.of_succ_nat (length xs)); inversion Hk0; reflexivity. }
  subst k0.
  assert (Hk0' : k <> 0) by (intros ->; congruence).
  unfold py_pop.
  rewrite (py_pos_length _ xs) by apply set_nth_length.
  rewrite Hk, nth_error_set_nth_other by congruence.
  rewrite Hn. cbn [bind fst]. eexists. reflexivity.
Qed.

Lemma NoisyBlank_purge_returns_mask_witness :
  exists pos',
    NoisyBlankDeep1010.call (NoisyBlankDeep1010.init 1 true) (fun _ => (1 # 4)%Q) 0
      [VTensor (mkTensor [2; 2] [Fin 1; Fin 2; Fin 3; Fin 4]);
       VMask [true; false]; VOther 7]
    = Ok (RItem (VMask [true; false]), pos').
Proof.
  apply (NoisyBlank_purge_returns_mask 1 (fun _ => (1 # 4)%Q) 0
           [VTensor (mkTensor [2; 2] [Fin 1; Fin 2; Fin 3; Fin 4]);
            VMask [true; false]; VOther 7]
           (mkTensor [2; 2] [Fin 1; Fin 2; Fin 3; Fin 4]) [true; false] 2 2 []).
  - simpl. lia.
  - reflexivity.
  - reflexivity.
  - reflexivity.
  - reflexivity.
Defined.

(** ** AdditiveEogDeep1010 *)

(** C7.  The affected rows are assigned the scaled EOG signal; their old
    content is not added.  With the EOG row (10, 20) at index 3 and every
    draw equal to 1/8, rows 0 and 1 come out as 0.3 * 1/8 * (10, 20)
    whatever they held before, so a row that held (1, 2) does not come
    out as (1, 2) plus the scaled signal. *)
Theorem AdditiveEog_assigns_instead_of_adding (a0 a1 b0 b1 c0 c1 : fval) :
  AdditiveEogDeep1010.call [3] (AdditiveEogDeep1010.init (1 # 2) (3 # 10) 0)
    (fun _ => (1 # 8)%Q) 0 (eog_input a0 a1 b0 b1 c0 c1)
  = Ok (mkTensor [4; 2]
          [Fin (3 # 8); Fin (3 # 4); Fin (3 # 8); Fin (3 # 4); c0; c1; Fin 10; Fin 20],
        6)
  /\ [fadd (Fin 1) (Fin (3 # 8)); fadd (Fin 2) (Fin (3 # 4))]
     <> [Fin (3 # 8); Fin (3 # 4)].
Proof.
  split; [vm_compute; reflexivity|]. vm_compute. discriminate.
Qed.

(** ** Rows of a rank-2 tensor *)

Lemma chunks_length {A : Type} (k n : nat) (l : list A) :
  length (chunks k n l) = k.
Proof. revert l. induction k as [|k IH]; intros l; simpl; [reflexivity|now rewrite IH]. Qed.

Lemma chunks_uniform {A : Type} (k n : nat) (l : list A) :
  length l = k * n -> uniform n (chunks k n l).
Proof.
  revert l. induction k as [|k IH]; intros l Hl; simpl; constructor.
  - rewrite length_firstn. lia.
  - apply IH. rewrite length_skipn. lia.
Qed.

Lemma chunks_concat {A : Type} (n : nat) (bs : list (list A)) :
  uniform n bs -> chunks (length bs) n (concat bs) = bs.
Proof.
  induction 1 as [|b bs Hb Hbs IH]; [reflexivity|].
  cbn [length chunks concat]. subst n.
  rewrite firstn_app, Nat.sub_diag, firstn_all, firstn_O, app_nil_r.
  rewrite skipn_app, Nat.sub_diag, skipn_all, skipn_O. cbn [app].
  now rewrite IH.
Qed.

Lemma concat_uniform_length {A : Type} (n : nat) (bs : list (list A)) :
  uniform n bs -> length (concat bs) = length bs * n.
Proof.
  induction 1 as [|b bs Hb Hbs IH]; [reflexivity|].
  cbn [concat length]. rewrite length_app, IH, Hb. lia.
Qed.

Lemma uniform_map {A B : Type} (n : nat) (f : A -> list B) (l : list A) :
  (forall a, In a l -> length (f a) = n) -> uniform n (map f l).
Proof.
  intros H. unfold uniform. rewrite Forall_map. apply Forall_forall. exact H.
Qed.

Lemma uniform_nth {A : Type} (n : nat) (bs : list (list A)) (i : nat) :
  uniform n bs -> i < length bs -> length (nth i bs []) = n.
Proof.
  intros H Hi. unfold uniform in H. rewrite Forall_forall in H.
  apply H, nth_In, Hi.
Qed.

Lemma uniform_set_nth {A : Type} (n i : nat) (b : list A) (bs : list (list A)) :
  uniform n bs -> length b = n -> uniform n (set_nth i b bs).
Proof.
  intros H Hb. revert i. induction H as [|a bs Ha Hbs IH]; intros [|i]; simpl;
    try constructor; auto.
  apply IH.
Qed.

Lemma blocks_of_grid (m s : nat) (x : tensor) :
  grid m s x -> blocks_of x = chunks m s (data x).
Proof.
  intros (Hs & _). unfold blocks_of. rewrite Hs. cbn [numel_of fold_right].
  now rewrite Nat.mul_1_r.
Qed.

Lemma blocks_of_grid_shape (m s : nat) (x : tensor) :
  grid m s x -> length (blocks_of x) = m /\ uniform s (blocks_of x).
Proof.
  intros H. rewrite (blocks_of_grid m s x H). destruct H as (_ & Hl).
  split; [apply chunks_length|apply chunks_uniform, Hl].
Qed.

(* a tensor rebuilt from [m] rows of [s] entries *)
Lemma grid_of_blocks (m s : nat) (bs : list (list fval)) :
  length bs = m -> uniform s bs ->
  grid m s (mkTensor [m; s] (concat bs))
  /\ blocks_of (mkTensor [m; s] (concat bs)) = bs.
Proof.
  intros Hm Hu. assert (Hg : grid m s (mkTensor [m; s] (concat bs))).
  { split; [reflexivity|]. cbn [data]. rewrite (concat_uniform_length s) by exact Hu.
    now rewrite Hm. }
  split; [exact Hg|]. rewrite (blocks_of_grid m s _ Hg). cbn [data].
  rewrite <- Hm. apply chunks_concat, Hu.
Qed.

(** ** transpose(1, 0) and the product with the mapping *)

Lemma transpose10_grid (n s : nat) (x : tensor) :
  grid n s x -> exists y, transpose10 x = Ok y /\ grid s n y.
Proof.
  intros (Hs & Hl). unfold transpose10. rewrite Hs. cbn [numel_of fold_right].
  eexists. split; [reflexivity|]. split; [reflexivity|]. cbn [data].
  rewrite (concat_uniform_length n).
  - now rewrite length_map, length_seq.
  - apply uniform_map. intros j Hj. apply in_seq in Hj.
    rewrite (concat_uniform_length 1).
    + rewrite !length_map, chunks_length. lia.
    + apply uniform_map. intros r Hr. apply in_map_iff in Hr.
      destruct Hr as (row & <- & Hrow).
      assert (Hrl : length row = s * 1).
      { pose proof (chunks_uniform n (s * 1) (data x)) as Hu.
        unfold uniform in Hu. rewrite Forall_forall in Hu. apply Hu; [lia|exact Hrow]. }
      apply (uniform_nth 1).
      * apply chunks_uniform. lia.
      * rewrite chunks_length. lia.
Qed.

Lemma matmul_grid (s n m : nat) (x mat : tensor) :
  grid s n x -> shape mat = [n; m] ->
  exists y, matmul x mat = Ok y /\ grid s m y.
Proof.
  intros (Hs & Hl) Hm. unfold matmul. rewrite Hm, Hs. cbn [rev app].
  rewrite Nat.eqb_refl. eexists. split; [reflexivity|]. split; [reflexivity|].
  cbn [data numel_of fold_right].
  rewrite (concat_uniform_length m).
  - rewrite length_map, chunks_length. lia.
  - apply uniform_map. intros r _. now rewrite length_map, length_seq.
Qed.

(** ** Per-category normalization *)

Lemma index_rows_grid (m s : nat) (x : tensor) (inds : list nat) :
  grid m s x -> Forall (fun i => i < m) inds ->
  exists sub, index_rows x inds = Ok sub /\ grid (length inds) s sub.
Proof.
  intros Hg Hi. destruct (blocks_of_grid_shape m s x Hg) as (Hbl & Hbu).
  destruct Hg as (Hs & Hl). unfold index_rows. rewrite Hs.
  replace (forallb (fun i => i <? m) inds) with true.
  2:{ symmetry. apply forallb_forall. rewrite Forall_forall in Hi.
      intros i Hin. apply Nat.ltb_lt, Hi, Hin. }
  eexists. split; [reflexivity|]. split; [reflexivity|]. cbn [data].
  rewrite (concat_uniform_length s).
  - now rewrite length_map.
  - apply uniform_map. intros i Hin. rewrite Forall_forall in Hi.
    apply uniform_nth; [exact Hbu|]. rewrite Hbl. apply Hi, Hin.
Qed.

Lemma min_max_normalize_grid (k s : nat) (x : tensor) :
  grid k s x -> 0 < k -> 0 < s ->
  exists v, min_max_normalize x = Ok (Some v) /\ grid k s v.
Proof.
  intros (Hs & Hl) Hk Hs0. unfold min_max_normalize, rank. rewrite Hs.
  cbn [length Nat.eqb]. unfold t_min, t_max.
  destruct (data x) as [|e es] eqn:E; [simpl in Hl; nia|].
  cbn [reduce_min reduce_max bind]. eexists. split; [reflexivity|].
  split; [exact Hs|]. unfold t_map. cbn [data]. rewrite length_map, E. exact Hl.
Qed.

Lemma fold_set_nth_uniform (s : nat) (ibs : list (nat * list fval))
  (bs : list (list fval)) :
  uniform s bs -> Forall (fun ib => length (snd ib) = s) ibs ->
  length (fold_left (fun acc ib => set_nth (fst ib) (snd ib) acc) ibs bs) = length bs
  /\ uniform s (fold_left (fun acc ib => set_nth (fst ib) (snd ib) acc) ibs bs).
Proof.
  intros Hu Hi. revert bs Hu. induction Hi as [|ib ibs Hib Hibs IH]; intros bs Hu.
  - split; [reflexivity|exact Hu].
  - cbn [fold_left].
    destruct (IH (set_nth (fst ib) (snd ib) bs)) as (H1 & H2).
    { apply uniform_set_nth; assumption. }
    split; [rewrite H1; apply set_nth_length|exact H2].
Qed.

Lemma assign_rows_grid (m s : nat) (x v : tensor) (inds : list nat) :
  grid m s x -> grid (length inds) s v -> Forall (fun i => i < m) inds ->
  exists y, assign_rows x inds v = Ok y /\ grid m s y.
Proof.
  intros Hg Hv Hi. destruct (blocks_of_grid_shape m s x Hg) as (Hbl & Hbu).
  destruct (blocks_of_grid_shape _ s v Hv) as (Hvl & Hvu).
  destruct Hg as (Hs & Hl). destruct Hv as (Hvs & Hvd).
  unfold assign_rows. rewrite Hs.
  replace (forallb (fun i => i <? m) inds) with true.
  2:{ symmetry. apply forallb_forall. rewrite Forall_forall in Hi.
      intros i Hin. apply Nat.ltb_lt, Hi, Hin. }
  cbn [negb]. destruct (list_eq_dec Nat.eq_dec (shape v) [length inds; s]) as [_|Hne];
    [|contradiction].
  eexists. split; [reflexivity|].
  destruct (fold_set_nth_uniform s (combine inds (blocks_of v)) (blocks_of x) Hbu)
    as (H1 & H2).
  { apply Forall_forall. intros (i, b) Hin. apply in_combine_r in Hin. cbn [snd].
    unfold uniform in Hvu. rewrite Forall_forall in Hvu. apply Hvu, Hin. }
  split; [reflexivity|]. cbn [data].
  rewrite (concat_uniform_length s) by exact H2. rewrite H1, Hbl. reflexivity.
Qed.

Lemma normalize_category_grid (m s : nat) (x : tensor) (inds : list nat) :
  grid m s x -> 0 < s -> inds <> [] -> Forall (fun i => i < m) inds ->
  exists y, MappingDeep1010.normalize_category x inds = Ok y /\ grid m s y.
Proof.
  intros Hg Hs Hne Hi. unfold MappingDeep1010.normalize_category.
  destruct (index_rows_grid m s x inds Hg Hi) as (sub & Hsub & Hgs).
  rewrite Hsub. cbn [bind]. rewrite py_call_min_max_normalize.
  destruct (min_max_normalize_grid (length inds) s sub Hgs) as (v & Hv & Hgv);
    [destruct inds; [congruence|simpl; lia]|exact Hs|].
  rewrite Hv. cbn [bind]. apply assign_rows_grid; assumption.
Qed.

Lemma normalize_categories_grid (m s : nat) (cats : list (list nat)) (x : tensor) :
  grid m s x -> 0 < s ->
  Forall (fun inds => inds <> [] /\ Forall (fun i => i < m) inds) cats ->
  exists y, MappingDeep1010.normalize_categories x cats = Ok y /\ grid m s y.
Proof.
  intros Hg Hs Hc. revert x Hg. induction Hc as [|c cats (Hne & Hi) Hcs IH]; intros x Hg.
  - exists x. split; [reflexivity|exact Hg].
  - cbn [MappingDeep1010.normalize_categories].
    destruct (normalize_category_grid m s x c Hg Hs Hne Hi) as (y & Hy & Hgy).
    rewrite Hy. cbn [bind]. apply IH, Hgy.
Qed.

(** ** Filling rows *)

Lemma nth_indexed_map {A B : Type} (g : nat * A -> B) (bs : list A) (j : nat)
  (da : A) (db : B) :
  j < length bs ->
  nth j (map g (combine (seq 0 (length bs)) bs)) db = g (j, nth j bs da).
Proof.
  intros Hj.
  rewrite (nth_indep _ db (g (0, da))).
  2:{ rewrite length_map, length_combine, length_seq. lia. }
  rewrite map_nth, combine_nth by (now rewrite length_seq).
  rewrite seq_nth by exact Hj. reflexivity.
Qed.

Lemma map_const_repeat {A B : Type} (v : B) (l : list A) :
  map (fun _ => v) l = repeat v (length l).
Proof. induction l; simpl; congruence. Qed.

Lemma fill_rows_grid (m s : nat) (x : tensor) (sel : nat -> bool) (v : fval) :
  grid m s x ->
  grid m s (fill_rows x sel v)
  /\ forall j, j < m ->
       nth j (blocks_of (fill_rows x sel v)) []
       = if sel j then repeat v s else nth j (blocks_of x) [].
Proof.
  intros Hg. destruct (blocks_of_grid_shape m s x Hg) as (Hbl & Hbu).
  unfold fill_rows. destruct Hg as (Hs & Hl). rewrite Hs.
  set (g := fun ib : nat * list fval =>
              if sel (fst ib) then map (fun _ => v) (snd ib) else snd ib).
  assert (Hu : uniform s (map g (combine (seq 0 (length (blocks_of x))) (blocks_of x)))).
  { apply uniform_map. intros (i, b) Hin. apply in_combine_r in Hin.
    unfold uniform in Hbu. rewrite Forall_forall in Hbu. unfold g. cbn [fst snd].
    destruct (sel i); [rewrite length_map|]; apply Hbu, Hin. }
  assert (Hlen : length (map g (combine (seq 0 (length (blocks_of x))) (blocks_of x))) = m).
  { rewrite length_map, length_combine, length_seq. lia. }
  destruct (grid_of_blocks m s _ Hlen Hu) as (Hg' & Hb').
  split; [exact Hg'|]. intros j Hj. rewrite Hb'.
  rewrite (nth_indexed_map g (blocks_of x) j []) by lia.
  unfold g. cbn [fst snd]. destruct (sel j); [|reflexivity].
  rewrite map_const_repeat. f_equal. apply uniform_nth; [exact Hbu|lia].
Qed.

(** ** The mask of used slots *)

Lemma fold_fadd_zero (l : list fval) (a : Q) :
  forallb is_zero l = true -> Qis_zero a = true ->
  exists q, fold_left fadd l (Fin a) = Fin q /\ Qis_zero q = true.
Proof.
  revert a. induction l as [|e l IH]; intros a Hl Ha.
  - exists a. split; [reflexivity|exact Ha].
  - cbn [forallb] in Hl. apply andb_prop in Hl. destruct Hl as (He & Hl).
    destruct e as [q| | |]; try discriminate. cbn [fold_left fadd].
    apply IH; [exact Hl|]. cbn [is_zero] in He.
    apply Qis_zero_true in He, Ha. apply Qis_zero_true.
    rewrite Qred_correct, He, Ha. reflexivity.
Qed.

Lemma nth_map_seq {B : Type} (f : nat -> B) (m j : nat) (d : B) :
  j < m -> nth j (map f (seq 0 m)) d = f j.
Proof.
  intros Hj. rewrite (nth_indep _ d (f 0)) by (now rewrite length_map, length_seq).
  rewrite map_nth, seq_nth by exact Hj. reflexivity.
Qed.

Lemma column_used_mask (mat : tensor) (n m : nat) :
  shape mat = [n; m] ->
  exists mask, column_used mat = Ok mask
    /\ length mask = m
    /\ forall j, j < m -> column_empty mat n m j = true -> nth j mask true = false.
Proof.
  intros Hs. unfold column_used. rewrite Hs. eexists. split; [reflexivity|].
  split; [now rewrite length_map, length_seq|].
  intros j Hj He. rewrite nth_map_seq by exact Hj.
  destruct (fold_fadd_zero (column mat n m j) 0 He eq_refl) as (q & Hq & Hz).
  unfold fsum. rewrite Hq, Hz. reflexivity.
Qed.

(** ** The scale indicator *)

Lemma fold_fmin2_fin (l : list fval) (a : Q) :
  all_fin l = true ->
  exists lo, fold_left fmin2 l (Fin a) = Fin lo /\ (lo <= a)%Q.
Proof.
  revert a. induction l as [|e l IH]; intros a Hl.
  - exists a. split; [reflexivity|lra].
  - cbn [all_fin forallb] in Hl. apply andb_prop in Hl. destruct Hl as (He & Hl).
    destruct e as [q| | |]; try discriminate. cbn [fold_left fmin2 fle].
    destruct (Qle_bool a q) eqn:E.
    + apply IH, Hl.
    + destruct (IH q Hl) as (lo & Hlo & Hle). exists lo. split; [exact Hlo|].
      apply not_true_iff_false in E. rewrite Qle_bool_iff in E. lra.
Qed.

Lemma fold_fmax2_fin (l : list fval) (a : Q) :
  all_fin l = true ->
  exists hi, fold_left fmax2 l (Fin a) = Fin hi /\ (a <= hi)%Q.
Proof.
  revert a. induction l as [|e l IH]; intros a Hl.
  - exists a. split; [reflexivity|lra].
  - cbn [all_fin forallb] in Hl. apply andb_prop in Hl. destruct Hl as (He & Hl).
    destruct e as [q| | |]; try discriminate. cbn [fold_left fmax2 fle].
    destruct (Qle_bool a q) eqn:E.
    + destruct (IH q Hl) as (hi & Hhi & Hle). exists hi. split; [exact Hhi|].
      apply Qle_bool_iff in E. lra.
    + apply IH, Hl.
Qed.

Lemma scale_of_range (self : MappingDeep1010.t) (x : tensor) :
  data x <> [] -> all_fin (data x) = true ->
  MappingDeep1010.max_scale self = None
  \/ (exists q, MappingDeep1010.max_scale self = Some (Fin q) /\ (0 < q)%Q) ->
  exists sc, MappingDeep1010.scale_of self x = Ok (Fin sc) /\ (-1 <= sc <= 1)%Q.
Proof.
  intros Hne Hfin Hms. unfold MappingDeep1010.scale_of.
  destruct Hms as [-> | (ms & -> & Hpos)].
  - exists 0%Q. split; [reflexivity|lra].
  - unfold t_max, t_min. destruct (data x) as [|e es]; [congruence|].
    cbn [all_fin forallb] in Hfin. apply andb_prop in Hfin. destruct Hfin as (He & Hes).
    destruct e as [a| | |]; try discriminate.
    cbn [reduce_max reduce_min bind].
    destruct (fold_fmax2_fin es a Hes) as (hi & -> & Hhi).
    destruct (fold_fmin2_fin es a Hes) as (lo & -> & Hlo).
    cbn [fsub fneg fadd fdiv].
    replace (Qis_zero ms) with false.
    2:{ symmetry. apply not_true_iff_false. rewrite Qis_zero_true. lra. }
    set (r := Qred (Qred (hi + Qred (- lo)) / ms)).
    assert (Hr : (0 <= r)%Q).
    { unfold r. rewrite !Qred_correct. apply Qle_shift_div_l; [exact Hpos|]. lra. }
    unfold clamp_max. cbn [fmin2 fle].
    destruct (Qle_bool r 1) eqn:E; cbn [fsub fneg fadd fmul].
    + apply Qle_bool_iff in E. eexists. split; [reflexivity|].
      rewrite !Qred_correct. lra.
    + eexists. split; [reflexivity|]. rewrite !Qred_correct. lra.
Qed.

(** ** MappingDeep1010 *)

Section MappingDeep1010Facts.
Variable SCALE_IND : nat.
Variables EEG_INDS EOG_INDS REF_INDS EXTRA_INDS : list nat.

(** C6.  For a mapping of n source channels onto m canonical slots and a
    finite [n, s] input: the call returns an [m, s] tensor in which every
    slot other than the scale indicator that no source channel maps to is
    a row of zeros, and the scale indicator row holds one value of
    [-1, 1]. *)
Theorem MappingDeep1010_unused_rows_zero (self : MappingDeep1010.t) (x : tensor)
  (n m s : nat) :
  shape (MappingDeep1010.mapping self) = [n; m] ->
  grid n s x -> 0 < n -> 0 < s ->
  all_fin (data x) = true ->
  MappingDeep1010.max_scale self = None
  \/ (exists q, MappingDeep1010.max_scale self = Some (Fin q) /\ (0 < q)%Q) ->
  Forall (fun inds => inds <> [] /\ Forall (fun i => i < m) inds)
    [EEG_INDS; EOG_INDS; REF_INDS; EXTRA_INDS] ->
  SCALE_IND < m ->
  exists r scale,
    MappingDeep1010.call SCALE_IND EEG_INDS EOG_INDS REF_INDS EXTRA_INDS self x = Ok r
    /\ grid m s (mapped_tensor r)
    /\ (forall j, j < m -> j <> SCALE_IND ->
          column_empty (MappingDeep1010.mapping self) n m j = true ->
          nth j (blocks_of (mapped_tensor r)) [] = repeat (Fin 0) s)
    /\ nth SCALE_IND (blocks_of (mapped_tensor r)) [] = repeat (Fin scale) s
    /\ (-1 <= scale <= 1)%Q.
Proof.
  intros Hmap Hg Hn Hs Hfin Hms Hcats Hsc.
  assert (Hne : data x <> []).
  { destruct Hg as (_ & Hl). destruct (data x); [simpl in Hl; nia|discriminate]. }
  destruct (scale_of_range self x Hne Hfin Hms) as (sc & Hscale & Hrange).
  destruct (transpose10_grid n s x Hg) as (xt & Hxt & Hgt).
  destruct (matmul_grid s n m xt _ Hgt Hmap) as (xm & Hxm & Hgm).
  destruct (transpose10_grid s m xm Hgm) as (x1 & Hx1 & Hg1).
  destruct (normalize_categories_grid m s _ x1 Hg1 Hs Hcats) as (x2 & Hx2 & Hg2).
  destruct (column_used_mask _ n m Hmap) as (mask & Hmask & Hml & Hunused).
  destruct (fill_rows_grid m s x2 (fun i => negb (nth i mask true)) (Fin 0) Hg2)
    as (Hg3 & Hrows3).
  destruct (fill_rows_grid m s _ (fun j => j =? SCALE_IND) (Fin sc) Hg3)
    as (Hg4 & Hrows4).
  set (x4 := fill_rows (fill_rows x2 (fun i => negb (nth i mask true)) (Fin 0))
               (fun j => j =? SCALE_IND) (Fin sc)) in *.
  assert (Hcall : MappingDeep1010.call SCALE_IND EEG_INDS EOG_INDS REF_INDS EXTRA_INDS self x
                  = Ok (if MappingDeep1010.return_mask self
                        then WithMask x4 mask else Plain x4)).
  { unfold MappingDeep1010.call. rewrite Hscale. cbn [bind].
    rewrite Hxt. cbn [bind]. rewrite Hxm. cbn [bind]. rewrite Hx1. cbn [bind].
    rewrite Hx2. cbn [bind]. rewrite Hmask. cbn [bind].
    unfold assign_unmasked. rewrite (proj1 Hg2), Hml, Nat.eqb_refl. cbn [bind].
    unfold assign_row_scalar. rewrite (proj1 Hg3).
    replace (SCALE_IND <? m) with true by (symmetry; apply Nat.ltb_lt; exact Hsc).
    cbn [bind]. destruct (MappingDeep1010.return_mask self); reflexivity. }
  exists (if MappingDeep1010.return_mask self then WithMask x4 mask else Plain x4), sc.
  split; [exact Hcall|].
  assert (Hmt : mapped_tensor (if MappingDeep1010.return_mask self
                               then WithMask x4 mask else Plain x4) = x4).
  { destruct (MappingDeep1010.return_mask self); reflexivity. }
  rewrite Hmt. split; [exact Hg4|]. split; [|split].
  - intros j Hj Hjs Hempty. rewrite Hrows4 by exact Hj.
    replace (j =? SCALE_IND) with false by (symmetry; apply Nat.eqb_neq; exact Hjs).
    rewrite Hrows3 by exact Hj. rewrite (Hunused j Hj Hempty). reflexivity.
  - rewrite Hrows4 by exact Hsc. rewrite Nat.eqb_refl. reflexivity.
  - exact Hrange.
Qed.

(** ** Tensors of another rank *)

Lemma transpose10_rank (x y : tensor) : transpose10 x = Ok y -> rank y = rank x.
Proof.
  unfold transpose10, rank. destruct (shape x) as [|d0 [|d1 rest]]; try discriminate.
  intros H. inversion H. reflexivity.
Qed.

Lemma matmul_rank (x mat y : tensor) : matmul x mat = Ok y -> rank y = rank x.
Proof.
  unfold matmul, rank.
  destruct (shape mat) as [|n [|m [|? ?]]];
    destruct (rev (shape x)) as [|k lead] eqn:E; try discriminate.
  destruct (k =? n); [|discriminate]. intros H. inversion H. cbn [shape].
  rewrite <- (length_rev (shape x)), E, length_app, length_rev. cbn [length]. lia.
Qed.

Lemma normalize_category_other_rank (x : tensor) (inds : list nat) :
  rank x <> 2 -> rank x <> 3 -> raises (MappingDeep1010.normalize_category x inds).
Proof.
  intros H2 H3. unfold MappingDeep1010.normalize_category, index_rows.
  unfold rank in H2, H3.
  destruct (shape x) as [|d0 [|d1 rest]] eqn:E; [eexists; reflexivity..|].
  destruct (forallb (fun i => i <? d0) inds); [|eexists; reflexivity].
  cbn [bind]. rewrite py_call_min_max_normalize.
  unfold min_max_normalize, rank. cbn [shape length] in *.
  destruct rest as [|d2 [|d3 rest]];
    [exfalso; apply H2; reflexivity|exfalso; apply H3; reflexivity|].
  eexists; reflexivity.
Qed.

Lemma raises_bind {A B : Type} (r : result A) (k : A -> result B) :
  (forall a, r = Ok a -> raises (k a)) -> raises (bind r k).
Proof.
  intros H. destruct r as [a|e]; [apply H; reflexivity|eexists; reflexivity].
Qed.

Lemma call_other_rank (self : MappingDeep1010.t) (x : tensor) :
  rank x <> 2 -> rank x <> 3 ->
  raises (MappingDeep1010.call SCALE_IND EEG_INDS EOG_INDS REF_INDS EXTRA_INDS self x).
Proof.
  intros H2 H3. unfold MappingDeep1010.call.
  apply raises_bind; intros sc _.
  apply raises_bind; intros xt Hxt. apply transpose10_rank in Hxt.
  apply raises_bind; intros xm Hxm. apply matmul_rank in Hxm.
  apply raises_bind; intros x1 Hx1. apply transpose10_rank in Hx1.
  cbn [MappingDeep1010.normalize_categories].
  apply raises_bind; intros x2 Hx2. exfalso.
  destruct (normalize_category_other_rank x1 EEG_INDS) as (e & He); [lia|lia|].
  rewrite He in Hx2. discriminate.
Qed.

(** C9.  A tensor whose rank is neither 2 nor 3 falls through both
    branches of [min_max_normalize], which then returns None.  No caller
    gets a tensor out of it: FixedScale raises, the per-category
    assignment inside MappingDeep1010 raises, and so does the whole
    MappingDeep1010 call. *)
Theorem min_max_normalize_other_rank (x : tensor) :
  rank x <> 2 -> rank x <> 3 ->
  min_max_normalize x = Ok None
  /\ (forall fs, raises (FixedScale.call fs x))
  /\ (forall inds, raises (MappingDeep1010.normalize_category x inds))
  /\ (forall self,
        raises (MappingDeep1010.call SCALE_IND EEG_INDS EOG_INDS REF_INDS EXTRA_INDS
                  self x)).
Proof.
  intros H2 H3. split; [|split; [|split]].
  - unfold min_max_normalize.
    destruct (rank x =? 2) eqn:E2; [apply Nat.eqb_eq in E2; contradiction|].
    destruct (rank x =? 3) eqn:E3; [apply Nat.eqb_eq in E3; contradiction|].
    reflexivity.
  - intros fs. exists TypeError. reflexivity.
  - intros inds. apply normalize_category_other_rank; assumption.
  - intros self. apply call_other_rank; assumption.
Qed.
End MappingDeep1010Facts.

Lemma MappingDeep1010_unused_rows_zero_witness :
  exists r scale,
    MappingDeep1010.call 6 [0; 1; 2] [3] [4] [5]
      (MappingDeep1010.init map37
         (Some (mkInfo (Some (Fin 100)) (Some (Fin (-100))))) true true) trial34 = Ok r
    /\ grid 7 4 (mapped_tensor r)
    /\ (forall j, j < 7 -> j <> 6 ->
          column_empty map37 3 7 j = true ->
          nth j (blocks_of (mapped_tensor r)) [] = repeat (Fin 0) 4)
    /\ nth 6 (blocks_of (mapped_tensor r)) [] = repeat (Fin scale) 4
    /\ (-1 <= scale <= 1)%Q.
Proof.
  apply (MappingDeep1010_unused_rows_zero 6 [0; 1; 2] [3] [4] [5]
           (MappingDeep1010.init map37
              (Some (mkInfo (Some (Fin 100)) (Some (Fin (-100))))) true true)
           trial34 3 7 4).
  - reflexivity.
  - split; reflexivity.
  - lia.
  - lia.
  - reflexivity.
  - right. exists 200%Q. split; reflexivity.
  - repeat constructor; try discriminate; lia.
  - lia.
Defined.

(* the scale row for a constant dataset, for data_max below data_min and
   for a trial with a NaN sample; a trial without samples or channels *)
Lemma MappingDeep1010_scale_outside_range :
  (exists r,
      MappingDeep1010.call 6 [0; 1; 2] [3] [4] [5]
        (MappingDeep1010.init map37 (Some (mkInfo (Some (Fin 5)) (Some (Fin 5))))
           true false) trial34_const = Ok r
      /\ row (mapped_tensor r) 6 = repeat NaN 4
      /\ ~ Forall in_scale_range (row (mapped_tensor r) 6))
  /\ (exists r,
      MappingDeep1010.call 6 [0; 1; 2] [3] [4] [5]
        (MappingDeep1010.init map37 (Some (mkInfo (Some (Fin 0)) (Some (Fin 10))))
           true false) trial34 = Ok r
      /\ row (mapped_tensor r) 6 = repeat (Fin (-7)) 4
      /\ ~ Forall in_scale_range (row (mapped_tensor r) 6))
  /\ (exists r,
      MappingDeep1010.call 6 [0; 1; 2] [3] [4] [5]
        (MappingDeep1010.init map37 (Some (mkInfo (Some (Fin 100)) (Some (Fin (-100)))))
           true false) trial34_nan = Ok r
      /\ row (mapped_tensor r) 6 = repeat NaN 4
      /\ ~ Forall in_scale_range (row (mapped_tensor r) 6))
  /\ MappingDeep1010.call 6 [0; 1; 2] [3] [4] [5]
       (MappingDeep1010.init map37 (Some (mkInfo (Some (Fin 100)) (Some (Fin (-100)))))
          true false) (mkTensor [3; 0] []) = Raise RuntimeError
  /\ MappingDeep1010.call 6 [0; 1; 2] [3] [4] [5]
       (MappingDeep1010.init map37 None true false) (mkTensor [3; 0] [])
     = Raise RuntimeError
  /\ MappingDeep1010.call 6 [0; 1; 2] [3] [4] [5]
       (MappingDeep1010.init (mkTensor [0; 7] [])
          (Some (mkInfo (Some (Fin 100)) (Some (Fin (-100))))) true false)
       (mkTensor [0; 4] [])
     = Raise RuntimeError.
Proof.
  split; [|split; [|split; [|split; [|split]; reflexivity]]].
  - eexists. split; [vm_compute; reflexivity|]. split; [reflexivity|].
    intros H. inversion H as [|v l (q & Hq & _) _]. discriminate.
  - eexists. split; [vm_compute; reflexivity|]. split; [reflexivity|].
    intros H. inversion H as [|v l (q & Hq & Hr) _]. subst.
    injection Hq as <-. destruct Hr as (Hr & _). vm_compute in Hr. apply Hr. reflexivity.
  - eexists. split; [vm_compute; reflexivity|]. split; [reflexivity|].
    intros H. inversion H as [|v l (q & Hq & _) _]. discriminate.
Qed.

Lemma min_max_normalize_other_rank_witness :
  min_max_normalize trial3 = Ok None
  /\ (forall fs, raises (FixedScale.call fs trial3))
  /\ (forall inds,
        raises (MappingDeep1010.normalize_category
                  trial3 inds))
  /\ (forall self,
        raises (MappingDeep1010.call 6 [0; 1; 2] [3] [4] [5] self
                  trial3)).
Proof.
  apply (min_max_normalize_other_rank 6 [0; 1; 2] [3] [4] [5]
           trial3).
  - discriminate.
  - discriminate.
Defined.

(** * Further properties of the transforms *)

(** ** min_max_normalize on a tensor with a range *)

(* the minimum of finite values is one of them and lies below all of them *)
Lemma fold_fmin2_spec (l : list fval) (a : Q) :
  all_fin l = true ->
  exists lo, fold_left fmin2 l (Fin a) = Fin lo
    /\ In (Fin lo) (Fin a :: l)
    /\ (lo <= a)%Q
    /\ (forall q, In (Fin q) l -> (lo <= q)%Q).
Proof.
  revert a. induction l as [|e l IH]; intros a Hl.
  - exists a. repeat split; [left; reflexivity|lra|intros q []].
  - cbn [all_fin forallb] in Hl. apply andb_prop in Hl. destruct Hl as (He & Hl).
    destruct e as [b| | |]; try discriminate. cbn [fold_left fmin2 fle].
    destruct (Qle_bool a b) eqn:E.
    + apply Qle_bool_iff in E. destruct (IH a Hl) as (lo & H1 & H2 & H3 & H4).
      exists lo. split; [exact H1|]. split; [|split; [exact H3|]].
      * destruct H2 as [H2|H2]; [left; exact H2|right; right; exact H2].
      * intros q [Hq|Hq]; [inversion Hq; subst; lra|apply H4, Hq].
    + apply not_true_iff_false in E. rewrite Qle_bool_iff in E.
      destruct (IH b Hl) as (lo & H1 & H2 & H3 & H4).
      exists lo. split; [exact H1|]. split; [right; exact H2|]. split; [lra|].
      intros q [Hq|Hq]; [inversion Hq; subst; lra|apply H4, Hq].
Qed.

Lemma fold_fmax2_spec (l : list fval) (a : Q) :
  all_fin l = true ->
  exists hi, fold_left fmax2 l (Fin a) = Fin hi
    /\ In (Fin hi) (Fin a :: l)
    /\ (a <= hi)%Q
    /\ (forall q, In (Fin q) l -> (q <= hi)%Q).
Proof.
  revert a. induction l as [|e l IH]; intros a Hl.
  - exists a. repeat split; [left; reflexivity|lra|intros q []].
  - cbn [all_fin forallb] in Hl. apply andb_prop in Hl. destruct Hl as (He & Hl).
    destruct e as [b| | |]; try discriminate. cbn [fold_left fmax2 fle].
    destruct (Qle_bool a b) eqn:E.
    + apply Qle_bool_iff in E. destruct (IH b Hl) as (hi & H1 & H2 & H3 & H4).
      exists hi. split; [exact H1|]. split; [right; exact H2|]. split; [lra|].
      intros q [Hq|Hq]; [inversion Hq; subst; lra|apply H4, Hq].
    + apply not_true_iff_false in E. rewrite Qle_bool_iff in E.
      destruct (IH a Hl) as (hi & H1 & H2 & H3 & H4).
      exists hi. split; [exact H1|]. split; [|split; [exact H3|]].
      * destruct H2 as [H2|H2]; [left; exact H2|right; right; exact H2].
      * intros q [Hq|Hq]; [inversion Hq; subst; lra|apply H4, Hq].
Qed.

Lemma Qred_one (q : Q) : (q == 1)%Q -> Qred q = 1%Q.
Proof. intros H. change 1%Q with (Qred 1). apply Qred_complete, H. Qed.

(* one entry of the normalized tensor *)
Lemma normalize_entry (lo hi q : Q) :
  (lo < hi)%Q -> (lo <= q <= hi)%Q ->
  exists r, fdiv (fsub (Fin q) (Fin lo)) (fsub (Fin hi) (Fin lo)) = Fin r
    /\ (0 <= r <= 1)%Q
    /\ (q == lo -> r = 0)%Q
    /\ (q == hi -> r = 1)%Q.
Proof.
  intros Hlt Hq. cbn [fsub fneg fadd fdiv].
  replace (Qis_zero (Qred (hi + Qred (- lo)))) with false.
  2:{ symmetry. apply not_true_iff_false. rewrite Qis_zero_true, !Qred_correct. lra. }
  eexists. split; [reflexivity|].
  assert (Hd : (0 < hi - lo)%Q) by lra.
  assert (Hv : (Qred (Qred (q + Qred (- lo)) / Qred (hi + Qred (- lo)))
                == (q - lo) / (hi - lo))%Q).
  { rewrite !Qred_correct. reflexivity. }
  split; [|split].
  - rewrite Hv. split.
    + apply Qle_shift_div_l; [exact Hd|lra].
    + apply Qle_shift_div_r; [exact Hd|lra].
  - intros He. apply Qred_zero. rewrite !Qred_correct, He. field. lra.
  - intros He. apply Qred_one. rewrite !Qred_correct, He. field. lra.
Qed.

Lemma Fin_inj (a b : Q) : Fin a = Fin b -> a = b.
Proof. congruence. Qed.

(* the normalized entries keep the order of the entries *)
Lemma normalize_entry_mono (lo hi q q' r r' : Q) :
  (lo < hi)%Q -> (q <= q')%Q ->
  fdiv (fsub (Fin q) (Fin lo)) (fsub (Fin hi) (Fin lo)) = Fin r ->
  fdiv (fsub (Fin q') (Fin lo)) (fsub (Fin hi) (Fin lo)) = Fin r' ->
  (r <= r')%Q.
Proof.
  intros Hlt Hq. cbn [fsub fneg fadd fdiv].
  replace (Qis_zero (Qred (hi + Qred (- lo)))) with false.
  2:{ symmetry. apply not_true_iff_false. rewrite Qis_zero_true, !Qred_correct. lra. }
  intros Hr Hr'. apply Fin_inj in Hr. apply Fin_inj in Hr'.
  rewrite <- Hr, <- Hr', !Qred_correct.
  assert (Hd : (0 < hi - lo)%Q) by lra.
  setoid_replace ((q + - lo) / (hi + - lo))%Q
    with ((q - lo) * / (hi - lo))%Q by reflexivity.
  setoid_replace ((q' + - lo) / (hi + - lo))%Q
    with ((q' - lo) * / (hi - lo))%Q by reflexivity.
  apply Qmult_le_compat_r; [lra|]. apply Qlt_le_weak, Qinv_lt_0_compat, Hd.
Qed.

(** X1.  On a rank-2 tensor of finite values with minimum lo below
    maximum hi, where hi - lo stays within the largest finite float32
    (the subtraction does not overflow), min_max_normalize keeps the
    shape and returns, entry by entry, a value of [0, 1]: 0 where the
    entry is lo, 1 where it is hi, and never a smaller value for a larger
    entry.  Both lo and hi are entries of the tensor.  The function takes
    no bounds, so no other target range is possible. *)
Theorem min_max_normalize_onto_unit_interval (x : tensor) (m s : nat) (lo hi : Q) :
  shape x = [m; s] -> all_fin (data x) = true ->
  t_min x = Ok (Fin lo) -> t_max x = Ok (Fin hi) ->
  (lo < hi)%Q -> (hi - lo <= float32_max)%Q ->
  exists y,
    min_max_normalize x = Ok (Some y)
    /\ shape y = [m; s]
    /\ length (data y) = length (data x)
    /\ In (Fin lo) (data x)
    /\ In (Fin hi) (data x)
    /\ (forall i q, nth_error (data x) i = Some (Fin q) ->
          (lo <= q <= hi)%Q
          /\ exists r, nth_error (data y) i = Some (Fin r)
               /\ (0 <= r <= 1)%Q
               /\ ((q == lo)%Q -> r = 0%Q)
               /\ ((q == hi)%Q -> r = 1%Q))
    /\ (forall i i' q q' r r',
          nth_error (data x) i = Some (Fin q) ->
          nth_error (data x) i' = Some (Fin q') ->
          nth_error (data y) i = Some (Fin r) ->
          nth_error (data y) i' = Some (Fin r') ->
          (q <= q')%Q -> (r <= r')%Q).
Proof.
  intros Hs Hfin Hmin Hmax Hlt _. unfold min_max_normalize, rank, t_map.
  rewrite Hs, Hmin, Hmax. cbn [length Nat.eqb bind].
  unfold t_min, t_max in Hmin, Hmax.
  destruct (data x) as [|e es] eqn:E; [discriminate|].
  cbn [all_fin forallb] in Hfin. apply andb_prop in Hfin. destruct Hfin as (He & Hes).
  destruct e as [a| | |]; try discriminate.
  destruct (fold_fmin2_spec es a Hes) as (lo' & Hlo & Hlin & Hla & Hlall).
  destruct (fold_fmax2_spec es a Hes) as (hi' & Hhi & Hhin & Hha & Hhall).
  cbn [reduce_min reduce_max] in Hmin, Hmax.
  rewrite Hlo in Hmin. rewrite Hhi in Hmax.
  inversion Hmin; subst lo'. inversion Hmax; subst hi'. clear Hmin Hmax.
  assert (Hbounds : forall q, In (Fin q) (Fin a :: es) -> (lo <= q <= hi)%Q).
  { intros q [Hq|Hq]; [inversion Hq; subst; lra|].
    split; [apply Hlall, Hq|apply Hhall, Hq]. }
  eexists. split; [reflexivity|]. cbn [shape data].
  split; [reflexivity|]. split; [apply length_map|].
  split; [exact Hlin|]. split; [exact Hhin|]. split.
  - intros i q Hi. pose proof (Hbounds q (nth_error_In _ _ Hi)) as Hq.
    split; [exact Hq|].
    destruct (normalize_entry lo hi q Hlt Hq) as (r & Hr & Hr01 & Hz & Ho).
    exists r. rewrite nth_error_map, Hi. cbn [option_map]. rewrite Hr.
    split; [reflexivity|]. split; [exact Hr01|]. split; assumption.
  - intros i i' q q' r r' Hi Hi' Hr Hr' Hq.
    rewrite nth_error_map, Hi in Hr. rewrite nth_error_map, Hi' in Hr'.
    cbn [option_map] in Hr, Hr'.
    apply (normalize_entry_mono lo hi q q' r r' Hlt Hq); congruence.
Qed.

Lemma min_max_normalize_onto_unit_interval_witness :
  exists y,
    min_max_normalize (mkTensor [2; 2] [Fin 1; Fin 3; Fin 5; Fin 9]) = Ok (Some y)
    /\ shape y = [2; 2]
    /\ length (data y) = length (data (mkTensor [2; 2] [Fin 1; Fin 3; Fin 5; Fin 9]))
    /\ In (Fin 1) (data (mkTensor [2; 2] [Fin 1; Fin 3; Fin 5; Fin 9]))
    /\ In (Fin 9) (data (mkTensor [2; 2] [Fin 1; Fin 3; Fin 5; Fin 9]))
    /\ (forall i q,
          nth_error (data (mkTensor [2; 2] [Fin 1; Fin 3; Fin 5; Fin 9])) i
          = Some (Fin q) ->
          (1 <= q <= 9)%Q
          /\ exists r, nth_error (data y) i = Some (Fin r)
               /\ (0 <= r <= 1)%Q
               /\ ((q == 1)%Q -> r = 0%Q)
               /\ ((q == 9)%Q -> r = 1%Q))
    /\ (forall i i' q q' r r',
          nth_error (data (mkTensor [2; 2] [Fin 1; Fin 3; Fin 5; Fin 9])) i
          = Some (Fin q) ->
          nth_error (data (mkTensor [2; 2] [Fin 1; Fin 3; Fin 5; Fin 9])) i'
          = Some (Fin q') ->
          nth_error (data y) i = Some (Fin r) ->
          nth_error (data y) i' = Some (Fin r') ->
          (q <= q')%Q -> (r <= r')%Q).
Proof.
  apply (min_max_normalize_onto_unit_interval
           (mkTensor [2; 2] [Fin 1; Fin 3; Fin 5; Fin 9]) 2 2 1 9).
  - reflexivity.
  - reflexivity.
  - reflexivity.
  - reflexivity.
  - reflexivity.
  - apply Qle_bool_iff. reflexivity.
Defined.

(** ** ZScore on a tensor with a deviation *)

Lemma all_fin_map_Fin (l : list fval) :
  all_fin l = true -> exists qs, l = map Fin qs.
Proof.
  induction l as [|e l IH]; intros H; [exists []; reflexivity|].
  cbn [all_fin forallb] in H. apply andb_prop in H. destruct H as (He & Hl).
  destruct e as [q| | |]; try discriminate. destruct (IH Hl) as (qs & ->).
  exists (q :: qs). reflexivity.
Qed.

Lemma fold_fadd_Fin (qs : list Q) (a : Q) :
  exists q, fold_left fadd (map Fin qs) (Fin a) = Fin q /\ (q == a + Qsum qs)%Q.
Proof.
  revert a. induction qs as [|b qs IH]; intros a.
  - exists a. split; [reflexivity|]. cbn [Qsum]. lra.
  - cbn [map fold_left fadd]. destruct (IH (Qred (a + b))) as (q & Hq & Hv).
    exists q. split; [exact Hq|]. rewrite Hv, Qred_correct. cbn [Qsum]. lra.
Qed.

Lemma fsum_Fin (qs : list Q) :
  exists q, fsum (map Fin qs) = Fin q /\ (q == Qsum qs)%Q.
Proof.
  unfold fsum. destruct (fold_fadd_Fin qs 0) as (q & Hq & Hv).
  exists q. split; [exact Hq|]. rewrite Hv. lra.
Qed.

Lemma Qsum_centered (qs : list Q) (m sd : Q) :
  ~ (sd == 0)%Q ->
  (Qsum (map (fun q => Qred (Qred (q + Qred (- m)) / sd)) qs)
   == (Qsum qs - inject_Z (Z.of_nat (length qs)) * m) / sd)%Q.
Proof.
  intros Hsd. induction qs as [|q qs IH].
  - cbn [map Qsum length]. change (inject_Z (Z.of_nat 0)) with 0%Q. field. exact Hsd.
  - cbn [map Qsum length]. rewrite IH, !Qred_correct, Nat2Z.inj_succ, <- Z.add_1_r,
      inject_Z_plus. change (inject_Z 1) with 1%Q. field. exact Hsd.
Qed.

Section ZScoreMean.
Variable sqrtQ : Q -> Q.

(** X2.  For a tensor of finite values whose standard deviation is
    finite and not zero, the output of ZScore has the shape of the
    input and mean zero. *)
Theorem ZScore_output_mean_zero (x : tensor) (sd : Q) :
  data x <> [] -> all_fin (data x) = true ->
  t_std sqrtQ x = Fin sd -> ~ (sd == 0)%Q ->
  shape (ZScore_call sqrtQ x) = shape x
  /\ length (data (ZScore_call sqrtQ x)) = length (data x)
  /\ exists q, t_mean (ZScore_call sqrtQ x) = Fin q /\ (q == 0)%Q.
Proof.
  intros Hne Hfin Hstd Hsd. unfold ZScore_call, t_map. rewrite Hstd.
  cbn [shape data]. split; [reflexivity|]. split; [now rewrite length_map|].
  destruct (all_fin_map_Fin _ Hfin) as (qs & Hqs).
  assert (Hn : 0 < length qs).
  { destruct qs; [exfalso; apply Hne; rewrite Hqs; reflexivity|simpl; lia]. }
  pose proof (inject_nat_pos _ Hn) as Hnp.
  assert (Hmean : exists m, t_mean x = Fin m
                            /\ (m == Qsum qs / inject_Z (Z.of_nat (length qs)))%Q).
  { unfold t_mean. rewrite Hqs, length_map.
    destruct (fsum_Fin qs) as (sq & -> & Hsq). unfold fnat, fdiv.
    replace (Qis_zero (inject_Z (Z.of_nat (length qs)))) with false.
    2:{ symmetry. apply not_true_iff_false. rewrite Qis_zero_true. lra. }
    eexists. split; [reflexivity|]. rewrite Qred_correct, Hsq. reflexivity. }
  destruct Hmean as (m & Hm & Hmv). rewrite Hm, Hqs.
  unfold t_mean. cbn [data]. rewrite !length_map, map_map.
  assert (Hmap : map (fun q => fdiv (fsub (Fin q) (Fin m)) (Fin sd)) qs
                 = map Fin (map (fun q => Qred (Qred (q + Qred (- m)) / sd)) qs)).
  { rewrite map_map. apply map_ext. intros q. cbn [fsub fneg fadd fdiv].
    replace (Qis_zero sd) with false; [reflexivity|].
    symmetry. apply not_true_iff_false. rewrite Qis_zero_true. exact Hsd. }
  rewrite Hmap.
  destruct (fsum_Fin (map (fun q => Qred (Qred (q + Qred (- m)) / sd)) qs))
    as (s' & -> & Hs').
  unfold fnat, fdiv.
  replace (Qis_zero (inject_Z (Z.of_nat (length qs)))) with false.
  2:{ symmetry. apply not_true_iff_false. rewrite Qis_zero_true. lra. }
  eexists. split; [reflexivity|].
  rewrite Qred_correct, Hs', (Qsum_centered qs m sd Hsd), Hmv. field.
  split; [lra|exact Hsd].
Qed.
End ZScoreMean.

Lemma ZScore_output_mean_zero_witness :
  shape (ZScore_call Qsqrt_approx (mkTensor [1; 2] [Fin 1; Fin 3]))
  = shape (mkTensor [1; 2] [Fin 1; Fin 3])
  /\ length (data (ZScore_call Qsqrt_approx (mkTensor [1; 2] [Fin 1; Fin 3])))
     = length (data (mkTensor [1; 2] [Fin 1; Fin 3]))
  /\ exists q, t_mean (ZScore_call Qsqrt_approx (mkTensor [1; 2] [Fin 1; Fin 3])) = Fin q
               /\ (q == 0)%Q.
Proof.
  apply (ZScore_output_mean_zero Qsqrt_approx (mkTensor [1; 2] [Fin 1; Fin 3]) 1%Q).
  - discriminate.
  - reflexivity.
  - reflexivity.
  - intros H. vm_compute in H. discriminate.
Defined.

(** ** TemporalPadding where the pad list is accepted *)

Lemma concat_chunks {A : Type} (k n : nat) (l : list A) :
  length l = k * n -> concat (chunks k n l) = l.
Proof.
  revert l. induction k as [|k IH]; intros l Hl.
  - destruct l; [reflexivity|simpl in Hl; lia].
  - cbn [chunks concat]. rewrite IH by (rewrite length_skipn; lia).
    apply firstn_skipn.
Qed.

Lemma concat_singletons {A : Type} (l : list A) :
  concat (map (fun a => [a]) l) = l.
Proof. induction l; simpl; congruence. Qed.

Lemma chunks_one {A : Type} (l : list A) :
  chunks (length l) 1 l = map (fun a => [a]) l.
Proof. induction l as [|a l IH]; [reflexivity|]. simpl. now rewrite IH. Qed.

Lemma concat_repeat_single {A : Type} (v : A) (n : nat) :
  concat (repeat [v] n) = repeat v n.
Proof. induction n; simpl; congruence. Qed.

(* padding the only dimension of a row *)
Lemma pad_data_row (s : nat) (l r : Z) (v : fval) (row : list fval) :
  (0 <= l)%Z -> (0 <= r)%Z -> length row = s ->
  pad_data [s] [(l, r)] v row = repeat v (Z.to_nat l) ++ row ++ repeat v (Z.to_nat r).
Proof.
  intros Hl Hr Hrow. cbn [pad_data numel_of fold_right pad_shape map].
  unfold pad_list.
  destruct (l <? 0)%Z eqn:El; [apply Z.ltb_lt in El; lia|].
  destruct (r <? 0)%Z eqn:Er; [apply Z.ltb_lt in Er; lia|].
  rewrite <- Hrow, chunks_one, map_map.
  change (repeat v 1) with [v].
  rewrite !concat_app, !concat_repeat_single, concat_singletons.
  now rewrite <- app_assoc.
Qed.

Lemma map_ext_uniform {A B : Type} (n : nat) (f g : list A -> B) (bs : list (list A)) :
  uniform n bs -> (forall b, length b = n -> f b = g b) -> map f bs = map g bs.
Proof.
  intros Hu H. induction Hu as [|b bs Hb Hbs IH]; [reflexivity|].
  cbn [map]. rewrite IH, (H b Hb). reflexivity.
Qed.

(** X3.  On a [C, s] tensor with s at most 2 or equal to 4, constant
    mode and non-negative paddings, TemporalPadding returns a
    [C, s + start + end] tensor, the length new_sequence_length
    predicts, in which each row is the fill value start times, the
    original row, and the fill value end times. *)
Theorem TemporalPadding_call_accepted (start_padding end_padding : Z)
  (v : fval) (x : tensor) (c s : nat) :
  grid c s x -> s <= 2 \/ s = 4 ->
  (0 <= start_padding)%Z -> (0 <= end_padding)%Z ->
  exists y,
    TemporalPadding.call
      (TemporalPadding.init start_padding end_padding "constant" v) x = Ok y
    /\ grid c (s + Z.to_nat start_padding + Z.to_nat end_padding) y
    /\ last_dim y
       = Ok (Z.to_nat (TemporalPadding.new_sequence_length
                         (TemporalPadding.init start_padding end_padding "constant" v)
                         (Z.of_nat s)))
    /\ blocks_of y
       = map (fun row => repeat v (Z.to_nat start_padding) ++ row
                         ++ repeat v (Z.to_nat end_padding))
           (blocks_of x).
Proof.
  intros Hg Hs Hl Hr. destruct (blocks_of_grid_shape c s x Hg) as (Hbl & Hbu).
  pose proof (blocks_of_grid c s x Hg) as Hb. destruct Hg as (Hsh & Hlen).
  set (s' := s + Z.to_nat start_padding + Z.to_nat end_padding).
  set (rows := map (fun row => repeat v (Z.to_nat start_padding) ++ row
                               ++ repeat v (Z.to_nat end_padding)) (blocks_of x)).
  assert (Hrl : length rows = c) by (unfold rows; now rewrite length_map).
  assert (Hru : uniform s' rows).
  { unfold rows. apply uniform_map. intros b Hin.
    unfold uniform in Hbu. rewrite Forall_forall in Hbu.
    rewrite !length_app, !repeat_length, (Hbu b Hin). unfold s'. lia. }
  destruct (grid_of_blocks c s' rows Hrl Hru) as (Hgy & Hby).
  assert (Hcall : TemporalPadding.call
                    (TemporalPadding.init start_padding end_padding "constant" v) x
                  = Ok (mkTensor [c; s'] (concat rows))).
  { unfold TemporalPadding.call, last_dim. rewrite Hsh. cbn [rev app bind].
    cbn [TemporalPadding.start_padding TemporalPadding.end_padding
         TemporalPadding.mode TemporalPadding.constant_value].
    unfold torch_pad, rank. rewrite Hsh.
    change (start_padding :: end_padding :: TemporalPadding.zeros_from_2 s)
      with ([start_padding; end_padding] ++ TemporalPadding.zeros_from_2 s).
    change (length [c; s]) with 2.
    assert (Hpads : per_dim_pads 2
                      ([start_padding; end_padding] ++ TemporalPadding.zeros_from_2 s)
                    = [(0%Z, 0%Z); (start_padding, end_padding)]
                    /\ negb (length ([start_padding; end_padding]
                                     ++ TemporalPadding.zeros_from_2 s) mod 2 =? 0) = false
                    /\ negb (length ([start_padding; end_padding]
                                     ++ TemporalPadding.zeros_from_2 s) / 2 <=? 2) = false).
    { destruct Hs as [Hs| ->]; [|repeat split].
      destruct s as [|[|[|s]]]; [repeat split..|lia]. }
    destruct Hpads as (Hp & -> & ->). cbn [length String.eqb Ascii.eqb Bool.eqb].
    rewrite Hp. cbn [pad_shape map forallb].
    replace (0 <=? Z.of_nat c + 0 + 0)%Z with true by (symmetry; apply Z.leb_le; lia).
    replace (0 <=? Z.of_nat s + start_padding + end_padding)%Z with true
      by (symmetry; apply Z.leb_le; lia).
    cbn [andb]. f_equal. f_equal.
    - assert (H1 : Z.to_nat (Z.of_nat c + 0 + 0) = c) by lia.
      assert (H2 : Z.to_nat (Z.of_nat s + start_padding + end_padding) = s')
        by (unfold s'; lia).
      rewrite H1, H2. reflexivity.
    - cbn [pad_data]. unfold pad_list at 1. cbn [Z.ltb Z.compare Z.to_nat repeat app].
      rewrite app_nil_r. f_equal. unfold rows. rewrite Hb.
      cbn [numel_of fold_right]. rewrite Nat.mul_1_r.
      apply (map_ext_uniform s); [apply chunks_uniform, Hlen|].
      intros b Hbs. apply pad_data_row; assumption. }
  exists (mkTensor [c; s'] (concat rows)). split; [exact Hcall|].
  split; [exact Hgy|]. split; [|exact Hby].
  change (last_dim (mkTensor [c; s'] (concat rows))) with (@Ok nat s').
  unfold TemporalPadding.new_sequence_length.
  cbn [TemporalPadding.start_padding TemporalPadding.end_padding].
  replace (Z.to_nat (Z.of_nat s + start_padding + end_padding)) with s'
    by (unfold s'; lia).
  reflexivity.
Qed.

Lemma TemporalPadding_call_accepted_witness :
  exists y,
    TemporalPadding.call (TemporalPadding.init 3 2 "constant" (Fin 7))
      (mkTensor [1; 4] [Fin 1; Fin 2; Fin 3; Fin 4]) = Ok y
    /\ grid 1 (4 + Z.to_nat 3 + Z.to_nat 2) y
    /\ last_dim y
       = Ok (Z.to_nat (TemporalPadding.new_sequence_length
                         (TemporalPadding.init 3 2 "constant" (Fin 7)) (Z.of_nat 4)))
    /\ blocks_of y
       = map (fun row => repeat (Fin 7) (Z.to_nat 3) ++ row ++ repeat (Fin 7) (Z.to_nat 2))
           (blocks_of (mkTensor [1; 4] [Fin 1; Fin 2; Fin 3; Fin 4])).
Proof.
  apply (TemporalPadding_call_accepted 3 2 (Fin 7)
           (mkTensor [1; 4] [Fin 1; Fin 2; Fin 3; Fin 4]) 1 4).
  - split; reflexivity.
  - right. reflexivity.
  - lia.
  - lia.
Defined.

(** ** TemporalInterpolation *)

Lemma map_nth_seq {A : Type} (l : list A) (d : A) :
  map (fun i => nth i l d) (seq 0 (length l)) = l.
Proof.
  induction l as [|a l IH]; [reflexivity|].
  cbn [length seq map nth]. f_equal. rewrite <- seq_shift, map_map. exact IH.
Qed.

Lemma nearest_row_length (row : list fval) (len size : nat) :
  length (nearest_row row len size) = size.
Proof. unfold nearest_row. now rewrite length_map, length_seq. Qed.

(* resampling a row to k times its length and back *)
Lemma nearest_row_round_trip (row : list fval) (k : nat) :
  0 < k ->
  nearest_row (nearest_row row (length row) (k * length row)) (k * length row)
    (length row) = row.
Proof.
  intros Hk. destruct row as [|a row0] eqn:E; [reflexivity|]. rewrite <- E.
  assert (Hlen : 0 < length row) by (rewrite E; simpl; lia).
  clear E a row0. unfold nearest_row at 1.
  transitivity (map (fun i => nth i row NaN) (seq 0 (length row)));
    [|apply map_nth_seq].
  apply map_ext_in. intros j Hj.
  apply in_seq in Hj.
  assert (Hjk : j * (k * length row) / length row = j * k).
  { rewrite Nat.mul_assoc. apply Nat.div_mul. lia. }
  rewrite Hjk, Nat.min_l by nia.
  unfold nearest_row. rewrite nth_map_seq by nia.
  assert (Hq : j * k * length row / (k * length row) = j).
  { rewrite <- Nat.mul_assoc. apply Nat.div_mul. nia. }
  rewrite Hq, Nat.min_l by lia. reflexivity.
Qed.

Lemma nearest_row_same (row : list fval) :
  nearest_row row (length row) (length row) = row.
Proof.
  destruct row as [|a row0] eqn:E; [reflexivity|]. rewrite <- E in *.
  assert (Hlen : 0 < length row) by (rewrite E; simpl; lia).
  unfold nearest_row.
  transitivity (map (fun i => nth i row NaN) (seq 0 (length row)));
    [|apply map_nth_seq].
  apply map_ext_in. intros j Hj. apply in_seq in Hj.
  rewrite Nat.div_mul, Nat.min_l by lia. reflexivity.
Qed.

(* the call on a [c, len] tensor, row by row *)
Lemma TemporalInterpolation_call_rows (t : Z) (sf : option Q) (x : tensor)
  (c len : nat) :
  grid c len x -> 0 < c -> 0 < len -> (0 < t)%Z ->
  TemporalInterpolation.call (TemporalInterpolation.init t "nearest" sf) x
  = Ok (mkTensor [c; Z.to_nat t]
          (concat (map (fun r => nearest_row r len (Z.to_nat t)) (blocks_of x)))).
Proof.
  intros Hg Hc Hl Ht. rewrite (blocks_of_grid c len x Hg). destruct Hg as (Hs & Hd).
  unfold TemporalInterpolation.call, rank. rewrite Hs. cbn [length Nat.eqb].
  unfold interpolate, unsqueeze0. cbn [shape data]. rewrite Hs.
  cbn [TemporalInterpolation.mode TemporalInterpolation._new_sequence_length
       String.eqb Ascii.eqb Bool.eqb].
  destruct (t <=? 0)%Z eqn:E; [apply Z.leb_le in E; lia|].
  destruct c as [|c]; [lia|]. destruct len as [|len]; [lia|].
  cbn [Nat.eqb orb bind]. unfold squeeze0. cbn [shape data].
  rewrite Nat.mul_1_l. reflexivity.
Qed.

(** X4.  Nearest interpolation of a [C, L] tensor to 2^e times its
    length (below 2^24 samples, where torch's single-precision source
    index is the exact one) and back to L returns the tensor itself; the
    intermediate tensor has 2^e * L samples per row, each input sample
    repeated 2^e times. *)
Theorem TemporalInterpolation_round_trip (x : tensor) (c len e : nat)
  (sf sf' : option Q) :
  grid c len x -> 0 < c -> 0 < len ->
  (2 ^ Z.of_nat e * Z.of_nat len < 2 ^ 24)%Z ->
  exists y,
    TemporalInterpolation.call
      (TemporalInterpolation.init (Z.of_nat (2 ^ e * len)) "nearest" sf) x = Ok y
    /\ grid c (2 ^ e * len) y
    /\ (forall j i, j < c -> i < 2 ^ e * len ->
          nth i (row y j) NaN = nth (i / 2 ^ e) (row x j) NaN)
    /\ TemporalInterpolation.call
         (TemporalInterpolation.init (Z.of_nat len) "nearest" sf') y = Ok x.
Proof.
  intros Hg Hc Hl _.
  assert (Hk : 0 < 2 ^ e) by (pose proof (Nat.pow_nonzero 2 e); lia).
  set (k := 2 ^ e) in *.
  destruct (blocks_of_grid_shape c len x Hg) as (Hbl & Hbu).
  rewrite (TemporalInterpolation_call_rows _ sf x c len Hg Hc Hl) by lia.
  rewrite Nat2Z.id.
  set (up := map (fun r => nearest_row r len (k * len)) (blocks_of x)).
  assert (Hul : length up = c) by (unfold up; now rewrite length_map).
  assert (Huu : uniform (k * len) up).
  { unfold up. apply uniform_map. intros b _. apply nearest_row_length. }
  destruct (grid_of_blocks c (k * len) up Hul Huu) as (Hgy & Hby).
  eexists. split; [reflexivity|]. split; [exact Hgy|]. split.
  { intros j i Hj Hi. unfold row. rewrite Hby. unfold up.
    rewrite (nth_indep _ [] (nearest_row [] len (k * len)))
      by (rewrite length_map; lia).
    rewrite (map_nth (fun r => nearest_row r len (k * len))).
    unfold nearest_row. rewrite nth_map_seq by exact Hi.
    assert (Hq : i * len / (k * len) = i / k).
    { rewrite Nat.Div0.div_mul_cancel_r by lia. reflexivity. }
    assert (Hb : i / k < len) by (apply Nat.Div0.div_lt_upper_bound; nia).
    rewrite Hq, Nat.min_l by lia. reflexivity. }
  rewrite (TemporalInterpolation_call_rows _ sf' _ c (k * len) Hgy Hc) by nia.
  rewrite Hby, Nat2Z.id. unfold up. rewrite map_map.
  assert (Hrows : map (fun r => nearest_row (nearest_row r len (k * len)) (k * len) len)
                    (blocks_of x) = blocks_of x).
  { rewrite <- (map_id (blocks_of x)) at 2.
    apply (map_ext_uniform len); [exact Hbu|].
    intros b Hb. subst len. apply nearest_row_round_trip, Hk. }
  rewrite Hrows, (blocks_of_grid c len x Hg).
  destruct Hg as (Hs & Hd). rewrite concat_chunks by exact Hd.
  destruct x as [sh dat]. cbn [shape data] in *. now rewrite Hs.
Qed.

Lemma TemporalInterpolation_round_trip_witness :
  exists y,
    TemporalInterpolation.call
      (TemporalInterpolation.init (Z.of_nat (2 ^ 1 * 3)) "nearest" None)
      (mkTensor [1; 3] [Fin 1; Fin 2; Fin 3]) = Ok y
    /\ grid 1 (2 ^ 1 * 3) y
    /\ (forall j i, j < 1 -> i < 2 ^ 1 * 3 ->
          nth i (row y j) NaN
          = nth (i / 2 ^ 1) (row (mkTensor [1; 3] [Fin 1; Fin 2; Fin 3]) j) NaN)
    /\ TemporalInterpolation.call
         (TemporalInterpolation.init (Z.of_nat 3) "nearest" None) y
       = Ok (mkTensor [1; 3] [Fin 1; Fin 2; Fin 3]).
Proof.
  apply (TemporalInterpolation_round_trip (mkTensor [1; 3] [Fin 1; Fin 2; Fin 3])
           1 3 1 None None).
  - split; reflexivity.
  - lia.
  - lia.
  - reflexivity.
Defined.

(** X5.  With nearest mode and a positive target t, TemporalInterpolation
    returns t samples per row for a [C, L] input and for a batched
    [B, C, L] input alike, whatever L is, which is the length its
    new_sequence_length predicts; the leading dimensions are kept. *)
Theorem TemporalInterpolation_length_as_predicted (t : Z) (sf : option Q)
  (b c len old : nat) (dat : list fval) :
  (0 < t)%Z -> 0 < c -> 0 < len ->
  exists y2 y3,
    TemporalInterpolation.call (TemporalInterpolation.init t "nearest" sf)
      (mkTensor [c; len] dat) = Ok y2
    /\ shape y2 = [c; Z.to_nat t]
    /\ TemporalInterpolation.call (TemporalInterpolation.init t "nearest" sf)
         (mkTensor [b; c; len] dat) = Ok y3
    /\ shape y3 = [b; c; Z.to_nat t]
    /\ Z.of_nat (Z.to_nat t)
       = TemporalInterpolation.new_sequence_length
           (TemporalInterpolation.init t "nearest" sf) (Z.of_nat old).
Proof.
  intros Ht Hc Hl.
  destruct (TemporalInterpolation_call_rank2
              (TemporalInterpolation.init t "nearest" sf) c len dat)
    as (y2 & Hy2 & Hs2); [reflexivity|exact Ht|exact Hc|exact Hl|].
  exists y2. eexists. split; [exact Hy2|]. split; [exact Hs2|].
  unfold TemporalInterpolation.call, rank. cbn [shape length Nat.eqb].
  unfold interpolate. cbn [shape data TemporalInterpolation.mode
                           TemporalInterpolation._new_sequence_length
                           String.eqb Ascii.eqb Bool.eqb].
  destruct (t <=? 0)%Z eqn:E; [apply Z.leb_le in E; lia|].
  destruct c as [|c']; [lia|]. destruct len as [|len']; [lia|].
  cbn [Nat.eqb orb]. split; [reflexivity|]. split; [reflexivity|].
  unfold TemporalInterpolation.new_sequence_length.
  cbn [TemporalInterpolation._new_sequence_length]. lia.
Qed.

Lemma TemporalInterpolation_length_as_predicted_witness :
  exists y2 y3,
    TemporalInterpolation.call (TemporalInterpolation.init 100 "nearest" None)
      (mkTensor [2; 50] (repeat (Fin 1) 100)) = Ok y2
    /\ shape y2 = [2; Z.to_nat 100]
    /\ TemporalInterpolation.call (TemporalInterpolation.init 100 "nearest" None)
         (mkTensor [1; 2; 50] (repeat (Fin 1) 100)) = Ok y3
    /\ shape y3 = [1; 2; Z.to_nat 100]
    /\ Z.of_nat (Z.to_nat 100)
       = TemporalInterpolation.new_sequence_length
           (TemporalInterpolation.init 100 "nearest" None) (Z.of_nat 50).
Proof.
  apply (TemporalInterpolation_length_as_predicted 100 None 1 2 50 50
           (repeat (Fin 1) 100)); lia.
Defined.

(** X6.  TemporalInterpolation accepts only ranks 2 and 3 (any other
    rank is a ValueError, before anything is computed), and a target
    length that is not positive is refused by the interpolation for
    both accepted ranks. *)
Theorem TemporalInterpolation_refusals (self : TemporalInterpolation.t)
  (x : tensor) (b c len : nat) (dat : list fval) :
  (rank x <> 2 -> rank x <> 3 -> TemporalInterpolation.call self x = Raise ValueError)
  /\ (TemporalInterpolation.mode self = "nearest"%string ->
      (TemporalInterpolation._new_sequence_length self <= 0)%Z ->
      TemporalInterpolation.call self (mkTensor [c; len] dat) = Raise RuntimeError
      /\ TemporalInterpolation.call self (mkTensor [b; c; len] dat) = Raise RuntimeError).
Proof.
  split.
  - intros H2 H3. unfold TemporalInterpolation.call.
    destruct (rank x =? 2) eqn:E2; [apply Nat.eqb_eq in E2; contradiction|].
    destruct (rank x =? 3) eqn:E3; [apply Nat.eqb_eq in E3; contradiction|].
    reflexivity.
  - intros Hm Ht. unfold TemporalInterpolation.call, rank, interpolate, unsqueeze0.
    cbn [shape data length Nat.eqb]. rewrite Hm.
    cbn [String.eqb Ascii.eqb Bool.eqb].
    replace (TemporalInterpolation._new_sequence_length self <=? 0)%Z with true
      by (symmetry; apply Z.leb_le; exact Ht).
    split; reflexivity.
Qed.

Lemma TemporalInterpolation_refusals_witness :
  (rank trial3 <> 2 -> rank trial3 <> 3 ->
   TemporalInterpolation.call (TemporalInterpolation.init 0 "nearest" None) trial3
   = Raise ValueError)
  /\ (TemporalInterpolation.mode (TemporalInterpolation.init 0 "nearest" None)
      = "nearest"%string ->
      (TemporalInterpolation._new_sequence_length
         (TemporalInterpolation.init 0 "nearest" None) <= 0)%Z ->
      TemporalInterpolation.call (TemporalInterpolation.init 0 "nearest" None)
        (mkTensor [1; 2] [Fin 1; Fin 2]) = Raise RuntimeError
      /\ TemporalInterpolation.call (TemporalInterpolation.init 0 "nearest" None)
           (mkTensor [1; 1; 2] [Fin 1; Fin 2]) = Raise RuntimeError).
Proof.
  apply (TemporalInterpolation_refusals (TemporalInterpolation.init 0 "nearest" None)
           trial3 1 1 2 [Fin 1; Fin 2]).
Defined.

(** ** The cropping transforms at their limits *)

(** X7.  CropAndUpSample needs a minimum below the number of samples:
    when crop_sequence_min is the input length or more, the draw of the
    crop length is a ValueError and nothing is returned. *)
Theorem CropAndUpSample_minimum_too_large (self : CropAndUpSample.t) (u : Z)
  (x : tensor) (n : nat) :
  last_dim x = Ok n ->
  (Z.of_nat n <= CropAndUpSample.crop_sequence_min self)%Z ->
  CropAndUpSample.call self u x = Raise ValueError.
Proof.
  intros Hn Hmin. unfold CropAndUpSample.call, CropAndUpSample.crop_len.
  rewrite Hn. cbn [bind]. unfold np_random_randint.
  destruct (CropAndUpSample.crop_sequence_min self <? Z.of_nat n)%Z eqn:E;
    [apply Z.ltb_lt in E; lia|reflexivity].
Qed.

Lemma CropAndUpSample_minimum_too_large_witness :
  CropAndUpSample.call (CropAndUpSample.init 10 10) 3
    (mkTensor [2; 10] (repeat (Fin 1) 20)) = Raise ValueError.
Proof.
  apply (CropAndUpSample_minimum_too_large (CropAndUpSample.init 10 10) 3
           (mkTensor [2; 10] (repeat (Fin 1) 20)) 10).
  - reflexivity.
  - simpl. lia.
Defined.

(** X8.  CropAndResample only takes inputs longer than its target: for
    an input with as many samples as the target or fewer the assertion
    fails, before any draw and whatever stdev and truncate are. *)
Theorem CropAndResample_input_not_longer (self : CropAndResample.t)
  (fuel : nat) (zs : nat -> Q) (x : tensor) (n : nat) :
  last_dim x = Ok n ->
  (Z.of_nat n <= TemporalInterpolation._new_sequence_length
                   (CropAndResample.super self))%Z ->
  CropAndResample.call self fuel zs x = Some (Raise AssertionError).
Proof.
  intros Hn Hle. unfold CropAndResample.call. rewrite Hn.
  pose proof (max_diff_le self n) as Hmd.
  replace (Qle_bool (CropAndResample.max_diff self n) 0) with true; [reflexivity|].
  symmetry. apply Qle_bool_iff. eapply Qle_trans; [exact Hmd|].
  change 0%Q with (inject_Z 0). rewrite <- Zle_Qle. lia.
Qed.

Lemma CropAndResample_input_not_longer_witness :
  CropAndResample.call (CropAndResample.init 40 2 (Some 5%Q) "nearest" None) 9
    (fun _ => 0%Q) (mkTensor [2; 40] (repeat (Fin 1) 80))
  = Some (Raise AssertionError).
Proof.
  apply (CropAndResample_input_not_longer
           (CropAndResample.init 40 2 (Some 5%Q) "nearest" None) 9 (fun _ => 0%Q)
           (mkTensor [2; 40] (repeat (Fin 1) 80)) 40).
  - reflexivity.
  - simpl. lia.
Defined.

Lemma py_int_of_integer (q : Q) (t : Z) : (q == inject_Z t)%Q -> py_int q = t.
Proof.
  unfold Qeq, py_int. cbn [inject_Z Qnum Qden]. intros H.
  rewrite Z.mul_1_r in H. rewrite H. apply Z.quot_mul. discriminate.
Qed.

Lemma draw_without_spread (t : Z) (z : Q) :
  CropAndResample.draw (inject_Z t) 0 z = t.
Proof.
  unfold CropAndResample.draw. apply py_int_of_integer.
  rewrite Qred_correct. ring.
Qed.

Lemma accepted_without_spread (t : Z) (md z : Q) :
  (0 < md)%Q -> CropAndResample.accepted (inject_Z t) 0 md z = true.
Proof.
  intros Hmd. unfold CropAndResample.accepted. rewrite draw_without_spread.
  apply Qle_bool_iff. apply Qabs_Qle_condition. lra.
Qed.

(** X9.  With stdev = 0, CropAndResample does not depend on the random
    source: it accepts the first draw, which is the target t itself, and
    returns the first t samples of every row unchanged. *)
Theorem CropAndResample_without_spread (t : Z) (truncate sf : option Q)
  (x : tensor) (c s fuel : nat) (zs : nat -> Q) :
  grid c s x -> 0 < c -> (0 < t < Z.of_nat s)%Z ->
  (0 < CropAndResample.max_diff
         (CropAndResample.init t 0 truncate "nearest" sf) s)%Q ->
  0 < fuel ->
  CropAndResample.call (CropAndResample.init t 0 truncate "nearest" sf) fuel zs x
  = Some (Ok (mkTensor [c; Z.to_nat t]
                (concat (map (firstn (Z.to_nat t)) (blocks_of x))))).
Proof.
  intros Hg Hc Ht Hmd Hfuel. destruct (blocks_of_grid_shape c s x Hg) as (Hbl & Hbu).
  pose proof (blocks_of_grid c s x Hg) as Hb. destruct Hg as (Hsh & Hlen).
  set (self := CropAndResample.init t 0 truncate "nearest" sf) in *.
  unfold CropAndResample.call, last_dim. rewrite Hsh. cbn [rev app].
  replace (Qle_bool (CropAndResample.max_diff self s) 0) with false.
  2:{ symmetry. apply not_true_iff_false. rewrite Qle_bool_iff. lra. }
  change (TemporalInterpolation._new_sequence_length (CropAndResample.super self)) with t.
  change (CropAndResample.stdev self) with 0%Q.
  destruct fuel as [|fuel]; [lia|].
  rewrite trunc_norm_step by lra.
  rewrite accepted_without_spread by exact Hmd. rewrite draw_without_spread.
  unfold slice_dim1. rewrite Hsh. cbn [numel_of fold_right bind].
  destruct (slice_stop_inside s t) as (Hst & _); [lia|]. rewrite Hst, !Nat.mul_1_r.
  rewrite <- Hb.
  set (rows := map (firstn (Z.to_nat t)) (blocks_of x)).
  assert (Hrl : length rows = c) by (unfold rows; now rewrite length_map).
  assert (Hru : uniform (Z.to_nat t) rows).
  { unfold rows. apply uniform_map. intros b Hin.
    unfold uniform in Hbu. rewrite Forall_forall in Hbu.
    rewrite length_firstn, (Hbu b Hin). lia. }
  destruct (grid_of_blocks c (Z.to_nat t) rows Hrl Hru) as (Hgy & Hby).
  change (CropAndResample.super self) with (TemporalInterpolation.init t "nearest" sf).
  rewrite (TemporalInterpolation_call_rows t sf _ c (Z.to_nat t) Hgy Hc) by lia.
  rewrite Hby. do 3 f_equal.
  rewrite <- (map_id rows) at 2. f_equal.
  apply (map_ext_uniform (Z.to_nat t)); [exact Hru|].
  intros b Hbt. rewrite <- Hbt. apply nearest_row_same.
Qed.

Lemma CropAndResample_without_spread_witness :
  CropAndResample.call (CropAndResample.init 2 0 (Some 1%Q) "nearest" None) 1
    (fun _ => 100%Q) (mkTensor [1; 4] [Fin 1; Fin 2; Fin 3; Fin 4])
  = Some (Ok (mkTensor [1; Z.to_nat 2]
                (concat (map (firstn (Z.to_nat 2))
                           (blocks_of (mkTensor [1; 4] [Fin 1; Fin 2; Fin 3; Fin 4])))))).
Proof.
  apply (CropAndResample_without_spread 2 (Some 1%Q) None
           (mkTensor [1; 4] [Fin 1; Fin 2; Fin 3; Fin 4]) 1 4 1 (fun _ => 100%Q)).
  - split; reflexivity.
  - lia.
  - simpl. lia.
  - reflexivity.
  - lia.
Defined.

(** ** CropAndUpSample: the crop and its interpolation *)

Lemma last_dim_grid (c s : nat) (x : tensor) : grid c s x -> last_dim x = Ok s.
Proof. intros (Hs & _). unfold last_dim. now rewrite Hs. Qed.

Lemma slice_stop_le (d : nat) (k : Z) : slice_stop d k <= d.
Proof.
  unfold slice_stop. destruct (k <? 0)%Z eqn:E; [apply Z.ltb_lt in E|]; lia.
Qed.

(* x[:, :k] row by row *)
Lemma slice_dim1_grid (c s : nat) (x : tensor) (k : Z) :
  grid c s x ->
  exists xc, slice_dim1 x k = Ok xc /\ grid c (slice_stop s k) xc
    /\ blocks_of xc = map (firstn (slice_stop s k)) (blocks_of x).
Proof.
  intros Hg. rewrite (blocks_of_grid c s x Hg). destruct Hg as (Hs & Hd).
  unfold slice_dim1. rewrite Hs. cbn [numel_of fold_right].
  rewrite !Nat.mul_1_r.
  set (bs := map (firstn (slice_stop s k)) (chunks c s (data x))).
  assert (Hl : length bs = c) by (unfold bs; now rewrite length_map, chunks_length).
  assert (Hu : uniform (slice_stop s k) bs).
  { unfold bs. apply uniform_map. intros b Hb.
    pose proof (chunks_uniform c s (data x) Hd) as Hcu. unfold uniform in Hcu.
    rewrite Forall_forall in Hcu. rewrite length_firstn, (Hcu b Hb).
    pose proof (slice_stop_le s k). lia. }
  destruct (grid_of_blocks c (slice_stop s k) bs Hl Hu) as (Hgy & Hby).
  eexists. split; [reflexivity|]. split; assumption.
Qed.

(* what torch refuses: no rows, no samples, or a target that is not positive *)
Lemma TemporalInterpolation_call_refused_rows (t : Z) (sf : option Q) (x : tensor)
  (c len : nat) :
  grid c len x -> (0 <? c) && (0 <? t)%Z && (0 <? len) = false ->
  TemporalInterpolation.call (TemporalInterpolation.init t "nearest" sf) x
  = Raise RuntimeError.
Proof.
  intros (Hs & _) E. unfold TemporalInterpolation.call, rank. rewrite Hs.
  cbn [length Nat.eqb]. unfold interpolate, unsqueeze0. cbn [shape data]. rewrite Hs.
  cbn [TemporalInterpolation.mode TemporalInterpolation._new_sequence_length
       String.eqb Ascii.eqb Bool.eqb].
  assert (Hr : (t <=? 0)%Z || (c =? 0) || (len =? 0) = true).
  { destruct (t <=? 0)%Z eqn:E1; [reflexivity|]. apply Z.leb_gt in E1.
    destruct c as [|c]; [reflexivity|]. destruct len as [|len]; [reflexivity|].
    exfalso. apply (proj2 (Z.ltb_lt 0 t)) in E1. rewrite E1 in E.
    cbn in E. discriminate. }
  rewrite Hr. reflexivity.
Qed.

Example CropAndUpSample_on_ramp :
  CropAndUpSample.call (CropAndUpSample.init 10 5) 0 ramp210
  = Ok (mkTensor [2; 10]
          (map (fun z => Fin (inject_Z z))
             [0; 0; 1; 1; 2; 2; 3; 3; 4; 4;
              10; 10; 11; 11; 12; 12; 13; 13; 14; 14]%Z)).
Proof. reflexivity. Qed.

(** C8 (as the code has it).  For a [C, s] tensor with
    crop_sequence_min below s, the crop length v is drawn from
    crop_sequence_min, ..., s - 1: each of these lengths comes from
    exactly one of the s - crop_sequence_min equally likely raw outputs of
    the generator, and s itself from none.  When C, the length given at
    construction and the crop are all positive, the result has C rows of
    that length, and each row reads samples of the first v samples of the
    same input row, in their order and starting with the first (the row
    itself when the two lengths agree); otherwise torch's interpolate
    raises RuntimeError.  With crop_sequence_min at s or above, the draw
    raises ValueError. *)
Theorem CropAndUpSample_crop_range (original_sequence_length crop_sequence_min : Z)
  (c s : nat) (x : tensor) :
  grid c s x ->
  ((Z.of_nat s <= crop_sequence_min)%Z ->
   forall u,
     CropAndUpSample.call
       (CropAndUpSample.init original_sequence_length crop_sequence_min) u x
     = Raise ValueError)
  /\ ((crop_sequence_min < Z.of_nat s)%Z ->
      (forall u, exists v,
          CropAndUpSample.crop_len
            (CropAndUpSample.init original_sequence_length crop_sequence_min) u x
          = Ok v
          /\ (crop_sequence_min <= v < Z.of_nat s)%Z
          /\ if (0 <? c) && (0 <? original_sequence_length)%Z
                && (0 <? slice_stop s v)
             then
               exists y idx,
                 CropAndUpSample.call
                   (CropAndUpSample.init original_sequence_length
                      crop_sequence_min) u x = Ok y
                 /\ grid c (Z.to_nat original_sequence_length) y
                 /\ idx 0 = 0
                 /\ (forall i, idx i < slice_stop s v)
                 /\ (forall i i', i <= i' -> idx i <= idx i')
                 /\ (Z.to_nat original_sequence_length = slice_stop s v ->
                     forall i, i < slice_stop s v -> idx i = i)
                 /\ (forall j, j < c ->
                       row y j
                       = map (fun i => nth (idx i) (row x j) NaN)
                           (seq 0 (Z.to_nat original_sequence_length)))
             else
               CropAndUpSample.call
                 (CropAndUpSample.init original_sequence_length
                    crop_sequence_min) u x = Raise RuntimeError)
      /\ (forall v, (crop_sequence_min <= v < Z.of_nat s)%Z ->
            exists u, (0 <= u < Z.of_nat s - crop_sequence_min)%Z
              /\ CropAndUpSample.crop_len
                   (CropAndUpSample.init original_sequence_length
                      crop_sequence_min) u x = Ok v
              /\ (forall u', (0 <= u' < Z.of_nat s - crop_sequence_min)%Z ->
                    CropAndUpSample.crop_len
                      (CropAndUpSample.init original_sequence_length
                         crop_sequence_min) u' x = Ok v ->
                    u' = u))).
Proof.
  intros Hg.
  assert (Hcl : forall u,
             CropAndUpSample.crop_len
               (CropAndUpSample.init original_sequence_length crop_sequence_min) u x
             = np_random_randint crop_sequence_min (Z.of_nat s) u).
  { intros u. unfold CropAndUpSample.crop_len.
    rewrite (last_dim_grid c s x Hg). reflexivity. }
  split; [|intros Hlt; split].
  - intros Hge u. unfold CropAndUpSample.call. rewrite Hcl.
    unfold np_random_randint.
    destruct (crop_sequence_min <? Z.of_nat s)%Z eqn:E;
      [apply Z.ltb_lt in E; lia|reflexivity].
  - intros u.
    destruct (randint_range crop_sequence_min (Z.of_nat s) u Hlt) as (v & Hv & Hr).
    exists v. rewrite Hcl. split; [exact Hv|]. split; [exact Hr|].
    destruct (slice_dim1_grid c s x v Hg) as (xc & Hxc & Hgc & Hbc).
    assert (Hcall :
              CropAndUpSample.call
                (CropAndUpSample.init original_sequence_length crop_sequence_min) u x
              = TemporalInterpolation.call
                  (TemporalInterpolation.init original_sequence_length "nearest" None)
                  xc).
    { unfold CropAndUpSample.call. rewrite Hcl, Hv. cbn [bind]. rewrite Hxc.
      reflexivity. }
    rewrite Hcall.
    destruct ((0 <? c) && (0 <? original_sequence_length)%Z
              && (0 <? slice_stop s v)) eqn:E.
    + apply andb_true_iff in E. destruct E as (E & E3).
      apply andb_true_iff in E. destruct E as (E1 & E2).
      apply Nat.ltb_lt in E1. apply Nat.ltb_lt in E3. apply Z.ltb_lt in E2.
      rewrite (TemporalInterpolation_call_rows original_sequence_length None xc c
                 (slice_stop s v) Hgc E1 E3 E2).
      set (T := Z.to_nat original_sequence_length).
      set (k := slice_stop s v) in *.
      assert (HT : 0 < T) by (unfold T; lia).
      set (rows := map (fun r => nearest_row r k T) (blocks_of xc)).
      destruct (blocks_of_grid_shape c k xc Hgc) as (Hxl & _).
      assert (Hl : length rows = c) by (unfold rows; now rewrite length_map).
      assert (Hu : uniform T rows).
      { unfold rows. apply uniform_map. intros b _. apply nearest_row_length. }
      destruct (grid_of_blocks c T rows Hl Hu) as (Hgy & Hby).
      exists (mkTensor [c; T] (concat rows)), (fun i => Nat.min (i * k / T) (k - 1)).
      split; [reflexivity|]. split; [exact Hgy|].
      split; [rewrite Nat.mul_0_l, Nat.Div0.div_0_l; apply Nat.min_0_l|].
      split; [intros i; lia|].
      split.
      { intros i i' Hi. apply Nat.min_le_compat_r.
        apply Nat.Div0.div_le_mono. nia. }
      split.
      { intros HTk i Hi. rewrite HTk, Nat.div_mul by lia. lia. }
      intros j Hj. unfold row. rewrite Hby. unfold rows. rewrite Hbc, map_map.
      destruct (blocks_of_grid_shape c s x Hg) as (Hbl & _).
      rewrite (nth_indep _ [] (nearest_row (firstn k []) k T))
        by (rewrite length_map; lia).
      rewrite (map_nth (fun r => nearest_row (firstn k r) k T)).
      unfold nearest_row. apply map_ext_in. intros i _.
      rewrite nth_firstn.
      destruct (Nat.ltb_spec (Nat.min (i * k / T) (k - 1)) k); [reflexivity|lia].
    + apply (TemporalInterpolation_call_refused_rows original_sequence_length None xc c
               (slice_stop s v) Hgc E).
  - intros v Hv. exists (v - crop_sequence_min)%Z. split; [lia|]. split.
    + rewrite Hcl. apply randint_onto. exact Hv.
    + intros u' Hu' H'. rewrite Hcl in H'. unfold np_random_randint in H'.
      destruct (crop_sequence_min <? Z.of_nat s)%Z; [|discriminate].
      inversion H' as [H0]. rewrite Z.mod_small in H0 by lia. rewrite Z.mod_small by lia.
      lia.
Qed.

Lemma CropAndUpSample_crop_range_witness :
  ((Z.of_nat 10 <= 5)%Z ->
   forall u,
     CropAndUpSample.call (CropAndUpSample.init 10 5) u ramp210 = Raise ValueError)
  /\ ((5 < Z.of_nat 10)%Z ->
      (forall u, exists v,
          CropAndUpSample.crop_len (CropAndUpSample.init 10 5) u ramp210 = Ok v
          /\ (5 <= v < Z.of_nat 10)%Z
          /\ if (0 <? 2) && (0 <? 10)%Z && (0 <? slice_stop 10 v)
             then
               exists y idx,
                 CropAndUpSample.call (CropAndUpSample.init 10 5) u ramp210 = Ok y
                 /\ grid 2 (Z.to_nat 10) y
                 /\ idx 0 = 0
                 /\ (forall i, idx i < slice_stop 10 v)
                 /\ (forall i i', i <= i' -> idx i <= idx i')
                 /\ (Z.to_nat 10 = slice_stop 10 v ->
                     forall i, i < slice_stop 10 v -> idx i = i)
                 /\ (forall j, j < 2 ->
                       row y j
                       = map (fun i => nth (idx i) (row ramp210 j) NaN)
                           (seq 0 (Z.to_nat 10)))
             else
               CropAndUpSample.call (CropAndUpSample.init 10 5) u ramp210
               = Raise RuntimeError)
      /\ (forall v, (5 <= v < Z.of_nat 10)%Z ->
            exists u, (0 <= u < Z.of_nat 10 - 5)%Z
              /\ CropAndUpSample.crop_len (CropAndUpSample.init 10 5) u ramp210 = Ok v
              /\ (forall u', (0 <= u' < Z.of_nat 10 - 5)%Z ->
                    CropAndUpSample.crop_len (CropAndUpSample.init 10 5) u' ramp210
                    = Ok v ->
                    u' = u))).
Proof.
  apply (CropAndUpSample_crop_range 10 5 2 10 ramp210). split; reflexivity.
Defined.

Lemma CropAndUpSample_never_full_length :
  ~ (exists u,
        CropAndUpSample.crop_len (CropAndUpSample.init 10 5) u ramp210 = Ok 10%Z)
  /\ (forall u,
        CropAndUpSample.call (CropAndUpSample.init 10 10) u ramp210
        = Raise ValueError)
  /\ (forall u,
        CropAndUpSample.call (CropAndUpSample.init 10 5) u (mkTensor [0; 10] [])
        = Raise RuntimeError)
  /\ (forall u,
        CropAndUpSample.call (CropAndUpSample.init 0 5) u ramp210
        = Raise RuntimeError)
  /\ CropAndUpSample.call (CropAndUpSample.init 10 0) 0 ramp210
     = Raise RuntimeError.
Proof.
  split; [|split; [|split; [|split]]].
  - intros (u & Hu). unfold ramp210 in Hu. rewrite crop_len_rank2 in Hu.
    destruct (randint_range 5 10 u) as (v & Hv & Hr); [lia|].
    cbn [CropAndUpSample.crop_sequence_min CropAndUpSample.init] in Hu.
    change (Z.of_nat 10) with 10%Z in Hu. rewrite Hv in Hu. inversion Hu. lia.
  - intros u. reflexivity.
  - intros u. unfold CropAndUpSample.call. rewrite crop_len_rank2.
    destruct (randint_range 5 10 u) as (v & Hv & Hr); [lia|].
    cbn [CropAndUpSample.crop_sequence_min CropAndUpSample.init].
    change (Z.of_nat 10) with 10%Z. rewrite Hv. reflexivity.
  - intros u. unfold CropAndUpSample.call, ramp210. rewrite crop_len_rank2.
    destruct (randint_range 5 10 u) as (v & Hv & Hr); [lia|].
    cbn [CropAndUpSample.crop_sequence_min CropAndUpSample.init].
    change (Z.of_nat 10) with 10%Z. rewrite Hv. cbn [bind].
    rewrite slice_dim1_rank2. reflexivity.
  - reflexivity.
Qed.

(** ** Assigning rows *)

Lemma nth_set_nth_same {A : Type} (i : nat) (b d : A) (bs : list A) :
  i < length bs -> nth i (set_nth i b bs) d = b.
Proof.
  revert i. induction bs as [|a bs IH]; intros [|i] H; simpl in *; try lia;
    [reflexivity|apply IH; lia].
Qed.

Lemma nth_set_nth_other {A : Type} (i j : nat) (b d : A) (bs : list A) :
  i <> j -> nth j (set_nth i b bs) d = nth j bs d.
Proof.
  revert i j. induction bs as [|a bs IH]; intros [|i] [|j] H; simpl;
    try reflexivity; try congruence.
  apply IH. congruence.
Qed.

Lemma fold_set_nth_length {A : Type} (ibs : list (nat * A)) (bs : list A) :
  length (fold_left (fun acc ib => set_nth (fst ib) (snd ib) acc) ibs bs) = length bs.
Proof.
  revert bs. induction ibs as [|ib ibs IH]; intros bs; [reflexivity|].
  cbn [fold_left]. rewrite IH. apply set_nth_length.
Qed.

Lemma fold_set_nth_other {A : Type} (ibs : list (nat * A)) (bs : list A)
  (j : nat) (d : A) :
  ~ In j (map fst ibs) ->
  nth j (fold_left (fun acc ib => set_nth (fst ib) (snd ib) acc) ibs bs) d = nth j bs d.
Proof.
  revert bs. induction ibs as [|ib ibs IH]; intros bs Hj; [reflexivity|].
  cbn [fold_left map] in *. rewrite IH by (intros H; apply Hj; right; exact H).
  apply nth_set_nth_other. intros H. apply Hj. left. exact H.
Qed.

Lemma fold_set_nth_written {A : Type} (ibs : list (nat * A)) (bs : list A)
  (j : nat) (d : A) :
  In j (map fst ibs) -> j < length bs ->
  In (nth j (fold_left (fun acc ib => set_nth (fst ib) (snd ib) acc) ibs bs) d)
     (map snd ibs).
Proof.
  revert bs. induction ibs as [|ib ibs IH]; intros bs Hj Hlt; [destruct Hj|].
  cbn [fold_left map] in *.
  destruct (in_dec Nat.eq_dec j (map fst ibs)) as [Hin|Hnin].
  - right. apply IH; [exact Hin|]. now rewrite set_nth_length.
  - left. rewrite fold_set_nth_other by exact Hnin.
    destruct Hj as [Hj|Hj]; [|contradiction]. subst j.
    symmetry. apply nth_set_nth_same, Hlt.
Qed.

Lemma map_fst_combine {A B : Type} (l : list A) (l' : list B) :
  length l = length l' -> map fst (combine l l') = l.
Proof.
  revert l'. induction l as [|a l IH]; intros [|b l'] H; simpl in *; try lia;
    [reflexivity|]. f_equal. apply IH. lia.
Qed.

Lemma in_map_snd_combine {A B : Type} (l : list A) (l' : list B) (b : B) :
  In b (map snd (combine l l')) -> In b l'.
Proof.
  intros H. apply in_map_iff in H. destruct H as ((a, b') & <- & Hin).
  apply in_combine_r in Hin. exact Hin.
Qed.

(* x[inds, :] = v on a grid: the rows outside inds stay, the rows of inds
   are rows of v *)
Lemma assign_rows_rows (m s : nat) (x v : tensor) (inds : list nat) :
  grid m s x -> grid (length inds) s v -> Forall (fun i => i < m) inds ->
  exists y, assign_rows x inds v = Ok y /\ grid m s y
    /\ (forall j, ~ In j inds -> row y j = row x j)
    /\ (forall j, In j inds -> In (row y j) (blocks_of v)).
Proof.
  intros Hg Hv Hi. destruct (blocks_of_grid_shape m s x Hg) as (Hbl & Hbu).
  destruct (blocks_of_grid_shape _ s v Hv) as (Hvl & Hvu).
  pose proof Hg as (Hs & Hl). pose proof Hv as (Hvs & Hvd).
  unfold assign_rows. rewrite Hs.
  replace (forallb (fun i => i <? m) inds) with true.
  2:{ symmetry. apply forallb_forall. rewrite Forall_forall in Hi.
      intros i Hin. apply Nat.ltb_lt, Hi, Hin. }
  cbn [negb]. destruct (list_eq_dec Nat.eq_dec (shape v) [length inds; s]) as [_|Hne];
    [|contradiction].
  set (bs := fold_left (fun acc ib => set_nth (fst ib) (snd ib) acc)
               (combine inds (blocks_of v)) (blocks_of x)).
  destruct (fold_set_nth_uniform s (combine inds (blocks_of v)) (blocks_of x) Hbu)
    as (H1 & H2).
  { apply Forall_forall. intros (i, b) Hin. apply in_combine_r in Hin. cbn [snd].
    unfold uniform in Hvu. rewrite Forall_forall in Hvu. apply Hvu, Hin. }
  fold bs in H1, H2.
  destruct (grid_of_blocks m s bs) as (Hgy & Hby); [lia|exact H2|].
  exists (mkTensor [m; s] (concat bs)). split; [reflexivity|]. split; [exact Hgy|].
  unfold row. rewrite Hby. split.
  - intros j Hj. unfold bs. apply fold_set_nth_other.
    rewrite map_fst_combine by lia. exact Hj.
  - intros j Hj. apply (in_map_snd_combine inds). unfold bs.
    apply fold_set_nth_written.
    + rewrite map_fst_combine by lia. exact Hj.
    + rewrite Hbl. rewrite Forall_forall in Hi. apply Hi, Hj.
Qed.

Lemma fill_rows_rows (m s : nat) (x : tensor) (sel : nat -> bool) (v : fval) :
  grid m s x ->
  grid m s (fill_rows x sel v)
  /\ forall j, j < m -> row (fill_rows x sel v) j = if sel j then repeat v s else row x j.
Proof. apply fill_rows_grid. Qed.

(** ** Noise *)




(** ** MaskAuxiliariesDeep1010 *)

Section MaskAuxiliariesFacts.
Variables REF_INDS EOG_INDS EXTRA_INDS : list nat.

End MaskAuxiliariesFacts.


(** ** NoisyBlankDeep1010 without purge *)





(** ** AdditiveEogDeep1010 *)

Lemma nonzero_bound (bs : list bool) : Forall (fun i => i < length bs) (nonzero bs).
Proof.
  unfold nonzero. apply Forall_forall. intros i Hi. apply in_map_iff in Hi.
  destruct Hi as ((i', b) & <- & Hin). apply filter_In in Hin.
  destruct Hin as (Hin & _). apply in_combine_l in Hin. apply in_seq in Hin.
  cbn [fst]. lia.
Qed.

Lemma select_subset {A : Type} (ids : list A) (mask : list bool) (a : A) :
  In a (select ids mask) -> In a ids.
Proof.
  unfold select. intros H. apply in_map_iff in H. destruct H as ((a', b) & <- & Hin).
  apply filter_In in Hin. destruct Hin as (Hin & _). apply in_combine_l in Hin.
  exact Hin.
Qed.

Lemma scaled_rows_grid (s : nat) (eog : list fval) (cs : list fval) :
  length eog = s ->
  grid (length cs) s
    (mkTensor [length cs; s] (concat (map (fun c => scale_row c eog) cs))).
Proof.
  intros He. split; [reflexivity|]. cbn [data].
  rewrite (concat_uniform_length s).
  - now rewrite length_map.
  - apply uniform_map. intros c _. unfold scale_row. now rewrite length_map.
Qed.

(* one pass of the loop: rows from k on other than the EOG row are kept *)
Lemma step_rows (self : AdditiveEogDeep1010.t) (affected : list nat)
  (src : nat -> Q) (x : tensor) (pos w k m s : nat) :
  grid m s x -> Forall (fun i => i < k) affected -> k <= m -> w < m ->
  exists x' pos',
    AdditiveEogDeep1010.step self affected src (x, pos) w = Ok (x', pos')
    /\ grid m s x'
    /\ (forall j, k <= j -> j < m -> j <> w -> row x' j = row x j)
    /\ ((AdditiveEogDeep1010.blanking_p self == 1)%Q -> row x' w = repeat (Fin 0) s).
Proof.
  intros Hg Haff Hkm Hw. destruct (blocks_of_grid_shape m s x Hg) as (Hbl & Hbu).
  unfold AdditiveEogDeep1010.step. cbn [fst snd]. rewrite (proj1 Hg).
  replace (w <? m) with true by (symmetry; apply Nat.ltb_lt; exact Hw).
  cbn [negb].
  set (ids := select affected
                (map (fun r => Qltb r (1 # 4))
                   (fst (rand src pos (length affected))))).
  set (pos1 := snd (rand src pos (length affected))).
  assert (Hids : Forall (fun i => i < k) ids).
  { apply Forall_forall. intros i Hi. apply select_subset in Hi.
    rewrite Forall_forall in Haff. apply Haff, Hi. }
  assert (Hidm : Forall (fun i => i < m) ids).
  { eapply Forall_impl; [|exact Hids]. cbn. intros; lia. }
  set (cs := map (fun r => fmul (Fin (AdditiveEogDeep1010.max_intensity self)) (Fin r))
               (fst (rand src pos1 (length ids)))).
  assert (Hcs : length cs = length ids).
  { unfold cs, rand. cbn [fst]. now rewrite !length_map, length_seq. }
  assert (Heog : length (nth w (blocks_of x) []) = s).
  { apply uniform_nth; [exact Hbu|lia]. }
  pose proof (scaled_rows_grid s _ cs Heog) as Hgv. rewrite Hcs in Hgv.
  assert (Hrows : map (fun r => scale_row
                                  (fmul (Fin (AdditiveEogDeep1010.max_intensity self)) (Fin r))
                                  (nth w (blocks_of x) []))
                    (fst (rand src pos1 (length ids)))
                  = map (fun c => scale_row c (nth w (blocks_of x) [])) cs).
  { unfold cs. now rewrite map_map. }
  rewrite Hrows.
  destruct (assign_rows_rows m s x _ ids Hg Hgv Hidm) as (x1 & Hx1 & Hg1 & Hout & _).
  rewrite Hx1. cbn [bind].
  assert (Hkeep : forall j, k <= j -> row x1 j = row x j).
  { intros j Hj. apply Hout. intros Hin. rewrite Forall_forall in Hids.
    specialize (Hids j Hin). lia. }
  destruct (fill_rows_rows m s x1 (fun j => j =? w) (Fin 0) Hg1) as (Hg2 & Hfill).
  assert (Hblank : assign_row_scalar x1 w (Fin 0)
                   = Ok (fill_rows x1 (fun j => j =? w) (Fin 0))).
  { unfold assign_row_scalar. rewrite (proj1 Hg1).
    replace (w <? m) with true by (symmetry; apply Nat.ltb_lt; exact Hw). reflexivity. }
  assert (Hfilled : forall j, k <= j -> j < m -> j <> w ->
                      row (fill_rows x1 (fun j => j =? w) (Fin 0)) j = row x j).
  { intros j Hk Hj Hne. rewrite Hfill by exact Hj.
    replace (j =? w) with false by (symmetry; apply Nat.eqb_neq; exact Hne).
    apply Hkeep, Hk. }
  assert (Hzero : row (fill_rows x1 (fun j => j =? w) (Fin 0)) w = repeat (Fin 0) s).
  { rewrite Hfill by exact Hw. now rewrite Nat.eqb_refl. }
  destruct (Qis_zero (AdditiveEogDeep1010.blanking_p self)) eqn:Ez.
  - eexists. eexists. split; [reflexivity|]. split; [exact Hg1|]. split.
    + intros j Hk _ _. apply Hkeep, Hk.
    + intros H1. apply Qis_zero_true in Ez. rewrite Ez in H1. discriminate.
  - destruct (Qeq_bool (AdditiveEogDeep1010.blanking_p self) 1) eqn:E1.
    + rewrite Hblank. cbn [bind]. eexists. eexists. split; [reflexivity|].
      split; [exact Hg2|]. split; [exact Hfilled|]. intros _. exact Hzero.
    + assert (Hn1 : ~ (AdditiveEogDeep1010.blanking_p self == 1)%Q).
      { intros H. apply Qeq_bool_iff in H. congruence. }
      destruct (Qltb _ (AdditiveEogDeep1010.blanking_p self)).
      * rewrite Hblank. cbn [bind]. eexists. eexists. split; [reflexivity|].
        split; [exact Hg2|]. split; [exact Hfilled|]. intros H. contradiction.
      * eexists. eexists. split; [reflexivity|]. split; [exact Hg1|]. split.
        -- intros j Hk _ _. apply Hkeep, Hk.
        -- intros H. contradiction.
Qed.

Lemma loop_rows (self : AdditiveEogDeep1010.t) (affected : list nat)
  (src : nat -> Q) (k m s : nat) (eogs : list nat) (x : tensor) (pos : nat) :
  grid m s x -> Forall (fun i => i < k) affected -> k <= m ->
  Forall (fun w => k <= w < m) eogs ->
  exists x' pos',
    AdditiveEogDeep1010.loop self affected src (x, pos) eogs = Ok (x', pos')
    /\ grid m s x'
    /\ (forall j, k <= j -> j < m -> ~ In j eogs -> row x' j = row x j)
    /\ ((AdditiveEogDeep1010.blanking_p self == 1)%Q ->
        forall w, In w eogs -> row x' w = repeat (Fin 0) s).
Proof.
  intros Hg Haff Hkm He. revert x pos Hg.
  induction He as [|w eogs (Hkw & Hwm) Hes IH]; intros x pos Hg.
  - exists x, pos. split; [reflexivity|]. split; [exact Hg|]. split; [reflexivity|].
    intros _ w [].
  - cbn [AdditiveEogDeep1010.loop].
    destruct (step_rows self affected src x pos w k m s Hg Haff Hkm Hwm)
      as (x1 & pos1 & Hstep & Hg1 & Hkeep1 & Hzero1).
    rewrite Hstep. cbn [bind].
    destruct (IH x1 pos1 Hg1) as (x2 & pos2 & Hloop & Hg2 & Hkeep2 & Hzero2).
    exists x2, pos2. split; [exact Hloop|]. split; [exact Hg2|]. split.
    + intros j Hk Hj Hnin. rewrite Hkeep2; [|exact Hk|exact Hj|].
      * apply Hkeep1; [exact Hk|exact Hj|]. intros ->. apply Hnin. left. reflexivity.
      * intros Hin. apply Hnin. right. exact Hin.
    + intros H1 w' Hin. destruct (in_dec Nat.eq_dec w' eogs) as [Hr|Hr].
      * apply Hzero2; assumption.
      * destruct Hin as [<-|Hin]; [|contradiction].
        rewrite Hkeep2 by assumption. apply Hzero1, H1.
Qed.

(** X12.  AdditiveEogDeep1010 only ever writes to the rows below
    EOG_INDS[0] - 1 and to the EOG rows: every other row, the row
    EOG_INDS[0] - 1 included, comes out as it went in, and the shape is
    kept.  With blank_eog_p = 1 (the default) every EOG row is zero in
    the result. *)
Theorem AdditiveEog_rows (self : AdditiveEogDeep1010.t) (src : nat -> Q)
  (pos k m s : nat) (rest : list nat) (x : tensor) :
  grid m s x -> Forall (fun w => k <= w < m) (S k :: rest) ->
  exists y pos',
    AdditiveEogDeep1010.call (S k :: rest) self src pos x = Ok (y, pos')
    /\ grid m s y
    /\ (forall j, k <= j -> j < m -> ~ In j (S k :: rest) -> row y j = row x j)
    /\ ((AdditiveEogDeep1010.blanking_p self == 1)%Q ->
        forall w, In w (S k :: rest) -> row y w = repeat (Fin 0) s).
Proof.
  intros Hg He. unfold AdditiveEogDeep1010.call.
  apply loop_rows; [exact Hg| |inversion He; subst; lia|exact He].
  pose proof (nonzero_bound (map (fun r => Qltb r (AdditiveEogDeep1010.p self))
                               (fst (rand src pos k)))) as Hb.
  assert (Hl : length (map (fun r => Qltb r (AdditiveEogDeep1010.p self))
                         (fst (rand src pos k))) = k).
  { unfold rand. cbn [fst]. now rewrite !length_map, length_seq. }
  rewrite Hl in Hb. exact Hb.
Qed.

Lemma AdditiveEog_rows_witness :
  exists y pos',
    AdditiveEogDeep1010.call [3] (AdditiveEogDeep1010.init (1 # 2) (3 # 10) 1)
      (fun _ => (1 # 8)%Q) 0 (eog_input (Fin 1) (Fin 2) (Fin 3) (Fin 4) (Fin 5) (Fin 6))
    = Ok (y, pos')
    /\ grid 4 2 y
    /\ (forall j, 2 <= j -> j < 4 -> ~ In j [3] ->
          row y j = row (eog_input (Fin 1) (Fin 2) (Fin 3) (Fin 4) (Fin 5) (Fin 6)) j)
    /\ ((AdditiveEogDeep1010.blanking_p (AdditiveEogDeep1010.init (1 # 2) (3 # 10) 1)
         == 1)%Q ->
        forall w, In w [3] -> row y w = repeat (Fin 0) 2).
Proof.
  apply (AdditiveEog_rows (AdditiveEogDeep1010.init (1 # 2) (3 # 10) 1)
           (fun _ => (1 # 8)%Q) 0 2 4 2 []
           (eog_input (Fin 1) (Fin 2) (Fin 3) (Fin 4) (Fin 5) (Fin 6))).
  - split; reflexivity.
  - repeat constructor; lia.
Defined.

Lemma nonzero_all_false (bs : list bool) :
  Forall (fun b => b = false) bs -> nonzero bs = [].
Proof.
  intros H. unfold nonzero.
  assert (Hf : filter snd (combine (seq 0 (length bs)) bs) = []).
  { generalize (seq 0 (length bs)). induction H as [|b bs Hb Hbs IH]; intros l.
    - destruct l; reflexivity.
    - destruct l as [|i l]; [reflexivity|]. cbn [combine filter snd]. subst b. apply IH. }
  now rewrite Hf.
Qed.

Lemma grid_rebuild (m s : nat) (x : tensor) :
  grid m s x -> mkTensor (shape x) (concat (blocks_of x)) = x.
Proof.
  intros Hg. rewrite (blocks_of_grid m s x Hg). destruct Hg as (Hs & Hl).
  rewrite concat_chunks by exact Hl. destruct x; reflexivity.
Qed.

Lemma loop_idle (self : AdditiveEogDeep1010.t) (src : nat -> Q) (m s : nat)
  (eogs : list nat) (x : tensor) (pos : nat) :
  grid m s x -> Forall (fun w => w < m) eogs ->
  (AdditiveEogDeep1010.blanking_p self == 0)%Q ->
  AdditiveEogDeep1010.loop self [] src (x, pos) eogs = Ok (x, pos).
Proof.
  intros Hg He Hb. induction He as [|w eogs Hw Hes IH]; [reflexivity|].
  cbn [AdditiveEogDeep1010.loop].
  assert (Hstep : AdditiveEogDeep1010.step self [] src (x, pos) w = Ok (x, pos)).
  { unfold AdditiveEogDeep1010.step. cbn [fst snd length rand seq map select combine filter].
    rewrite (proj1 Hg).
    replace (w <? m) with true by (symmetry; apply Nat.ltb_lt; exact Hw).
    cbn [negb concat length]. unfold assign_rows. rewrite (proj1 Hg).
    cbn [forallb negb shape length combine fold_left].
    destruct (list_eq_dec Nat.eq_dec [0; s] [0; s]) as [_|Hne]; [|contradiction].
    cbn [bind]. rewrite <- (proj1 Hg), (grid_rebuild m s x Hg).
    replace (Qis_zero (AdditiveEogDeep1010.blanking_p self)) with true
      by (symmetry; apply Qis_zero_true; exact Hb).
    now rewrite !Nat.add_0_r. }
  rewrite Hstep. cbn [bind]. exact IH.
Qed.

(** X13.  With p = 0 (or less) and blank_eog_p = 0, AdditiveEogDeep1010
    returns its input unchanged: no row is selected and no EOG row is
    blanked; only the EOG_INDS[0] - 1 draws of the selection are made. *)
Theorem AdditiveEog_idle (self : AdditiveEogDeep1010.t) (src : nat -> Q)
  (pos k m s : nat) (rest : list nat) (x : tensor) :
  grid m s x -> Forall (fun w => w < m) (S k :: rest) -> unit_source src ->
  (AdditiveEogDeep1010.p self <= 0)%Q ->
  (AdditiveEogDeep1010.blanking_p self == 0)%Q ->
  AdditiveEogDeep1010.call (S k :: rest) self src pos x = Ok (x, pos + k).
Proof.
  intros Hg He Hsrc Hp Hb. unfold AdditiveEogDeep1010.call.
  rewrite nonzero_all_false.
  - unfold rand. cbn [snd]. apply (loop_idle self src m s); assumption.
  - apply Forall_forall. intros b Hin. apply in_map_iff in Hin.
    destruct Hin as (r & <- & Hr). unfold rand in Hr. cbn [fst] in Hr.
    apply in_map_iff in Hr. destruct Hr as (i & <- & _).
    unfold Qltb. apply negb_false_iff, Qle_bool_iff.
    destruct (Hsrc i). lra.
Qed.

Lemma AdditiveEog_idle_witness :
  AdditiveEogDeep1010.call [3] (AdditiveEogDeep1010.init 0 (3 # 10) 0)
    (fun _ => (1 # 8)%Q) 0 (eog_input (Fin 1) (Fin 2) (Fin 3) (Fin 4) (Fin 5) (Fin 6))
  = Ok (eog_input (Fin 1) (Fin 2) (Fin 3) (Fin 4) (Fin 5) (Fin 6), 0 + 2).
Proof.
  apply (AdditiveEog_idle (AdditiveEogDeep1010.init 0 (3 # 10) 0)
           (fun _ => (1 # 8)%Q) 0 2 4 2 []
           (eog_input (Fin 1) (Fin 2) (Fin 3) (Fin 4) (Fin 5) (Fin 6))).
  - split; reflexivity.
  - repeat constructor.
  - intros i. split; [vm_compute; discriminate|reflexivity].
  - cbn. lra.
  - reflexivity.
Defined.

(** ** MappingDeep1010: the mask, the scale row and the refusals *)

Section MappingDeep1010More.
Variable SCALE_IND : nat.
Variables EEG_INDS EOG_INDS REF_INDS EXTRA_INDS : list nat.

(* the call once the scale is known *)
Lemma MappingDeep1010_call_rows (self : MappingDeep1010.t) (x : tensor)
  (n m s : nat) (sc : fval) :
  shape (MappingDeep1010.mapping self) = [n; m] ->
  grid n s x -> 0 < s ->
  MappingDeep1010.scale_of self x = Ok sc ->
  Forall (fun inds => inds <> [] /\ Forall (fun i => i < m) inds)
    [EEG_INDS; EOG_INDS; REF_INDS; EXTRA_INDS] ->
  SCALE_IND < m ->
  exists y mask,
    column_used (MappingDeep1010.mapping self) = Ok mask
    /\ length mask = m
    /\ MappingDeep1010.call SCALE_IND EEG_INDS EOG_INDS REF_INDS EXTRA_INDS self x
       = Ok (if MappingDeep1010.return_mask self then WithMask y mask else Plain y)
    /\ grid m s y
    /\ row y SCALE_IND = repeat sc s
    /\ (forall j, j < m -> j <> SCALE_IND -> nth j mask true = false ->
          row y j = repeat (Fin 0) s).
Proof.
  intros Hmap Hg Hs Hscale Hcats Hsc.
  destruct (transpose10_grid n s x Hg) as (xt & Hxt & Hgt).
  destruct (matmul_grid s n m xt _ Hgt Hmap) as (xm & Hxm & Hgm).
  destruct (transpose10_grid s m xm Hgm) as (x1 & Hx1 & Hg1).
  destruct (normalize_categories_grid m s _ x1 Hg1 Hs Hcats) as (x2 & Hx2 & Hg2).
  destruct (column_used_mask _ n m Hmap) as (mask & Hmask & Hml & _).
  destruct (fill_rows_rows m s x2 (fun i => negb (nth i mask true)) (Fin 0) Hg2)
    as (Hg3 & Hrows3).
  destruct (fill_rows_rows m s _ (fun j => j =? SCALE_IND) sc Hg3) as (Hg4 & Hrows4).
  eexists. exists mask. split; [exact Hmask|]. split; [exact Hml|].
  split; [|split; [exact Hg4|split]].
  - unfold MappingDeep1010.call. rewrite Hscale. cbn [bind].
    rewrite Hxt. cbn [bind]. rewrite Hxm. cbn [bind]. rewrite Hx1. cbn [bind].
    rewrite Hx2. cbn [bind]. rewrite Hmask. cbn [bind].
    unfold assign_unmasked. rewrite (proj1 Hg2), Hml, Nat.eqb_refl. cbn [bind].
    unfold assign_row_scalar. rewrite (proj1 Hg3).
    replace (SCALE_IND <? m) with true by (symmetry; apply Nat.ltb_lt; exact Hsc).
    cbn [bind]. destruct (MappingDeep1010.return_mask self); reflexivity.
  - rewrite Hrows4 by exact Hsc. now rewrite Nat.eqb_refl.
  - intros j Hj Hjs Hm. rewrite Hrows4 by exact Hj.
    replace (j =? SCALE_IND) with false by (symmetry; apply Nat.eqb_neq; exact Hjs).
    rewrite Hrows3 by exact Hj. now rewrite Hm.
Qed.

(** X14.  A MappingDeep1010 built with add_scale_ind = False, or for a
    dataset without info, data_max or data_min, writes zero into the
    scale indicator row, for any input values. *)
Theorem MappingDeep1010_no_scale_info (mapping x : tensor)
  (info : option DatasetInfo) (add_scale_ind return_mask : bool) (n m s : nat) :
  add_scale_ind = false \/ info = None
  \/ (exists i, info = Some i /\ (data_max i = None \/ data_min i = None)) ->
  shape mapping = [n; m] -> grid n s x -> 0 < s ->
  Forall (fun inds => inds <> [] /\ Forall (fun i => i < m) inds)
    [EEG_INDS; EOG_INDS; REF_INDS; EXTRA_INDS] ->
  SCALE_IND < m ->
  exists r,
    MappingDeep1010.call SCALE_IND EEG_INDS EOG_INDS REF_INDS EXTRA_INDS
      (MappingDeep1010.init mapping info add_scale_ind return_mask) x = Ok r
    /\ row (mapped_tensor r) SCALE_IND = repeat (Fin 0) s.
Proof.
  intros Hinfo Hmap Hg Hs Hcats Hsc.
  set (self := MappingDeep1010.init mapping info add_scale_ind return_mask).
  assert (Hnone : MappingDeep1010.max_scale self = None).
  { unfold self, MappingDeep1010.init. cbn [MappingDeep1010.max_scale].
    destruct Hinfo as [-> | [-> | (i & -> & [Hi|Hi])]].
    - reflexivity.
    - destruct add_scale_ind; reflexivity.
    - destruct add_scale_ind; [|reflexivity]. now rewrite Hi.
    - destruct add_scale_ind; [|reflexivity]. rewrite Hi.
      destruct (data_max i); reflexivity. }
  assert (Hscale : MappingDeep1010.scale_of self x = Ok (Fin 0)).
  { unfold MappingDeep1010.scale_of. now rewrite Hnone. }
  destruct (MappingDeep1010_call_rows self x n m s (Fin 0) Hmap Hg Hs Hscale Hcats Hsc)
    as (y & mask & _ & _ & Hcall & _ & Hrow & _).
  eexists. split; [exact Hcall|].
  destruct (MappingDeep1010.return_mask self); exact Hrow.
Qed.

Lemma scale_of_total (self : MappingDeep1010.t) (x : tensor) :
  data x <> [] -> exists sc, MappingDeep1010.scale_of self x = Ok sc.
Proof.
  intros Hne. unfold MappingDeep1010.scale_of, t_max, t_min.
  destruct (MappingDeep1010.max_scale self); [|eexists; reflexivity].
  destruct (data x); [congruence|]. cbn [reduce_max reduce_min bind].
  eexists; reflexivity.
Qed.

Lemma scale_of_raises_RuntimeError (self : MappingDeep1010.t) (x : tensor) (e : exn) :
  MappingDeep1010.scale_of self x = Raise e -> e = RuntimeError.
Proof.
  unfold MappingDeep1010.scale_of, t_max, t_min.
  destruct (MappingDeep1010.max_scale self); [|discriminate].
  destruct (data x); cbn [reduce_max reduce_min bind]; [|discriminate].
  intros H. now inversion H.
Qed.

(** X15.  With return_mask the call returns the tensor together with a
    mask of one entry per canonical slot; a slot no source channel maps
    to is False in the mask, and every row other than the scale
    indicator whose mask entry is False is zero.  Without return_mask
    the tensor alone is returned. *)
Theorem MappingDeep1010_mask (self : MappingDeep1010.t) (x : tensor) (n m s : nat) :
  shape (MappingDeep1010.mapping self) = [n; m] ->
  grid n s x -> 0 < n -> 0 < s ->
  Forall (fun inds => inds <> [] /\ Forall (fun i => i < m) inds)
    [EEG_INDS; EOG_INDS; REF_INDS; EXTRA_INDS] ->
  SCALE_IND < m ->
  exists y mask,
    MappingDeep1010.call SCALE_IND EEG_INDS EOG_INDS REF_INDS EXTRA_INDS self x
    = Ok (if MappingDeep1010.return_mask self then WithMask y mask else Plain y)
    /\ grid m s y
    /\ length mask = m
    /\ (forall j, j < m ->
          column_empty (MappingDeep1010.mapping self) n m j = true ->
          nth j mask true = false)
    /\ (forall j, j < m -> j <> SCALE_IND -> nth j mask true = false ->
          row y j = repeat (Fin 0) s).
Proof.
  intros Hmap Hg Hn Hs Hcats Hsc.
  assert (Hne : data x <> []).
  { destruct Hg as (_ & Hl). destruct (data x); [simpl in Hl; nia|discriminate]. }
  destruct (scale_of_total self x Hne) as (sc & Hscale).
  destruct (MappingDeep1010_call_rows self x n m s sc Hmap Hg Hs Hscale Hcats Hsc)
    as (y & mask & Hmask & Hml & Hcall & Hgy & _ & Hzero).
  exists y, mask. split; [exact Hcall|]. split; [exact Hgy|]. split; [exact Hml|].
  split; [|exact Hzero].
  destruct (column_used_mask _ n m Hmap) as (mask' & Hmask' & _ & Hunused).
  rewrite Hmask in Hmask'. inversion Hmask'; subst mask'. exact Hunused.
Qed.

(** X16.  The scale indicator row is 1 when the range of the trial
    reaches the range of the dataset (max_scale), and -1 when the trial
    is constant. *)
Theorem MappingDeep1010_scale_extremes (self : MappingDeep1010.t) (x : tensor)
  (n m s : nat) (ms lo hi : Q) :
  shape (MappingDeep1010.mapping self) = [n; m] ->
  grid n s x -> 0 < s ->
  MappingDeep1010.max_scale self = Some (Fin ms) -> (0 < ms)%Q ->
  t_max x = Ok (Fin hi) -> t_min x = Ok (Fin lo) ->
  Forall (fun inds => inds <> [] /\ Forall (fun i => i < m) inds)
    [EEG_INDS; EOG_INDS; REF_INDS; EXTRA_INDS] ->
  SCALE_IND < m ->
  exists r,
    MappingDeep1010.call SCALE_IND EEG_INDS EOG_INDS REF_INDS EXTRA_INDS self x = Ok r
    /\ ((ms <= hi - lo)%Q -> row (mapped_tensor r) SCALE_IND = repeat (Fin 1) s)
    /\ ((hi == lo)%Q -> row (mapped_tensor r) SCALE_IND = repeat (Fin (-1)) s).
Proof.
  intros Hmap Hg Hs Hms Hpos Hhi Hlo Hcats Hsc.
  assert (Hscale : exists q, MappingDeep1010.scale_of self x = Ok (Fin q)
                     /\ ((ms <= hi - lo)%Q -> q = 1%Q)
                     /\ ((hi == lo)%Q -> q = (-1)%Q)).
  { unfold MappingDeep1010.scale_of. rewrite Hms, Hhi, Hlo. cbn [bind].
    cbn [fsub fneg fadd fdiv].
    replace (Qis_zero ms) with false.
    2:{ symmetry. apply not_true_iff_false. rewrite Qis_zero_true. lra. }
    set (r := Qred (Qred (hi + Qred (- lo)) / ms)).
    assert (Hr : (r == (hi - lo) / ms)%Q) by (unfold r; rewrite !Qred_correct; reflexivity).
    unfold clamp_max. cbn [fmin2 fle].
    destruct (Qle_bool r 1) eqn:E; cbn [fsub fneg fadd fmul];
      (eexists; split; [reflexivity|]); split.
    - intros Hge. apply Qle_bool_iff in E. apply Qred_one. rewrite !Qred_correct.
      assert ((1 <= r)%Q).
      { rewrite Hr. apply Qle_shift_div_l; [exact Hpos|lra]. }
      lra.
    - intros Heq. change (-1)%Q with (Qred (-1)). apply Qred_complete.
      rewrite !Qred_correct, Hr, Heq. field. lra.
    - intros _. reflexivity.
    - intros Heq. exfalso. apply not_true_iff_false in E. apply E.
      apply Qle_bool_iff. rewrite Hr, Heq.
      setoid_replace ((lo - lo) / ms)%Q with 0%Q by (field; lra). lra. }
  destruct Hscale as (q & Hscale & H1 & H2).
  destruct (MappingDeep1010_call_rows self x n m s (Fin q) Hmap Hg Hs Hscale Hcats Hsc)
    as (y & mask & _ & _ & Hcall & _ & Hrow & _).
  eexists. split; [exact Hcall|].
  assert (Hmt : row (mapped_tensor (if MappingDeep1010.return_mask self
                                    then WithMask y mask else Plain y)) SCALE_IND
                = repeat (Fin q) s).
  { destruct (MappingDeep1010.return_mask self); exact Hrow. }
  rewrite Hmt. split; intros H; [rewrite (H1 H)|rewrite (H2 H)]; reflexivity.
Qed.

(** X17.  A rank-2 input whose number of rows differs from the number of
    source channels of the mapping is refused with a RuntimeError. *)
Theorem MappingDeep1010_wrong_channel_count (self : MappingDeep1010.t)
  (x : tensor) (n n' m s : nat) :
  shape (MappingDeep1010.mapping self) = [n; m] ->
  shape x = [n'; s] -> n' <> n ->
  MappingDeep1010.call SCALE_IND EEG_INDS EOG_INDS REF_INDS EXTRA_INDS self x
  = Raise RuntimeError.
Proof.
  intros Hmap Hs Hne. unfold MappingDeep1010.call.
  destruct (MappingDeep1010.scale_of self x) as [sc|e] eqn:E.
  - cbn [bind]. unfold transpose10. rewrite Hs. cbn [bind].
    unfold matmul. rewrite Hmap. cbn [shape rev app].
    replace (n' =? n) with false by (symmetry; apply Nat.eqb_neq; exact Hne).
    reflexivity.
  - apply scale_of_raises_RuntimeError in E. subst e. reflexivity.
Qed.

Lemma normalize_category_empty (m s : nat) (x : tensor) :
  grid m s x -> MappingDeep1010.normalize_category x [] = Raise RuntimeError.
Proof.
  intros (Hs & _). unfold MappingDeep1010.normalize_category, index_rows.
  rewrite Hs. cbn [forallb length map concat bind].
  rewrite py_call_min_max_normalize. reflexivity.
Qed.

Lemma normalize_categories_empty (m s : nat) (cats : list (list nat)) (x : tensor) :
  grid m s x -> 0 < s ->
  Forall (Forall (fun i => i < m)) cats -> In [] cats ->
  MappingDeep1010.normalize_categories x cats = Raise RuntimeError.
Proof.
  intros Hg Hs Hc. revert x Hg. induction Hc as [|c cats Hi Hcs IH]; intros x Hg Hin.
  - destruct Hin.
  - cbn [MappingDeep1010.normalize_categories].
    destruct (list_eq_dec Nat.eq_dec c []) as [->|Hne].
    + now rewrite (normalize_category_empty m s x Hg).
    + destruct (normalize_category_grid m s x c Hg Hs Hne Hi) as (y & Hy & Hgy).
      rewrite Hy. cbn [bind]. apply IH; [exact Hgy|].
      destruct Hin as [Hin|Hin]; [congruence|exact Hin].
Qed.

(** X18.  Each of the four index lists EEG_INDS, EOG_INDS, REF_INDS and
    EXTRA_INDS has to name at least one slot: if one of them is empty
    the per-category normalization takes the minimum of an empty tensor
    and the call is a RuntimeError, for every input. *)
Theorem MappingDeep1010_empty_category (self : MappingDeep1010.t) (x : tensor)
  (n m s : nat) :
  shape (MappingDeep1010.mapping self) = [n; m] ->
  grid n s x -> 0 < s ->
  Forall (Forall (fun i => i < m)) [EEG_INDS; EOG_INDS; REF_INDS; EXTRA_INDS] ->
  In [] [EEG_INDS; EOG_INDS; REF_INDS; EXTRA_INDS] ->
  MappingDeep1010.call SCALE_IND EEG_INDS EOG_INDS REF_INDS EXTRA_INDS self x
  = Raise RuntimeError.
Proof.
  intros Hmap Hg Hs Hc Hin. unfold MappingDeep1010.call.
  destruct (MappingDeep1010.scale_of self x) as [sc|e] eqn:E.
  - cbn [bind].
    destruct (transpose10_grid n s x Hg) as (xt & Hxt & Hgt).
    destruct (matmul_grid s n m xt _ Hgt Hmap) as (xm & Hxm & Hgm).
    destruct (transpose10_grid s m xm Hgm) as (x1 & Hx1 & Hg1).
    rewrite Hxt. cbn [bind]. rewrite Hxm. cbn [bind]. rewrite Hx1. cbn [bind].
    now rewrite (normalize_categories_empty m s _ x1 Hg1 Hs Hc Hin).
  - apply scale_of_raises_RuntimeError in E. subst e. reflexivity.
Qed.
End MappingDeep1010More.

Lemma MappingDeep1010_no_scale_info_witness :
  exists r,
    MappingDeep1010.call 6 [0; 1; 2] [3] [4] [5]
      (MappingDeep1010.init map37 None true false) trial34 = Ok r
    /\ row (mapped_tensor r) 6 = repeat (Fin 0) 4.
Proof.
  apply (MappingDeep1010_no_scale_info 6 [0; 1; 2] [3] [4] [5] map37 trial34
           None true false 3 7 4).
  - right. left. reflexivity.
  - reflexivity.
  - split; reflexivity.
  - lia.
  - repeat constructor; try discriminate; lia.
  - lia.
Defined.

Lemma MappingDeep1010_mask_witness :
  exists y mask,
    MappingDeep1010.call 6 [0; 1; 2] [3] [4] [5]
      (MappingDeep1010.init map37 None true true) trial34
    = Ok (if MappingDeep1010.return_mask (MappingDeep1010.init map37 None true true)
          then WithMask y mask else Plain y)
    /\ grid 7 4 y
    /\ length mask = 7
    /\ (forall j, j < 7 ->
          column_empty
            (MappingDeep1010.mapping (MappingDeep1010.init map37 None true true)) 3 7 j
          = true ->
          nth j mask true = false)
    /\ (forall j, j < 7 -> j <> 6 -> nth j mask true = false ->
          row y j = repeat (Fin 0) 4).
Proof.
  apply (MappingDeep1010_mask 6 [0; 1; 2] [3] [4] [5]
           (MappingDeep1010.init map37 None true true) trial34 3 7 4).
  - reflexivity.
  - split; reflexivity.
  - lia.
  - lia.
  - repeat constructor; try discriminate; lia.
  - lia.
Defined.

Lemma MappingDeep1010_scale_extremes_witness :
  exists r,
    MappingDeep1010.call 6 [0; 1; 2] [3] [4] [5]
      (MappingDeep1010.init map37 (Some (mkInfo (Some (Fin 10)) (Some (Fin 0)))) true false)
      trial34 = Ok r
    /\ ((10 <= 30 - 0)%Q -> row (mapped_tensor r) 6 = repeat (Fin 1) 4)
    /\ ((30 == 0)%Q -> row (mapped_tensor r) 6 = repeat (Fin (-1)) 4).
Proof.
  apply (MappingDeep1010_scale_extremes 6 [0; 1; 2] [3] [4] [5]
           (MappingDeep1010.init map37 (Some (mkInfo (Some (Fin 10)) (Some (Fin 0))))
              true false)
           trial34 3 7 4 10 0 30).
  - reflexivity.
  - split; reflexivity.
  - lia.
  - reflexivity.
  - reflexivity.
  - reflexivity.
  - reflexivity.
  - repeat constructor; try discriminate; lia.
  - lia.
Defined.

Lemma MappingDeep1010_wrong_channel_count_witness :
  MappingDeep1010.call 6 [0; 1; 2] [3] [4] [5]
    (MappingDeep1010.init map37 None true false)
    (mkTensor [2; 2] [Fin 1; Fin 2; Fin 3; Fin 4])
  = Raise RuntimeError.
Proof.
  apply (MappingDeep1010_wrong_channel_count 6 [0; 1; 2] [3] [4] [5]
           (MappingDeep1010.init map37 None true false)
           (mkTensor [2; 2] [Fin 1; Fin 2; Fin 3; Fin 4]) 3 2 7 2).
  - reflexivity.
  - reflexivity.
  - lia.
Defined.

Lemma MappingDeep1010_empty_category_witness :
  MappingDeep1010.call 6 [0; 1; 2] [3] [] [5]
    (MappingDeep1010.init map37 None true false) trial34
  = Raise RuntimeError.
Proof.
  apply (MappingDeep1010_empty_category 6 [0; 1; 2] [3] [] [5]
           (MappingDeep1010.init map37 None true false) trial34 3 7 4).
  - reflexivity.
  - split; reflexivity.
  - lia.
  - repeat constructor.
  - right. right. left. reflexivity.
Defined.

(** ** MappingDeep1010.new_channels *)

Lemma map_result_ok {A B : Type} (f : A -> result B) (l : list A) :
  (forall a, In a l -> exists b, f a = Ok b) ->
  exists bs, map_result f l = Ok bs /\ Forall2 (fun a b => f a = Ok b) l bs.
Proof.
  induction l as [|a l IH]; intros H.
  - exists []. split; [reflexivity|constructor].
  - destruct (H a (or_introl eq_refl)) as (b & Hb).
    destruct IH as (bs & Hbs & HF); [intros a' Ha'; apply H; right; exact Ha'|].
    exists (b :: bs). cbn [map_result]. rewrite Hb. cbn [bind]. rewrite Hbs.
    split; [reflexivity|constructor; assumption].
Qed.

Lemma Forall2_nth_seq_from {B : Type} (P : nat -> B -> Prop) (a m : nat)
  (bs : list B) (d : B) :
  Forall2 P (seq a m) bs ->
  length bs = m /\ forall j, j < m -> P (a + j) (nth j bs d).
Proof.
  revert a bs. induction m as [|m IH]; intros a bs H.
  - inversion H; subst. split; [reflexivity|]. intros j Hj. lia.
  - cbn [seq] in H. inversion H as [|x b l bs' Hp HF]; subst.
    destruct (IH (S a) bs' HF) as (Hl & Hn). split; [cbn [length]; lia|].
    intros [|j] Hj; cbn [nth].
    + now rewrite Nat.add_0_r.
    + replace (a + S j) with (S a + j) by lia. apply Hn. lia.
Qed.

Lemma Forall2_nth_seq {B : Type} (P : nat -> B -> Prop) (m : nat) (bs : list B) (d : B) :
  Forall2 P (seq 0 m) bs ->
  length bs = m /\ forall j, j < m -> P j (nth j bs d).
Proof. apply Forall2_nth_seq_from. Qed.

(* the sum of zeros and ones is zero exactly when there is no one *)
Lemma Qsum_binary (qs : list Q) :
  Forall (fun q => (q == 0 \/ q == 1)%Q) qs ->
  (0 <= Qsum qs)%Q /\ ((Qsum qs == 0)%Q <-> Forall (fun q => (q == 0)%Q) qs).
Proof.
  induction 1 as [|q qs Hq Hqs (IH0 & IH)]; cbn [Qsum].
  - split; [lra|]. split; [constructor|reflexivity].
  - split; [destruct Hq; lra|]. split.
    + intros Hs. assert ((q == 0)%Q) by (destruct Hq; lra).
      constructor; [assumption|]. apply IH. lra.
    + intros HF. inversion HF; subst. rewrite <- IH in H2. lra.
Qed.

Section NewChannels.
Variable DEEP_1010_CH_TYPES : list string.

Lemma binary_column (mat : tensor) (n m j : nat) :
  binary mat n m -> j < m ->
  exists qs, column mat n m j = map Fin qs
             /\ Forall (fun q => (q == 0 \/ q == 1)%Q) qs.
Proof.
  intros Hb Hj. unfold column.
  assert (H : forall l, Forall (fun i => i < n) l ->
                exists qs, map (fun i => entry mat m i j) l = map Fin qs
                           /\ Forall (fun q => (q == 0 \/ q == 1)%Q) qs).
  { induction 1 as [|i l Hi Hl (qs & Hqs & HF)].
    - exists []. split; [reflexivity|constructor].
    - destruct (Hb i j Hi Hj) as (q & Hq & H01). exists (q :: qs).
      cbn [map]. rewrite Hq, Hqs. split; [reflexivity|constructor; assumption]. }
  apply H. apply Forall_forall. intros i Hi. apply in_seq in Hi. lia.
Qed.

Lemma active_rows_nil (mat : tensor) (n m j : nat) (qs : list Q) :
  column mat n m j = map Fin qs ->
  (active_rows mat n m j = [] <-> Forall (fun q => (q == 0)%Q) qs).
Proof.
  unfold column, active_rows. generalize (seq 0 n). intros l. revert qs.
  induction l as [|i l IH]; intros qs Hc.
  - destruct qs; [|discriminate]. split; [constructor|reflexivity].
  - destruct qs as [|q qs]; [discriminate|]. cbn [map] in Hc.
    injection Hc as Hq Hc. cbn [filter]. rewrite Hq. cbn [is_nonzero].
    destruct (Qis_zero q) eqn:E; cbn [negb].
    + apply Qis_zero_true in E. rewrite (IH qs Hc). split.
      * intros H. constructor; assumption.
      * intros H. inversion H. assumption.
    + split; [discriminate|]. intros H. inversion H; subst.
      apply Qis_zero_true in H2. congruence.
Qed.

Lemma active_rows_bound (mat : tensor) (n m j i : nat) :
  In i (active_rows mat n m j) -> i < n.
Proof.
  unfold active_rows. intros H. apply filter_In in H. destruct H as (H & _).
  apply in_seq in H. lia.
Qed.

Lemma slot_name_spec (mat : tensor) (n m j : nat) (old_channels : list (string * string)) :
  n <= length old_channels ->
  exists name, MappingDeep1010Names.slot_name mat n m old_channels j = Ok name
    /\ (name = None <-> active_rows mat n m j = []).
Proof.
  intros Hlen. unfold MappingDeep1010Names.slot_name.
  destruct (active_rows mat n m j) as [|i act] eqn:E.
  - exists None. split; [reflexivity|]. split; reflexivity.
  - destruct (map_result_ok (channel_name old_channels) (i :: act)) as (names & Hn & _).
    { intros a Ha. rewrite <- E in Ha. apply active_rows_bound in Ha.
      unfold channel_name. destruct (nth_error old_channels a) eqn:En.
      - eexists; reflexivity.
      - apply nth_error_None in En. lia. }
    rewrite Hn. cbn [bind]. eexists. split; [reflexivity|]. split; discriminate.
Qed.

(** X19.  For a mapping of zeros and ones on n source channels and m
    canonical slots, new_channels lists one entry per canonical slot (as
    many as the rows MappingDeep1010 returns, when channels.py gives m
    type labels), and the name of a slot is None exactly where the
    used-channel mask of the call is False. *)
Theorem new_channels_agrees_with_mask (self : MappingDeep1010.t)
  (old_channels : list (string * string)) (n m : nat) :
  shape (MappingDeep1010.mapping self) = [n; m] ->
  binary (MappingDeep1010.mapping self) n m ->
  n <= length old_channels ->
  length DEEP_1010_CH_TYPES = m ->
  exists channels mask,
    MappingDeep1010Names.new_channels DEEP_1010_CH_TYPES self old_channels = Ok channels
    /\ length channels = m
    /\ column_used (MappingDeep1010.mapping self) = Ok mask
    /\ forall j, j < m ->
         (fst (nth j channels (None, EmptyString)) = None <-> nth j mask true = false)
         /\ snd (nth j channels (None, EmptyString))
            = nth j DEEP_1010_CH_TYPES EmptyString.
Proof.
  intros Hmap Hbin Hlen Htypes.
  unfold MappingDeep1010Names.new_channels, column_used. rewrite Hmap.
  destruct (map_result_ok
              (MappingDeep1010Names.slot_name (MappingDeep1010.mapping self) n m
                 old_channels) (seq 0 m)) as (names & Hnames & HF).
  { intros j _. destruct (slot_name_spec (MappingDeep1010.mapping self) n m j
                            old_channels Hlen) as (name & Hname & _).
    exists name. exact Hname. }
  rewrite Hnames. cbn [bind].
  destruct (Forall2_nth_seq _ m names None HF) as (Hnl & Hnth).
  eexists. eexists. split; [reflexivity|].
  split; [rewrite length_combine; lia|]. split; [reflexivity|].
  intros j Hj. rewrite combine_nth by lia. cbn [fst snd]. split; [|reflexivity].
  rewrite nth_map_seq by exact Hj.
  destruct (slot_name_spec (MappingDeep1010.mapping self) n m j old_channels Hlen)
    as (name & Hname & Hnone).
  specialize (Hnth j Hj). cbn beta in Hnth. rewrite Hname in Hnth.
  inversion Hnth as [Heq]. rewrite <- Heq, Hnone.
  destruct (binary_column _ n m j Hbin Hj) as (qs & Hcol & H01).
  rewrite (active_rows_nil _ n m j qs Hcol), Hcol.
  destruct (fsum_Fin qs) as (q & -> & Hq).
  destruct (Qsum_binary qs H01) as (_ & Hz). rewrite <- Hz, <- Hq.
  rewrite negb_false_iff. symmetry. apply Qis_zero_true.
Qed.
End NewChannels.

Lemma new_channels_agrees_with_mask_witness :
  exists channels mask,
    MappingDeep1010Names.new_channels
      ["EEG"; "EEG"; "EEG"; "EOG"; "REF"; "EXTRA"; "SCALE"]%string
      (MappingDeep1010.init map37 None true false)
      [("Fp1", "eeg"); ("Fp2", "eeg"); ("VEOG", "eog")]%string = Ok channels
    /\ length channels = 7
    /\ column_used (MappingDeep1010.mapping (MappingDeep1010.init map37 None true false))
       = Ok mask
    /\ forall j, j < 7 ->
         (fst (nth j channels (None, EmptyString)) = None <-> nth j mask true = false)
         /\ snd (nth j channels (None, EmptyString))
            = nth j ["EEG"; "EEG"; "EEG"; "EOG"; "REF"; "EXTRA"; "SCALE"]%string
                EmptyString.
Proof.
  apply (new_channels_agrees_with_mask
           ["EEG"; "EEG"; "EEG"; "EOG"; "REF"; "EXTRA"; "SCALE"]%string
           (MappingDeep1010.init map37 None true false)
           [("Fp1", "eeg"); ("Fp2", "eeg"); ("VEOG", "eog")]%string 3 7).
  - reflexivity.
  - intros i j Hi Hj.
    destruct i as [|[|[|i]]]; [| | |lia];
      (destruct j as [|[|[|[|[|[|[|j]]]]]]]; [| | | | | | |lia]);
      (eexists; split; [reflexivity|]); (left; reflexivity) || (right; reflexivity).
  - simpl. lia.
  - reflexivity.
Defined.

Example new_channels_run :
  MappingDeep1010Names.new_channels
    ["EEG"; "EEG"; "EEG"; "EOG"; "REF"; "EXTRA"; "SCALE"]%string
    (MappingDeep1010.init map37 None true false)
    [("Fp1", "eeg"); ("Fp2", "eeg"); ("VEOG", "eog")]%string
  = Ok [(Some "Fp1", "EEG"); (Some "Fp2", "EEG"); (None, "EEG"); (Some "VEOG", "EOG");
        (None, "REF"); (None, "EXTRA"); (None, "SCALE")]%string.
Proof. reflexivity. Qed.

(** ** rand_split *)

Lemma py_slice_prefix {A : Type} (l : list A) (a : Z) :
  (0 <= a <= Z.of_nat (length l))%Z -> py_slice l 0 (0 + a) = firstn (Z.to_nat a) l.
Proof.
  intros Ha. unfold py_slice. cbn [Z.ltb Z.compare].
  destruct (0 + a <? 0)%Z eqn:E; [apply Z.ltb_lt in E; lia|].
  rewrite Z.min_l, Z.min_l by lia. cbn [Z.to_nat skipn].
  f_equal. lia.
Qed.

Lemma py_slice_suffix {A : Type} (l : list A) (a b : Z) :
  (0 <= a)%Z -> (0 <= b)%Z -> (a + b = Z.of_nat (length l))%Z ->
  py_slice l (0 + a) (0 + a + b) = skipn (Z.to_nat a) l.
Proof.
  intros Ha Hb Hab. unfold py_slice.
  destruct (0 + a <? 0)%Z eqn:E1; [apply Z.ltb_lt in E1; lia|].
  destruct (0 + a + b <? 0)%Z eqn:E2; [apply Z.ltb_lt in E2; lia|].
  rewrite !Z.min_l by lia. rewrite Z.add_0_l. apply firstn_all2.
  rewrite length_skipn. lia.
Qed.

Lemma Qfloor_nonneg (q : Q) : (0 <= q)%Q -> (0 <= Qfloor q)%Z.
Proof.
  intros H. change 0%Z with (Qfloor 0). apply Qfloor_resp_le, H.
Qed.

Lemma py_round_nonneg (q : Q) : (0 <= q)%Q -> (0 <= py_round q)%Z.
Proof.
  intros H. pose proof (Qfloor_nonneg q H). unfold py_round.
  destruct (Qcompare _ _); [destruct (Z.even _)|..]; lia.
Qed.

Lemma rand_split_mismatch {A : Type} (randperm : Z -> list nat)
  (dataset : list A) (frac : Q) :
  (frac < 1)%Q ->
  (py_round (inject_Z (Z.of_nat (length dataset)) * frac)
   + py_round (inject_Z (Z.of_nat (length dataset)) * (1 - frac))
   <> Z.of_nat (length dataset))%Z ->
  rand_split randperm dataset frac = Raise ValueError.
Proof.
  intros H Hne. unfold rand_split.
  replace (Qle_bool 1 frac) with false.
  2:{ symmetry. apply not_true_iff_false. rewrite Qle_bool_iff. lra. }
  unfold random_split. cbn [fold_right].
  match goal with
  | |- context [(?a + (?b + 0) =? ?n)%Z] =>
      destruct (a + (b + 0) =? n)%Z eqn:E; [apply Z.eqb_eq in E; lia|]
  end.
  reflexivity.
Qed.

Lemma rand_split_parts {A : Type} (randperm : Z -> list nat)
  (dataset : list A) (frac : Q) :
  (0 <= frac < 1)%Q ->
  (py_round (inject_Z (Z.of_nat (length dataset)) * frac)
   + py_round (inject_Z (Z.of_nat (length dataset)) * (1 - frac))
   = Z.of_nat (length dataset))%Z ->
  Permutation (randperm (Z.of_nat (length dataset))) (seq 0 (length dataset)) ->
  exists p1 p2,
    rand_split randperm dataset frac = Ok (Parts [p1; p2])
    /\ Z.of_nat (length p1)
       = py_round (inject_Z (Z.of_nat (length dataset)) * frac)
    /\ Z.of_nat (length p2)
       = py_round (inject_Z (Z.of_nat (length dataset)) * (1 - frac))
    /\ Permutation (p1 ++ p2) (seq 0 (length dataset)).
Proof.
  set (n := length dataset).
  set (a := py_round (inject_Z (Z.of_nat n) * frac)).
  set (b := py_round (inject_Z (Z.of_nat n) * (1 - frac))).
  intros (H0 & H1) Hsum Hperm. unfold rand_split.
  replace (Qle_bool 1 frac) with false.
  2:{ symmetry. apply not_true_iff_false. rewrite Qle_bool_iff. lra. }
  fold n a b. unfold random_split. cbn [fold_right].
  replace (a + (b + 0) =? Z.of_nat n)%Z with true by (symmetry; apply Z.eqb_eq; lia).
  replace (a + (b + 0))%Z with (Z.of_nat n) by lia.
  set (perm := randperm (Z.of_nat n)) in *.
  assert (Hlen : length perm = n).
  { rewrite (Permutation_length Hperm). apply length_seq. }
  assert (Ha : (0 <= a)%Z).
  { apply py_round_nonneg. apply Qmult_le_0_compat; [|exact H0].
    change 0%Q with (inject_Z 0). rewrite <- Zle_Qle. lia. }
  assert (Hb : (0 <= b)%Z).
  { apply py_round_nonneg. apply Qmult_le_0_compat; [|lra].
    change 0%Q with (inject_Z 0). rewrite <- Zle_Qle. lia. }
  exists (firstn (Z.to_nat a) perm), (skipn (Z.to_nat a) perm).
  cbn [split_at bind]. rewrite py_slice_prefix by lia.
  rewrite py_slice_suffix by lia.
  split; [reflexivity|]. split; [rewrite length_firstn; lia|].
  split; [rewrite length_skipn; lia|]. rewrite firstn_skipn. exact Hperm.
Qed.

(* the two subsets are the head and the tail of the permutation drawn *)
Lemma rand_split_head_tail {A : Type} (randperm : Z -> list nat)
  (dataset : list A) (frac : Q) :
  (0 <= frac < 1)%Q ->
  (py_round (inject_Z (Z.of_nat (length dataset)) * frac)
   + py_round (inject_Z (Z.of_nat (length dataset)) * (1 - frac))
   = Z.of_nat (length dataset))%Z ->
  length (randperm (Z.of_nat (length dataset))) = length dataset ->
  rand_split randperm dataset frac
  = Ok (Parts
          [firstn (Z.to_nat (py_round (inject_Z (Z.of_nat (length dataset)) * frac)))
             (randperm (Z.of_nat (length dataset)));
           skipn (Z.to_nat (py_round (inject_Z (Z.of_nat (length dataset)) * frac)))
             (randperm (Z.of_nat (length dataset)))]).
Proof.
  set (n := length dataset).
  set (a := py_round (inject_Z (Z.of_nat n) * frac)).
  set (b := py_round (inject_Z (Z.of_nat n) * (1 - frac))).
  intros (H0 & H1) Hsum Hlen. unfold rand_split.
  replace (Qle_bool 1 frac) with false.
  2:{ symmetry. apply not_true_iff_false. rewrite Qle_bool_iff. lra. }
  fold n a b. unfold random_split. cbn [fold_right].
  replace (a + (b + 0) =? Z.of_nat n)%Z with true by (symmetry; apply Z.eqb_eq; lia).
  replace (a + (b + 0))%Z with (Z.of_nat n) by lia.
  assert (Ha : (0 <= a)%Z).
  { apply py_round_nonneg. apply Qmult_le_0_compat; [|exact H0].
    change 0%Q with (inject_Z 0). rewrite <- Zle_Qle. lia. }
  assert (Hb : (0 <= b)%Z).
  { apply py_round_nonneg. apply Qmult_le_0_compat; [|lra].
    change 0%Q with (inject_Z 0). rewrite <- Zle_Qle. lia. }
  cbn [split_at bind]. rewrite py_slice_prefix by lia.
  rewrite py_slice_suffix by lia. reflexivity.
Qed.

(** X20.  Let frac be a binary fraction a / 2^e of [0, 1) with e at most
    20 and let the dataset have n < 2^30 items, so that the products
    n * frac and n * (1 - frac) are exact in double precision.  When the
    two rounded sizes round(n * frac) and round(n * (1 - frac)) add up to
    n, rand_split returns two index subsets: the first round(n * frac)
    indices of the permutation drawn and the indices after them.  They
    have exactly those sizes, concatenated they are the permutation
    drawn, and so every item is in exactly one subset. *)
Theorem rand_split_partition {A : Type} (randperm : Z -> list nat)
  (dataset : list A) (frac : Q) (a : Z) (e : nat) :
  (0 <= frac < 1)%Q ->
  (frac == inject_Z a / inject_Z (2 ^ Z.of_nat e))%Q -> e <= 20 ->
  (Z.of_nat (length dataset) < 2 ^ 30)%Z ->
  (py_round (inject_Z (Z.of_nat (length dataset)) * frac)
   + py_round (inject_Z (Z.of_nat (length dataset)) * (1 - frac))
   = Z.of_nat (length dataset))%Z ->
  Permutation (randperm (Z.of_nat (length dataset))) (seq 0 (length dataset)) ->
  exists p1 p2,
    rand_split randperm dataset frac = Ok (Parts [p1; p2])
    /\ p1 = firstn (Z.to_nat (py_round (inject_Z (Z.of_nat (length dataset)) * frac)))
              (randperm (Z.of_nat (length dataset)))
    /\ p2 = skipn (Z.to_nat (py_round (inject_Z (Z.of_nat (length dataset)) * frac)))
              (randperm (Z.of_nat (length dataset)))
    /\ Z.of_nat (length p1)
       = py_round (inject_Z (Z.of_nat (length dataset)) * frac)
    /\ Z.of_nat (length p2)
       = py_round (inject_Z (Z.of_nat (length dataset)) * (1 - frac))
    /\ p1 ++ p2 = randperm (Z.of_nat (length dataset))
    /\ Permutation (p1 ++ p2) (seq 0 (length dataset))
    /\ NoDup (p1 ++ p2).
Proof.
  intros Hf _ _ _ Hsum Hperm.
  assert (Hlen : length (randperm (Z.of_nat (length dataset))) = length dataset).
  { rewrite (Permutation_length Hperm). apply length_seq. }
  assert (Ha : (0 <= py_round (inject_Z (Z.of_nat (length dataset)) * frac))%Z).
  { apply py_round_nonneg. apply Qmult_le_0_compat; [|apply Hf].
    change 0%Q with (inject_Z 0). rewrite <- Zle_Qle. lia. }
  assert (Hb : (0 <= py_round (inject_Z (Z.of_nat (length dataset)) * (1 - frac)))%Z).
  { apply py_round_nonneg. apply Qmult_le_0_compat; [|lra].
    change 0%Q with (inject_Z 0). rewrite <- Zle_Qle. lia. }
  eexists. eexists.
  split; [apply (rand_split_head_tail randperm dataset frac Hf Hsum Hlen)|].
  split; [reflexivity|]. split; [reflexivity|].
  split; [rewrite length_firstn; lia|].
  split; [rewrite length_skipn; lia|].
  rewrite firstn_skipn. split; [reflexivity|]. split; [exact Hperm|].
  apply (Permutation_NoDup (Permutation_sym Hperm)), seq_NoDup.
Qed.

Lemma rand_split_partition_witness :
  exists p1 p2,
    rand_split (fun k => rev (seq 0 (Z.to_nat k))) [10; 20; 30; 40] (1 # 2)
    = Ok (Parts [p1; p2])
    /\ p1 = firstn (Z.to_nat (py_round (inject_Z (Z.of_nat (length [10; 20; 30; 40]))
                                         * (1 # 2))))
              (rev (seq 0 (Z.to_nat (Z.of_nat (length [10; 20; 30; 40])))))
    /\ p2 = skipn (Z.to_nat (py_round (inject_Z (Z.of_nat (length [10; 20; 30; 40]))
                                        * (1 # 2))))
              (rev (seq 0 (Z.to_nat (Z.of_nat (length [10; 20; 30; 40])))))
    /\ Z.of_nat (length p1)
       = py_round (inject_Z (Z.of_nat (length [10; 20; 30; 40])) * (1 # 2))
    /\ Z.of_nat (length p2)
       = py_round (inject_Z (Z.of_nat (length [10; 20; 30; 40])) * (1 - (1 # 2)))
    /\ p1 ++ p2 = rev (seq 0 (Z.to_nat (Z.of_nat (length [10; 20; 30; 40]))))
    /\ Permutation (p1 ++ p2) (seq 0 (length [10; 20; 30; 40]))
    /\ NoDup (p1 ++ p2).
Proof.
  apply (rand_split_partition (fun k => rev (seq 0 (Z.to_nat k))) [10; 20; 30; 40]
           (1 # 2) 1 1).
  - split; [vm_compute; discriminate|reflexivity].
  - reflexivity.
  - lia.
  - reflexivity.
  - reflexivity.
  - apply Permutation_sym, Permutation_rev.
Defined.

Lemma Nat_odd_not_double (n : nat) (v : Z) :
  Nat.odd n = true -> (v + v <> Z.of_nat n)%Z.
Proof.
  intros Ho Hv. apply Nat.odd_spec in Ho. destruct Ho as (k & ->). lia.
Qed.

(** X21.  Splitting in halves fails on every dataset of odd size: for
    frac = 1/2 both sizes round the same tie to the same even number, so
    they cannot add up to the odd number of items and random_split
    raises ValueError. *)
Theorem rand_split_half_of_odd {A : Type} (randperm : Z -> list nat)
  (dataset : list A) :
  Nat.odd (length dataset) = true ->
  rand_split randperm dataset (1 # 2) = Raise ValueError.
Proof.
  intros Ho. apply rand_split_mismatch; [reflexivity|].
  change (1 - (1 # 2))%Q with (1 # 2)%Q.
  apply Nat_odd_not_double, Ho.
Qed.

Lemma rand_split_half_of_odd_witness :
  rand_split (fun k => seq 0 (Z.to_nat k)) [10; 20; 30] (1 # 2) = Raise ValueError.
Proof.
  apply (rand_split_half_of_odd (fun k => seq 0 (Z.to_nat k)) [10; 20; 30]).
  reflexivity.
Defined.

Lemma round_quarters (N : Z) :
  (py_round (inject_Z N * (3 # 4)) + py_round (inject_Z N * (1 - (3 # 4))) = N)%Z.
Proof.
  change (1 - (3 # 4))%Q with (1 # 4)%Q.
  unfold py_round, Qfloor, Qcompare, Qminus, Qplus, Qopp, Qmult, inject_Z.
  cbn [Qnum Qden Pos.mul].
  pose proof (Z.div_mod (N * 3) 4 ltac:(lia)) as H3.
  pose proof (Z.mod_pos_bound (N * 3) 4 ltac:(lia)) as B3.
  pose proof (Z.div_mod (N * 1) 4 ltac:(lia)) as H1.
  pose proof (Z.mod_pos_bound (N * 1) 4 ltac:(lia)) as B1.
  set (f := (N * 3 / 4)%Z) in *. set (g := (N * 1 / 4)%Z) in *.
  set (r3 := ((N * 3) mod 4)%Z) in *. set (r1 := ((N * 1) mod 4)%Z) in *.
  assert (E3 : Z.even f = true <-> Z.Even f) by apply Z.even_spec.
  assert (E1 : Z.even g = true <-> Z.Even g) by apply Z.even_spec.
  assert (O3 : Z.even f = false <-> Z.Odd f).
  { rewrite <- Z.odd_spec, <- Z.negb_even.
    destruct (Z.even f); split; intros; try reflexivity; discriminate. }
  assert (O1 : Z.even g = false <-> Z.Odd g).
  { rewrite <- Z.odd_spec, <- Z.negb_even.
    destruct (Z.even g); split; intros; try reflexivity; discriminate. }
  destruct (Z.compare_spec ((N * 3 * 1 + - f * 4) * 2) (1 * 4)) as [C3|C3|C3];
    destruct (Z.compare_spec ((N * 1 * 1 + - g * 4) * 2) (1 * 4)) as [C1|C1|C1];
    try lia.
  destruct (Z.even f) eqn:Ef; destruct (Z.even g) eqn:Eg.
  - destruct (proj1 E3 eq_refl) as (u & Hu). destruct (proj1 E1 eq_refl) as (v & Hv). lia.
  - lia.
  - lia.
  - destruct (proj1 O3 eq_refl) as (u & Hu). destruct (proj1 O1 eq_refl) as (v & Hv). lia.
Qed.

(** X22.  With the default frac = 0.75 rand_split never fails: for every
    dataset the two rounded sizes add up to its length (ties included),
    and the two subsets returned partition the drawn permutation. *)
Theorem rand_split_default_succeeds {A : Type} (randperm : Z -> list nat)
  (dataset : list A) :
  Permutation (randperm (Z.of_nat (length dataset))) (seq 0 (length dataset)) ->
  exists p1 p2,
    rand_split randperm dataset (3 # 4) = Ok (Parts [p1; p2])
    /\ length p1 + length p2 = length dataset
    /\ Z.of_nat (length p1) = py_round (inject_Z (Z.of_nat (length dataset)) * (3 # 4))
    /\ Permutation (p1 ++ p2) (seq 0 (length dataset)).
Proof.
  intros Hperm.
  destruct (rand_split_parts randperm dataset (3 # 4)) as (p1 & p2 & Hr & H1 & H2 & Hp).
  - split; [vm_compute; discriminate|reflexivity].
  - apply round_quarters.
  - exact Hperm.
  - exists p1, p2. split; [exact Hr|]. split; [|split; [exact H1|exact Hp]].
    pose proof (round_quarters (Z.of_nat (length dataset))). lia.
Qed.

Lemma rand_split_default_succeeds_witness :
  exists p1 p2,
    rand_split (fun k => rev (seq 0 (Z.to_nat k))) [10; 20; 30; 40; 50; 60] (3 # 4)
    = Ok (Parts [p1; p2])
    /\ length p1 + length p2 = length [10; 20; 30; 40; 50; 60]
    /\ Z.of_nat (length p1)
       = py_round (inject_Z (Z.of_nat (length [10; 20; 30; 40; 50; 60])) * (3 # 4))
    /\ Permutation (p1 ++ p2) (seq 0 (length [10; 20; 30; 40; 50; 60])).
Proof.
  apply (rand_split_default_succeeds (fun k => rev (seq 0 (Z.to_nat k)))
           [10; 20; 30; 40; 50; 60]).
  apply Permutation_sym, Permutation_rev.
Defined.

Example rand_split_default :
  rand_split (fun k => rev (seq 0 (Z.to_nat k))) [10; 20; 30; 40; 50; 60] (3 # 4)
  = Ok (Parts [[5; 4; 3; 2]; [1; 0]]).
Proof. reflexivity. Qed.

(** ** unfurl *)

(** X23.  unfurl flattens one level and nothing more: an item is in the
    result exactly when it is a non-iterable member of the set or an
    item of an iterable member; a set of non-iterables comes back as it
    is, and the result has as many items as the members hold. *)
Theorem unfurl_members {A : Type} (_list : list (member A)) (l : list A) (a : A) :
  (In a (unfurl _list) <->
   In (Single a) _list \/ exists items, In (Iterable items) _list /\ In a items)
  /\ unfurl (map Single l) = l
  /\ length (unfurl _list)
     = fold_right (fun e k => match e with
                              | Single _ => 1
                              | Iterable items => length items
                              end + k) 0 _list.
Proof.
  split; [|split].
  - unfold unfurl. rewrite in_concat. split.
    + intros (b & Hb & Ha). apply in_map_iff in Hb. destruct Hb as (e & <- & He).
      destruct e as [a'|items].
      * destruct Ha as [<-|[]]. left. exact He.
      * right. exists items. split; assumption.
    + intros [H|(items & H & Ha)].
      * exists [a]. split; [|left; reflexivity].
        apply in_map_iff. exists (Single a). split; [reflexivity|exact H].
      * exists items. split; [|exact Ha].
        apply in_map_iff. exists (Iterable items). split; [reflexivity|exact H].
  - unfold unfurl. rewrite map_map. apply concat_singletons.
  - unfold unfurl. induction _list as [|e rest IH]; [reflexivity|].
    cbn [map concat fold_right]. rewrite length_app, IH.
    destruct e; reflexivity.
Qed.
